(** * A process-level model of the shell's execution engine (shell.c)

    The program is a command interpreter: [main] reads a line, the parser
    builds a command tree, and the functions [execute_cd],
    [execute_command], [execute_nonbuiltin], [execute_simple_command] and
    [execute_complex_command] turn the tree into processes wired together
    with pipes and redirections.

    The C functions are embedded as computations of a small monad over a
    process state and a kernel state.  The system calls they use (open,
    dup2, close, pipe, fork, wait, waitpid, chdir, getcwd, execvp, exit)
    are given an executable POSIX-style semantics below.

    Processes.  Every process has its own descriptor table, current
    directory and trace of the calls it made, so that properties of each
    process are stated on what that process did.  [fork] runs the code of
    the [pid == 0] branch in a copy of the calling process, up to the exit
    or the execvp that ends it, and then resumes the caller.  The calls
    of one process are in program order; between processes only the order
    that fork and wait impose is meant.  What flows through a pipe is not
    modelled, nor is the program that execvp starts, which is taken to
    terminate.  wait and waitpid return when a child has terminated: in
    the model they mark the child as waited for, and a process that has
    returned from them has outlived that child.

    The read loop.  [main] is embedded with the bytes its standard input
    is still to deliver and the texts it hands to printf as explicit
    state, and its loop is run for a given number of iterations.  The
    parser is not part of the sources: parse_line and construct_command
    are parameters of the model of [main].  Where the C program reads an
    array that nothing has filled, or outside an array, the process ends
    as [Undefined].

    Names.  A file is identified by the path string given to open, and a
    directory by the string given to chdir: two spellings of one name, or
    two links to one file, are different files in the model.  The kernel
    holds the files as the calls of the shell's own code left them; what
    a program does once execvp has started it is not modelled.  The
    properties that speak of files are therefore stated on the calls
    made and their arguments, or on the file under the very path a call
    was made with.

    Failures.  open, dup2, close, pipe, fork, wait, waitpid and execvp
    can fail for reasons outside the program (no descriptor or process
    left, an interrupted call): the kernel state carries an oracle that
    tells which call of which process fails.  They also fail for the
    reasons the state shows: a descriptor that is not open, a file that is
    absent, a process that is not a child.  chdir and getcwd fail on the
    state only. *)

From Stdlib Require Import ZArith Lia String Ascii List.
From stdpp Require Import base option list gmap strings.

Local Open Scope string_scope.
Local Open Scope list_scope.
Local Open Scope Z_scope.

(** ** Constants *)

(** shell.c, lines 20-22 *)
Definition MAX_DIRNAME : Z := 100.
Definition MAX_COMMAND : Z := 1024.
Definition MAX_TOKEN : Z := 128.

(** <stdlib.h> *)
Definition EXIT_SUCCESS : Z := 0.
Definition EXIT_FAILURE : Z := 1.

(** <fcntl.h> (Linux values): the access mode is the two low bits. *)
Definition O_RDONLY : Z := 0.
Definition O_WRONLY : Z := 1.
Definition O_RDWR : Z := 2.
Definition O_ACCMODE : Z := 3.
Definition O_CREAT : Z := 64.
Definition O_TRUNC : Z := 512.

(** The octal literal 0664 of the source. *)
Definition mode_0664 : Z := 6 * 64 + 6 * 8 + 4.

(** <stdio.h>: fileno(stdin), fileno(stdout), fileno(stderr). *)
Definition STDIN_FILENO : Z := 0.
Definition STDOUT_FILENO : Z := 1.
Definition STDERR_FILENO : Z := 2.

(** size_t is 64 bits wide. *)
Definition SIZE_MAX1 : Z := 2 ^ 64.

Definition newline : string := String (ascii_of_nat 10) EmptyString.

(** ** The command tree (parser.h) *)

(** Modelled from the spec: the builtin kinds of parser.h, which is not
    part of the sources; shell.c compares the field [builtin] with
    BUILTIN_EXIT and BUILTIN_CD. *)
Inductive builtin_kind : Type :=
| BUILTIN_NONE
| BUILTIN_CD
| BUILTIN_EXIT.

(** Modelled from the spec: the struct simple_command of parser.h, which
    is not part of the sources.  [s_in], [s_out] and [s_err] are the
    pointers [in], [out] and [err] (None is NULL); [tokens] is the
    NULL-terminated array [tokens], so that [tokens !! i] is NULL exactly
    when it is None. *)
Record simple_command : Type := SimpleCommand {
  s_in : option string;
  s_out : option string;
  s_err : option string;
  tokens : list string;
  builtin : builtin_kind
}.

(** Modelled from the spec: the struct command of parser.h, which is not
    part of the sources.  A node is either a leaf ([scmd] is set) or an
    internal node with an operator and two children ([scmd] is NULL). *)
Inductive command : Type :=
| Leaf (scmd : simple_command)
| Node (oper : string) (cmd1 cmd2 : command).

(** Modelled from the spec: is_relative of parser.h, which is not part of
    the sources; a path is syntactically absolute when it starts with a
    slash. *)
Definition is_relative (path : string) : bool :=
  match path with
  | String c _ => negb (Ascii.eqb c "/"%char)
  | EmptyString => true
  end.

(** ** Processes and the kernel *)

(** What a file descriptor refers to. *)
Inductive ofd : Type :=
| OTerminal
| OFile (path : string) (flags : Z)
| OPipeRead (id : nat)
| OPipeWrite (id : nat).

Record file : Type := File {
  f_mode : Z;
  f_data : string
}.

(** One entry per library call a process makes, with its arguments and
    what it returned. *)
Inductive event : Type :=
| EvOpen (path : option string) (flags : Z) (mode : option Z) (ret : Z)
| EvDup2 (oldfd newfd : Z) (ret : Z)
| EvClose (fd : Z) (ret : Z)
| EvPipe (ret : Z) (pfd0 pfd1 : Z)
| EvFork (ret : Z)
| EvWait (ret : Z)
| EvWaitpid (pid : Z) (ret : Z)
| EvGetcwd (size : Z) (ret : option string)
| EvChdir (path : string) (ret : Z)
| EvExecvp (path : option string) (argv : list string) (ok : bool)
| EvPerror (s : option string)
| EvStderr (s : string)
| EvExit (status : Z).

(** How a process stopped running the shell's code: exit, a successful
    execvp, the end of the code given to fork without either, or a write
    outside a buffer. *)
Inductive outcome : Type :=
| Exited (status : Z)
| Execed (path : string) (argv : list string)
| Returned (v : Z)
| Undefined.

Record proc : Type := Proc {
  p_pid : positive;
  p_fds : gmap Z ofd;
  p_cwd : string;
  p_umask : Z;
  p_clock : nat;
  p_trace : list event
}.

(** The kernel's record of a child process: who forked it, how it ended,
    its last state, and whether its parent has waited for it. *)
Record pinfo : Type := PInfo {
  pi_parent : positive;
  pi_end : outcome;
  pi_final : proc;
  pi_reaped : bool
}.

(** [k_fault pid n] tells whether the [n]-th fallible system call of
    process [pid] fails for lack of resources (descriptor or process
    exhaustion, interruption); [k_dirs] are the directories a process may
    change to, [k_progs] the names execvp finds. *)
Record kernel : Type := Kernel {
  k_fault : positive -> nat -> bool;
  k_files : gmap string file;
  k_dirs : gset string;
  k_progs : gset string;
  k_next_pid : positive;
  k_next_pipe : nat;
  k_procs : gmap positive pinfo
}.

(** ** The monad of process computations *)

Inductive result (A : Type) : Type :=
| Ret (a : A) (p : proc)
| Halt (o : outcome) (p : proc).
Arguments Ret {A} a p.
Arguments Halt {A} o p.

Definition M (A : Type) : Type := proc -> kernel -> result A * kernel.

Definition ret {A : Type} (a : A) : M A := fun p k => (Ret a p, k).

Definition bind {A B : Type} (m : M A) (f : A -> M B) : M B :=
  fun p k =>
    match m p k with
    | (Ret a p', k') => f a p' k'
    | (Halt o p', k') => (Halt o p', k')
    end.

Declare Scope shell_scope.
Delimit Scope shell_scope with shell.
Notation "x <- c1 ;; c2" := (bind c1 (fun x => c2))
  (at level 100, c1 at next level, right associativity) : shell_scope.
Notation "c1 ;; c2" := (bind c1 (fun _ => c2))
  (at level 100, right associativity) : shell_scope.
Local Open Scope shell_scope.

Definition final_proc {A : Type} (r : result A) : proc :=
  match r with
  | Ret _ p => p
  | Halt _ p => p
  end.

(** ** Process state updates *)

Definition emit (e : event) (p : proc) : proc :=
  Proc (p_pid p) (p_fds p) (p_cwd p) (p_umask p) (p_clock p) (p_trace p ++ [e]).

Definition tick (p : proc) : proc :=
  Proc (p_pid p) (p_fds p) (p_cwd p) (p_umask p) (S (p_clock p)) (p_trace p).

Definition set_fds (fds : gmap Z ofd) (p : proc) : proc :=
  Proc (p_pid p) fds (p_cwd p) (p_umask p) (p_clock p) (p_trace p).

Definition set_cwd (d : string) (p : proc) : proc :=
  Proc (p_pid p) (p_fds p) d (p_umask p) (p_clock p) (p_trace p).

Definition set_files (fs : gmap string file) (k : kernel) : kernel :=
  Kernel (k_fault k) fs (k_dirs k) (k_progs k) (k_next_pid k) (k_next_pipe k)
    (k_procs k).

Definition set_procs (ps : gmap positive pinfo) (k : kernel) : kernel :=
  Kernel (k_fault k) (k_files k) (k_dirs k) (k_progs k) (k_next_pid k)
    (k_next_pipe k) ps.

Definition bump_pid (k : kernel) : kernel :=
  Kernel (k_fault k) (k_files k) (k_dirs k) (k_progs k)
    (Pos.succ (k_next_pid k)) (k_next_pipe k) (k_procs k).

Definition bump_pipe (k : kernel) : kernel :=
  Kernel (k_fault k) (k_files k) (k_dirs k) (k_progs k) (k_next_pid k)
    (S (k_next_pipe k)) (k_procs k).

Definition faulty (p : proc) (k : kernel) : bool :=
  k_fault k (p_pid p) (p_clock p).

(** The lowest descriptor number that is not in use. *)
Fixpoint lowest_free (fuel : nat) (n : nat) (fds : gmap Z ofd) : Z :=
  match fuel with
  | O => Z.of_nat n
  | S fuel' =>
      match fds !! Z.of_nat n with
      | Some _ => lowest_free fuel' (S n) fds
      | None => Z.of_nat n
      end
  end.

Definition alloc_fd (fds : gmap Z ofd) : Z :=
  lowest_free (size fds) 0 fds.

(** ** Library calls *)

(** perror(s): writes [s], a colon and the text of errno to the standard
    error stream. *)
Definition perror (s : option string) : M unit :=
  fun p k => (Ret tt (emit (EvPerror s) p), k).

(** fprintf(stderr, s) *)
Definition fprintf_stderr (s : string) : M unit :=
  fun p k => (Ret tt (emit (EvStderr s) p), k).

(** exit(status): the process ends here. *)
Definition exit {A : Type} (status : Z) : M A :=
  fun p k => (Halt (Exited status) (emit (EvExit status) p), k).

Definition creates (flags : Z) : bool := Z.testbit flags 6.
Definition truncates (flags : Z) : bool := Z.testbit flags 9.

(** What open does to the files: None when the file is absent and
    O_CREAT is not given.  A created file gets [mode] without the bits of
    the umask; O_TRUNC empties an existing file. *)
Definition files_after_open (f : string) (flags : Z) (mode : option Z)
    (umask : Z) (fs : gmap string file) : option (gmap string file) :=
  match fs !! f with
  | Some old =>
      if truncates flags then Some (<[f := File (f_mode old) ""]> fs)
      else Some fs
  | None =>
      if creates flags
      then Some (<[f := File (Z.land (default 0 mode) (Z.lnot umask)) ""]> fs)
      else None
  end.

(** open(path, flags, mode): fails when the kernel is out of resources,
    when [path] is NULL, and when the file is absent and O_CREAT is not
    given.  The new descriptor is the lowest free one. *)
Definition open (path : option string) (flags : Z) (mode : option Z) : M Z :=
  fun p k =>
    let p1 := tick p in
    let failed := (Ret (-1) (emit (EvOpen path flags mode (-1)) p1), k) in
    if faulty p k then failed
    else
      match path with
      | None => failed
      | Some f =>
          match files_after_open f flags mode (p_umask p) (k_files k) with
          | Some fs =>
              let fd := alloc_fd (p_fds p) in
              (Ret fd
                 (emit (EvOpen path flags mode fd)
                    (set_fds (<[fd := OFile f flags]> (p_fds p)) p1)),
               set_files fs k)
          | None => failed
          end
      end.

(** dup2(oldfd, newfd): [newfd] is made to refer to what [oldfd] refers
    to; fails when [oldfd] is not open. *)
Definition dup2 (oldfd newfd : Z) : M Z :=
  fun p k =>
    let p1 := tick p in
    let failed := (Ret (-1) (emit (EvDup2 oldfd newfd (-1)) p1), k) in
    if faulty p k then failed
    else
      match p_fds p !! oldfd with
      | Some o =>
          (Ret newfd
             (emit (EvDup2 oldfd newfd newfd)
                (set_fds (<[newfd := o]> (p_fds p)) p1)), k)
      | None => failed
      end.

(** close(fd): fails when [fd] is not open. *)
Definition close (fd : Z) : M Z :=
  fun p k =>
    let p1 := tick p in
    let failed := (Ret (-1) (emit (EvClose fd (-1)) p1), k) in
    if faulty p k then failed
    else
      match p_fds p !! fd with
      | Some _ =>
          (Ret 0 (emit (EvClose fd 0) (set_fds (delete fd (p_fds p)) p1)), k)
      | None => failed
      end.

(** pipe(pfd): on success the result carries pfd[0] (the read end) and
    pfd[1] (the write end). *)
Definition pipe : M (Z * (Z * Z)) :=
  fun p k =>
    let p1 := tick p in
    if faulty p k
    then (Ret (-1, (0, 0)) (emit (EvPipe (-1) 0 0) p1), k)
    else
      let id := k_next_pipe k in
      let r := alloc_fd (p_fds p) in
      let fds1 := <[r := OPipeRead id]> (p_fds p) in
      let w := alloc_fd fds1 in
      let fds2 := <[w := OPipeWrite id]> fds1 in
      (Ret (0, (r, w)) (emit (EvPipe 0 r w) (set_fds fds2 p1)), bump_pipe k).

(** The process fork creates: a copy of the caller with its own
    identifier, clock and trace. *)
Definition child_of (q : positive) (p : proc) : proc :=
  Proc q (p_fds p) (p_cwd p) (p_umask p) 0 [].

(** How the kernel records a child whose code came to [r]. *)
Definition child_info (parent : positive) (r : result Z) : pinfo :=
  match r with
  | Ret v cp' => PInfo parent (Returned v) cp' false
  | Halt o cp' => PInfo parent o cp' false
  end.

(** fork(): [child] is the code the new process runs, that is the branch
    of the caller under [pid == 0]; the new process starts as a copy of
    the caller.  The caller gets the new process identifier, which is
    positive, or -1.  Should [child] come to its end without exiting or
    replacing its image, the child is recorded as [Returned]. *)
Definition fork (child : M Z) : M Z :=
  fun p k =>
    let p1 := tick p in
    if faulty p k then (Ret (-1) (emit (EvFork (-1)) p1), k)
    else
      let q := k_next_pid k in
      let '(r, k2) := child (child_of q p) (bump_pid k) in
      (Ret (Z.pos q) (emit (EvFork (Z.pos q)) p1),
       set_procs (<[q := child_info (p_pid p) r]> (k_procs k2)) k2).

Definition reap (i : pinfo) : pinfo :=
  PInfo (pi_parent i) (pi_end i) (pi_final i) true.

Definition waitable (me : positive) (qi : positive * pinfo) : bool :=
  bool_decide (pi_parent qi.2 = me) && negb (pi_reaped qi.2).

(** wait(&status): waits for some child of the caller that has not been
    waited for yet, the first in the order of the process table; fails
    when there is none. *)
Definition wait : M Z :=
  fun p k =>
    let p1 := tick p in
    let failed := (Ret (-1) (emit (EvWait (-1)) p1), k) in
    if faulty p k then failed
    else
      match List.find (waitable (p_pid p)) (map_to_list (k_procs k)) with
      | Some (q, i) =>
          (Ret (Z.pos q) (emit (EvWait (Z.pos q)) p1),
           set_procs (<[q := reap i]> (k_procs k)) k)
      | None => failed
      end.

(** waitpid(pid, &status, 0): waits for the child [pid] of the caller;
    fails when [pid] is not a child of the caller that is still to be
    waited for. *)
Definition waitpid (pid : Z) : M Z :=
  fun p k =>
    let p1 := tick p in
    let failed := (Ret (-1) (emit (EvWaitpid pid (-1)) p1), k) in
    if faulty p k then failed
    else
      match pid with
      | Z.pos q =>
          match k_procs k !! q with
          | Some i =>
              if waitable (p_pid p) (q, i)
              then (Ret pid (emit (EvWaitpid pid pid) p1),
                    set_procs (<[q := reap i]> (k_procs k)) k)
              else failed
          | None => failed
          end
      | _ => failed
      end.

(** getcwd(buf, size): the current directory with its terminating null
    byte has to fit in [size] bytes. *)
Definition getcwd (size : Z) : M (option string) :=
  fun p k =>
    let r :=
      if Z.of_nat (String.length (p_cwd p)) + 1 <=? size
      then Some (p_cwd p) else None in
    (Ret r (emit (EvGetcwd size r) p), k).

(** The directory a path names for a process: a path that does not
    start with a slash is resolved against the current directory. *)
Definition chdir_target (p : proc) (path : string) : string :=
  if is_relative path then p_cwd p +:+ "/" +:+ path else path.

(** chdir(path): fails when the directory is not one the process may
    change to. *)
Definition chdir (path : string) : M Z :=
  fun p k =>
    let target := chdir_target p path in
    if bool_decide (target ∈ k_dirs k)
    then (Ret 0 (emit (EvChdir path 0) (set_cwd target p)), k)
    else (Ret (-1) (emit (EvChdir path (-1)) p), k).

(** execvp(file, argv): replaces the process image when [file] is found,
    and returns -1 otherwise. *)
Definition execvp (path : option string) (argv : list string) : M Z :=
  fun p k =>
    let p1 := tick p in
    let failed := (Ret (-1) (emit (EvExecvp path argv false) p1), k) in
    if faulty p k then failed
    else
      match path with
      | Some f =>
          if bool_decide (f ∈ k_progs k)
          then (Halt (Execed f argv) (emit (EvExecvp path argv true) p1), k)
          else failed
      | None => failed
      end.

(** ** Bounded string concatenation into a local buffer *)

Fixpoint string_take (n : nat) (s : string) : string :=
  match n, s with
  | S n', String c s' => String c (string_take n' s')
  | _, _ => EmptyString
  end.

(** strncat(dest, src, n) for a destination buffer of [cap] bytes holding
    the string [dest]: at most [n] bytes of [src] and a null byte are
    written after [dest].  None when a byte would be written outside
    the buffer. *)
Definition strncat (cap : Z) (dest src : string) (n : Z) : option string :=
  let r := dest +:+ string_take (Z.to_nat n) src in
  if Z.of_nat (String.length r) + 1 <=? cap then Some r else None.

(** A write outside a local buffer: the behaviour of the process is
    undefined from there on. *)
Definition undefined {A : Type} : M A :=
  fun p k => (Halt Undefined p, k).

(** strcmp(a, b): zero exactly when the two strings are equal. *)
Definition strcmp (a b : string) : Z :=
  match String.compare a b with
  | Eq => 0
  | Lt => -1
  | Gt => 1
  end.

(** strlen, as a size_t. *)
Definition strlen (s : string) : Z := Z.of_nat (String.length s).

(** ** The functions of shell.c *)

(** execute_cd, lines 88-130.  [dir] is the local buffer of MAX_DIRNAME
    bytes; the third argument of the second strncat is computed in
    size_t and wraps around. *)
Definition execute_cd (words : list string) : M Z :=
  match words !! 0%nat with
  | None => ret EXIT_FAILURE
  | Some w0 =>
      match words !! 1%nat with
      | None => ret EXIT_FAILURE
      | Some w1 =>
          if negb (strcmp w0 "cd" =? 0) then ret EXIT_FAILURE
          else if negb (is_relative w1) then
            r <- chdir w1 ;;
            if r =? -1 then ret EXIT_FAILURE else ret EXIT_SUCCESS
          else
            got <- getcwd (MAX_DIRNAME - 2) ;;
            match got with
            | None => ret EXIT_FAILURE
            | Some dir =>
                match strncat MAX_DIRNAME dir "/" 1 with
                | None => undefined
                | Some dir =>
                    match strncat MAX_DIRNAME dir w1
                            ((MAX_DIRNAME - strlen dir - 1) mod SIZE_MAX1) with
                    | None => undefined
                    | Some dir =>
                        r <- chdir dir ;;
                        if r =? -1 then ret EXIT_FAILURE
                        else ret EXIT_SUCCESS
                    end
                end
            end
      end
  end.

(** execute_command, lines 141-161 *)
Definition execute_command (tokens : list string) : M Z :=
  r <- execvp (tokens !! 0%nat) tokens ;;
  if r =? -1 then (perror (tokens !! 0%nat) ;; exit 1)
  else ret EXIT_FAILURE.

(** execute_nonbuiltin, lines 167-261 *)
Definition execute_nonbuiltin (s : simple_command) : M Z :=
  match s_in s with
  | Some path =>
      fd <- open (s_in s) O_RDONLY None ;;
      if fd =? -1 then (perror (s_in s) ;; exit 1)
      else
        r <- dup2 fd STDIN_FILENO ;;
        if r =? -1 then (perror (Some "dup2") ;; exit 1)
        else
          r <- close fd ;;
          if r =? -1 then (perror (Some "close") ;; exit 1)
          else ret tt
  | None => ret tt
  end ;;
  match s_out s with
  | Some path =>
      fd <- open (s_out s) (Z.lor (Z.lor O_CREAT O_RDWR) O_TRUNC)
              (Some mode_0664) ;;
      if fd =? -1 then (perror (s_out s) ;; exit 1)
      else
        r <- dup2 fd STDOUT_FILENO ;;
        if r =? -1 then (perror (Some "dup2") ;; exit 1)
        else
          r <- close fd ;;
          if r =? -1 then (perror (Some "close") ;; exit 1)
          else ret tt
  | None => ret tt
  end ;;
  match s_err s with
  | Some path =>
      fd <- open (s_in s) (Z.lor (Z.lor O_CREAT O_RDWR) O_TRUNC)
              (Some mode_0664) ;;
      if fd =? -1 then (perror (s_err s) ;; exit 1)
      else
        r <- dup2 fd STDERR_FILENO ;;
        if r =? -1 then (perror (Some "dup2") ;; exit 1)
        else
          r <- close fd ;;
          if r =? -1 then (perror (Some "close") ;; exit 1)
          else ret tt
  | None => ret tt
  end ;;
  execute_command (tokens s).

(** execute_simple_command, lines 267-320.  The branch under [pid == 0]
    calls execute_nonbuiltin and then falls through to [return 0]. *)
Definition execute_simple_command (cmd : simple_command) : M Z :=
  match builtin cmd with
  | BUILTIN_EXIT => ret (-1)
  | BUILTIN_CD =>
      r <- execute_cd (tokens cmd) ;;
      (if r =? EXIT_FAILURE then
         match tokens cmd !! 1%nat with
         | None => fprintf_stderr ("Path expected after cd" +:+ newline)
         | Some w1 => perror (Some w1)
         end
       else ret tt) ;;
      ret 0
  | BUILTIN_NONE =>
      pid <- fork (execute_nonbuiltin cmd ;; ret 0) ;;
      (if pid =? -1 then perror (Some "fork")
       else
         r <- wait ;;
         if r =? -1 then perror (Some "wait") else ret tt) ;;
      ret 0
  end.

(** execute_complex_command, lines 327-474.  For a leaf the call of
    execute_nonbuiltin does not return (see
    [execute_nonbuiltin_halts]). *)
Fixpoint execute_complex_command (c : command) : M Z :=
  match c with
  | Leaf scmd => execute_nonbuiltin scmd ;; ret 0
  | Node oper cmd1 cmd2 =>
      if strcmp oper "|" =? 0 then
        res <- pipe ;;
        let '(r, (pfd0, pfd1)) := res in
        if r =? -1 then (perror (Some "pipe") ;; exit 1)
        else
          pid1 <- fork
            (r <- close pfd0 ;;
             if r =? -1 then (perror (Some "close") ;; exit 1)
             else
               r <- dup2 pfd1 STDOUT_FILENO ;;
               if r =? -1 then (perror (Some "dup2") ;; exit 1)
               else
                 r <- close pfd1 ;;
                 if r =? -1 then (perror (Some "close") ;; exit 1)
                 else (execute_complex_command cmd1 ;; exit 0)) ;;
          if pid1 =? -1 then (perror (Some "fork") ;; exit 1)
          else
            pid2 <- fork
              (r <- close pfd1 ;;
               if r =? -1 then (perror (Some "close") ;; exit 1)
               else
                 r <- dup2 pfd0 STDIN_FILENO ;;
                 if r =? -1 then (perror (Some "dup2") ;; exit 1)
                 else
                   r <- close pfd0 ;;
                   if r =? -1 then (perror (Some "close") ;; exit 1)
                   else (execute_complex_command cmd2 ;; exit 0)) ;;
            if pid2 =? -1 then (perror (Some "fork") ;; exit 1)
            else
              r <- close pfd0 ;;
              if r =? -1 then (perror (Some "close") ;; exit 1)
              else
                r <- close pfd1 ;;
                if r =? -1 then (perror (Some "close") ;; exit 1)
                else
                  r <- waitpid pid1 ;;
                  if r =? -1 then (perror (Some "waitpid") ;; exit 1)
                  else
                    r <- waitpid pid2 ;;
                    if r =? -1 then (perror (Some "waitpid") ;; exit 1)
                    else ret 0
      else ret 0
  end.

(** The signal [main] derives from the exit code (lines 63-75): the
    read loop is left exactly on -1. *)
Inductive signal : Type :=
| CONTINUE
| STOP.

Definition signal_of (exitcode : Z) : signal :=
  if exitcode =? -1 then STOP else CONTINUE.

(** The dispatch in the body of the loop of [main], lines 63-75. *)
Definition execute (cmd : command) : M Z :=
  match cmd with
  | Leaf scmd => execute_simple_command scmd
  | Node _ _ _ => execute_complex_command cmd
  end.

Definition dispatch (cmd : command) : M signal :=
  exitcode <- execute cmd ;; ret (signal_of exitcode).

(** ** The read loop of [main], lines 31-80 *)

(** The null byte that ends a C string, and the newline character. *)
Definition NUL : ascii := ascii_of_nat 0.
Definition LF : ascii := ascii_of_nat 10.

(** The C string an array of bytes holds: the bytes before the first
    null byte. *)
Fixpoint c_string (bytes : string) : string :=
  match bytes with
  | String c rest =>
      if Ascii.eqb c NUL then EmptyString else String c (c_string rest)
  | EmptyString => EmptyString
  end.

(** The bytes fgets takes from a stream that will deliver [input]: at
    most [n] of them, up to and including the first newline.  The result
    is the bytes taken and what is left of the stream. *)
Fixpoint read_bytes (n : nat) (input : string) : string * string :=
  match n, input with
  | S n', String c rest =>
      if Ascii.eqb c LF then (String c EmptyString, rest)
      else
        let '(l, r) := read_bytes n' rest in
        (String c l, r)
  | _, _ => (EmptyString, input)
  end.

(** fgets(buf, n, stream): at most [n - 1] bytes are stored, followed by a
    null byte.  None is the NULL returned at the end of the input, when
    nothing is stored and the array is left as it was.  Read errors are
    not modelled. *)
Definition fgets (n : Z) (input : string) : option (string * string) :=
  match input with
  | EmptyString => None
  | String _ _ => Some (read_bytes (Z.to_nat (n - 1)) input)
  end.

(** What [main] carries from one iteration of its loop to the next: the
    string held by the array [command_line] (None before anything was
    stored in it), the bytes standard input is still to deliver to the
    shell, and the texts handed to printf so far.  The array [cwd] is
    written anew in every iteration, and [tokens] is filled by parse_line
    before it is read. *)
Record main_state : Type := MainState {
  command_line : option string;
  standard_input : string;
  printed : list string
}.

(** How [main] came to its end, if it did: the [return] of line 79, the
    end of the process inside a command, or, for the model, a loop that is
    still running after the given number of iterations. *)
Inductive run : Type :=
| Finished (status : Z) (ms : main_state) (p : proc) (k : kernel)
| Ended (o : outcome) (p : proc) (k : kernel)
| Running (ms : main_state) (p : proc) (k : kernel).

Section Main.

(** parse_line and construct_command belong to the parser, which is not
    part of the sources: they are parameters here.  [parse_line l] gives
    the tokens of the line [l] and the string it leaves in the array it
    was given, which a tokenizer may cut; construct_command gives the
    command tree. *)
Variable parse_line : string -> list string * string.
Variable construct_command : list string -> command.

(** The body of the loop, lines 40-76.  The results of getcwd and fgets
    are not tested.  When getcwd fails the contents of [cwd] are not
    defined, and printf reads them; when fgets stores nothing,
    [command_line] is as the last iteration left it; the index
    [strlen(command_line) - 1] is computed in size_t and is outside the
    array for an empty string.  The result tells whether the loop goes on
    (the [continue] of line 56 and the end of the body) or is left by one
    of the two [break]s; release_command only frees memory. *)
Definition body (ms : main_state) : M (signal * main_state) :=
  got <- getcwd (MAX_DIRNAME - 1) ;;
  match got with
  | None => undefined
  | Some cwd =>
      let out := printed ms ++ [cwd +:+ "> "] in
      let '(line, rest) :=
        match fgets MAX_COMMAND (standard_input ms) with
        | Some (bytes, rest) => (Some (c_string bytes), rest)
        | None => (command_line ms, standard_input ms)
        end in
      match line with
      | None => undefined
      | Some l =>
          let i := (strlen l - 1) mod SIZE_MAX1 in
          if MAX_COMMAND <=? i then undefined
          else
            let l :=
              match String.get (Z.to_nat i) l with
              | Some c =>
                  if Ascii.eqb c LF then string_take (Z.to_nat i) l else l
              | None => l
              end in
            let '(tokens, kept) := parse_line l in
            let ms' := MainState (Some kept) rest out in
            match tokens with
            | [] => ret (CONTINUE, ms')
            | _ :: _ =>
                s <- dispatch (construct_command tokens) ;;
                ret (s, ms')
            end
      end
  end.

(** The loop [while (1)] of lines 38-77, run for at most [fuel]
    iterations, and the [return 0] of line 79. *)
Fixpoint main_loop (fuel : nat) (ms : main_state) (p : proc) (k : kernel)
  : run :=
  match fuel with
  | O => Running ms p k
  | S fuel' =>
      match body ms p k with
      | (Ret (STOP, ms') p', k') => Finished 0 ms' p' k'
      | (Ret (CONTINUE, ms') p', k') => main_loop fuel' ms' p' k'
      | (Halt o p', k') => Ended o p' k'
      end
  end.

(** [main], started on a standard input that will deliver [input]. *)
Definition main (fuel : nat) (input : string) (p : proc) (k : kernel) : run :=
  main_loop fuel (MainState None input []) p k.

End Main.

(** ** Blocks that shell.c writes out more than once *)

(** The last lines of both branches of execute_cd: chdir and the test of
    its result. *)
Definition change_to (path : string) : M Z :=
  r <- chdir path ;;
  if r =? -1 then ret EXIT_FAILURE else ret EXIT_SUCCESS.

(** One redirection.  execute_nonbuiltin has the same statements three
    times: open, test, dup2, test, close, test.  [redirect] is that
    block, with the path opened, the flags and mode, the stream
    redirected and the name given to perror on a failed open;
    [redirect_when] is the block under its [if] (see
    [execute_nonbuiltin_blocks]). *)
Definition redirect (path : option string) (flags : Z) (mode : option Z)
    (target : Z) (name : option string) : M unit :=
  fd <- open path flags mode ;;
  if fd =? -1 then (perror name ;; exit 1)
  else
    r <- dup2 fd target ;;
    if r =? -1 then (perror (Some "dup2") ;; exit 1)
    else
      r <- close fd ;;
      if r =? -1 then (perror (Some "close") ;; exit 1)
      else ret tt.

Definition redirect_when (guard : option string) (path : option string)
    (flags : Z) (mode : option Z) (target : Z) (name : option string)
  : M unit :=
  match guard with
  | Some _ => redirect path flags mode target name
  | None => ret tt
  end.

(** One end of a pipe in a child.  The two branches under [pid1 == 0]
    and [pid2 == 0] of execute_complex_command are the same statements:
    close the end of the pipe that is not used, dup2 the other end on a
    standard stream, close it, run the command and exit with status 0
    (see [execute_complex_command_node]). *)
Definition piped_child (unused used target : Z) (m : M Z) : M Z :=
  r <- close unused ;;
  if r =? -1 then (perror (Some "close") ;; exit 1)
  else
    r <- dup2 used target ;;
    if r =? -1 then (perror (Some "dup2") ;; exit 1)
    else
      r <- close used ;;
      if r =? -1 then (perror (Some "close") ;; exit 1)
      else (m ;; exit 0).

(** ** Notions used to state the properties *)

(** *** Events, processes forked and pipes created *)

(** The events a process added to its trace between two of its states. *)
Definition new_events (p p' : proc) : list event :=
  drop (length (p_trace p)) (p_trace p').

(** Processes forked and pipes created between two kernel states. *)
Definition spawned (k k' : kernel) : nat :=
  Pos.to_nat (k_next_pid k') - Pos.to_nat (k_next_pid k).

Definition pipes_made (k k' : kernel) : nat :=
  (k_next_pipe k' - k_next_pipe k)%nat.

(** No system call fails for lack of resources. *)
Definition no_faults (k : kernel) : Prop :=
  forall pid n, k_fault k pid n = false.

(** How a computation ended the process, if it did. *)
Definition ending {A : Type} (r : result A) : option outcome :=
  match r with
  | Ret _ _ => None
  | Halt o _ => Some o
  end.

(** *** Command trees *)

Fixpoint leaves (c : command) : nat :=
  match c with
  | Leaf _ => 1%nat
  | Node _ c1 c2 => (leaves c1 + leaves c2)%nat
  end.

Fixpoint nodes (c : command) : nat :=
  match c with
  | Leaf _ => 0%nat
  | Node _ c1 c2 => S (nodes c1 + nodes c2)
  end.

(** Every operator of the tree is the pipe operator. *)
Fixpoint all_pipes (c : command) : bool :=
  match c with
  | Leaf _ => true
  | Node oper c1 c2 =>
      (strcmp oper "|" =? 0) && all_pipes c1 && all_pipes c2
  end.

(** Modelled from the spec: the tree construct_command of parser.h builds
    for the pipeline [s | s1 | ... | sn], a chain leaning to the right. *)
Fixpoint pipeline (s : simple_command) (rest : list simple_command) : command :=
  match rest with
  | [] => Leaf s
  | s' :: rest' => Node "|" (Leaf s) (pipeline s' rest')
  end.



(** The top-level command is the builtin exit. *)
Definition top_level_exit (c : command) : Prop :=
  match c with
  | Leaf s => builtin s = BUILTIN_EXIT
  | Node _ _ _ => False
  end.

(** *** What a computation can return and how it can end

    [ensures m R H]: whenever [m] returns, the value satisfies [R];
    whenever it ends the process, the outcome satisfies [H]. *)

Definition ensures {A : Type} (m : M A) (R : A -> Prop) (H : outcome -> Prop)
  : Prop :=
  forall p k,
    match (m p k).1 with
    | Ret a _ => R a
    | Halt o _ => H o
    end.

Definition never (o : outcome) : Prop := False.
Definition anything {A : Type} (a : A) : Prop := True.

Definition leaf_outcome (toks : list string) (o : outcome) : Prop :=
  o = Exited 1 \/ exists f, toks !! 0%nat = Some f /\ o = Execed f toks.

Definition stage_outcome (o : outcome) : Prop :=
  o = Exited 1 \/ exists f argv, o = Execed f argv.

(** *** The builtin cd *)

(** The path execute_cd hands to chdir for the argument [w] when the
    current directory is [d]: for a relative argument, the first
    MAX_DIRNAME - 1 = 99 bytes of [d], a slash and [w]. *)
Definition cd_target (d w : string) : string :=
  if is_relative w then string_take 99 (d +:+ "/" +:+ w) else w.

(** Two cd commands are equivalent from a state when they return the same
    code and leave the process with the same current directory and the
    same descriptors, and the kernel in the same state. *)
Definition cd_equivalent (p : proc) (k : kernel) (words1 words2 : list string)
  : Prop :=
  match execute_cd words1 p k, execute_cd words2 p k with
  | (Ret v1 p1, k1), (Ret v2 p2, k2) =>
      v1 = v2 /\ p_cwd p1 = p_cwd p2 /\ p_fds p1 = p_fds p2 /\ k1 = k2
  | _, _ => False
  end.

(** The events execute_cd can add to the trace. *)
Definition cd_event (e : event) : bool :=
  match e with
  | EvGetcwd _ _ | EvChdir _ _ => true
  | _ => false
  end.

(** The diagnostic execute_simple_command prints for a cd that failed
    (lines 295-298). *)
Definition cd_diagnostic (toks : list string) : event :=
  match toks !! 1%nat with
  | None => EvStderr ("Path expected after cd" +:+ newline)
  | Some w1 => EvPerror (Some w1)
  end.

(** *** Redirections and pipes *)

Definition rw_create_trunc : Z := Z.lor (Z.lor O_CREAT O_RDWR) O_TRUNC.

(** The three calls of a redirection that went through. *)
Definition triplet (path : option string) (flags : Z) (mode : option Z)
    (target fd : Z) : list event :=
  [EvOpen path flags mode fd; EvDup2 fd target target; EvClose fd 0].

Definition triplet_when (guard : option string) (path : option string)
    (flags : Z) (mode : option Z) (target fd : Z) : list event :=
  match guard with
  | Some _ => triplet path flags mode target fd
  | None => []
  end.

(** The descriptors after a redirection that went through: the file is
    opened on the lowest free descriptor, [target] is made to refer to it,
    and the new descriptor is closed. *)
Definition rewired (f : string) (flags target : Z) (fds : gmap Z ofd)
  : gmap Z ofd :=
  delete (alloc_fd fds)
    (<[target := OFile f flags]> (<[alloc_fd fds := OFile f flags]> fds)).

(** The process after a redirection that went through. *)
Definition redirected (path : option string) (f : string) (flags : Z)
    (mode : option Z) (target : Z) (p : proc) : proc :=
  Proc (p_pid p) (rewired f flags target (p_fds p)) (p_cwd p) (p_umask p)
    (3 + p_clock p)
    (p_trace p ++ triplet path flags mode target (alloc_fd (p_fds p))).

(** The state after the redirection block guarded by [guard] went
    through, from the process [p] and the files [fs]. *)
Definition went_through (guard path : option string) (flags : Z)
    (mode : option Z) (target : Z) (p : proc) (fs : gmap string file)
    (p' : proc) (fs' : gmap string file) : Prop :=
  match guard with
  | None => p' = p /\ fs' = fs
  | Some _ =>
      exists f,
        path = Some f
        /\ files_after_open f flags mode (p_umask p) fs = Some fs'
        /\ p' = redirected path f flags mode target p
  end.

(** The events of a redirection block that ends the process: the open
    fails, or the dup2, or the close, on the descriptor [fd]. *)
Definition failed_redirection (path : option string) (flags : Z)
    (mode : option Z) (target : Z) (name : option string) (fd : Z)
  : list (list event) :=
  [[EvOpen path flags mode (-1); EvPerror name; EvExit 1];
   [EvOpen path flags mode fd; EvDup2 fd target (-1);
    EvPerror (Some "dup2"); EvExit 1];
   [EvOpen path flags mode fd; EvDup2 fd target target; EvClose fd (-1);
    EvPerror (Some "close"); EvExit 1]].

(** The events of the three redirection blocks of execute_nonbuiltin when
    they all go through, on the descriptors [fdi], [fdo] and [fde].  The
    third block opens the path held in [in] (line 240). *)
Definition redirections_of (s : simple_command) (fdi fdo fde : Z)
  : list event :=
  triplet_when (s_in s) (s_in s) O_RDONLY None STDIN_FILENO fdi
  ++ triplet_when (s_out s) (s_out s) rw_create_trunc (Some mode_0664)
       STDOUT_FILENO fdo
  ++ triplet_when (s_err s) (s_in s) rw_create_trunc (Some mode_0664)
       STDERR_FILENO fde.

(** The last events of a process that got as far as execvp. *)
Definition exec_events (toks : list string) (ok : bool) : list event :=
  EvExecvp (toks !! 0%nat) toks ok
  :: (if ok then [] else [EvPerror (toks !! 0%nat); EvExit 1]).

Definition is_execvp (e : event) : bool :=
  match e with
  | EvExecvp _ _ _ => true
  | _ => false
  end.

(** The calls that change what a descriptor of the calling process
    refers to. *)
Definition rewires (e : event) : bool :=
  match e with
  | EvOpen _ _ _ _ | EvDup2 _ _ _ => true
  | _ => false
  end.

(** The calls that act on the descriptor table of the calling process. *)
Definition touches_descriptors (e : event) : bool :=
  match e with
  | EvOpen _ _ _ _ | EvDup2 _ _ _ | EvClose _ _ | EvPipe _ _ _ => true
  | _ => false
  end.

(** The events of the process that sets up one pipe and waits for the
    two processes at its ends. *)
Definition orchestration (r w pid1 pid2 : Z) : list event :=
  [EvPipe 0 r w; EvFork pid1; EvFork pid2; EvClose r 0; EvClose w 0;
   EvWaitpid pid1 pid1; EvWaitpid pid2 pid2].

(** *** Failures of the set-up calls *)

(** A failed call among those the set-up of redirections and pipes makes:
    open, dup2, close, pipe and fork. *)
Definition failed_setup (e : event) : bool :=
  match e with
  | EvOpen _ _ _ r | EvDup2 _ _ r | EvClose _ r | EvPipe r _ _ | EvFork r =>
      r =? -1
  | _ => false
  end.

Definition clean (evs : list event) : bool :=
  forallb (fun e => negb (failed_setup e)) evs.

(** The events end with a failed set-up call that is reported through
    perror and followed at once by exit(1); nothing failed before. *)
Definition fatal_end (evs : list event) : Prop :=
  exists pre e msg,
    evs = pre ++ [e; EvPerror msg; EvExit 1]
    /\ clean pre = true /\ failed_setup e = true.

(** The discipline of fatal failures on the events of a process: no
    set-up call failed, or the events end with the failed call, its
    report and exit(1), and the process ended with status 1. *)
Definition failure_is_fatal (evs : list event) (ended : option outcome)
  : Prop :=
  clean evs = true \/ (fatal_end evs /\ ended = Some (Exited 1)).

(** The record of a child that followed the discipline. *)
Definition died_orderly (i : pinfo) : Prop :=
  failure_is_fatal (p_trace (pi_final i)) (Some (pi_end i)).

(** The record of a process that was already there in [k], with the same
    ending. *)
Definition known_in (k : kernel) (q : positive) (i : pinfo) : Prop :=
  exists i0,
    k_procs k !! q = Some i0
    /\ pi_final i0 = pi_final i /\ pi_end i0 = pi_end i.

(** The discipline, stated on computations.  [E] is what is asked of the
    records of the kernel.  [kernel_ok E k]: every record of [k] is as
    asked. *)
Definition kernel_ok (E : positive -> pinfo -> Prop) (k : kernel) : Prop :=
  forall q i, k_procs k !! q = Some i -> E q i.

(** [orderly E m]: run in a process whose events since some point are
    [cur], none of them a failure, [m] leaves events since that point
    that follow the discipline, and the records of the kernel stay as
    asked. *)
Definition orderly (E : positive -> pinfo -> Prop) {A : Type} (m : M A)
  : Prop :=
  forall p k old cur,
    kernel_ok E k -> p_trace p = old ++ cur -> clean cur = true ->
    exists cur',
      p_trace (final_proc (m p k).1) = old ++ cur'
      /\ failure_is_fatal cur' (ending (m p k).1)
      /\ kernel_ok E (m p k).2.

(** A call that adds one event and returns; the event is a failure of
    the set-up exactly when [bad] holds of the result. *)
Definition one_event (E : positive -> pinfo -> Prop) {A : Type} (m : M A)
    (bad : A -> bool) : Prop :=
  forall p k,
    kernel_ok E k ->
    exists a p1 k1 e,
      m p k = (Ret a p1, k1)
      /\ p_trace p1 = p_trace p ++ [e]
      /\ failed_setup e = bad a
      /\ kernel_ok E k1.

(** *** Runs in which no call fails for lack of resources *)

(** A process that ran a leaf command: its image was replaced by execvp,
    or it exited with status 1 on the way there. *)
Definition ran_a_leaf (i : pinfo) : bool :=
  match pi_end i with
  | Execed _ _ => true
  | Exited 1 => true
  | _ => false
  end.

(** A process that orchestrated a pipe and ended with the exit(0) of
    line 407 or 441. *)
Definition orchestrated (i : pinfo) : bool :=
  match pi_end i with
  | Exited 0 => true
  | _ => false
  end.

(** The number of records satisfying [P] among the [n] process
    identifiers from [start] on. *)
Fixpoint count_procs (P : pinfo -> bool) (procs : gmap positive pinfo)
    (start : positive) (n : nat) : nat :=
  match n with
  | O => O
  | S n' =>
      ((if from_option P false (procs !! start) then 1 else 0)
       + count_procs P procs (Pos.succ start) n')%nat
  end.

(** The processes that run a leaf among those forked by
    execute_complex_command on [c]: a leaf forks nothing. *)
Definition leaf_processes (c : command) : nat :=
  match c with
  | Leaf _ => O
  | Node _ _ _ => leaves c
  end.

(** [settled forks pipes leafs k k']: from [k] to [k'], [forks] processes
    were forked and [pipes] pipes created, the records of the processes
    that existed before are untouched, every process forked since has a
    record, has been waited for, and either ran a leaf or orchestrated a
    pipe, and [leafs] of them ran a leaf. *)
Definition settled (forks pipes leafs : nat) (k k' : kernel) : Prop :=
  no_faults k'
  /\ Pos.to_nat (k_next_pid k') = (Pos.to_nat (k_next_pid k) + forks)%nat
  /\ k_next_pipe k' = (k_next_pipe k + pipes)%nat
  /\ (forall q, (q < k_next_pid k)%positive ->
        k_procs k' !! q = k_procs k !! q)
  /\ (forall q, (k_next_pid k <= q)%positive ->
        (q < k_next_pid k')%positive ->
        exists i,
          k_procs k' !! q = Some i /\ pi_reaped i = true
          /\ ran_a_leaf i = negb (orchestrated i))
  /\ count_procs ran_a_leaf (k_procs k') (k_next_pid k) forks = leafs.

(** What a run of execute_complex_command on [c] comes to: a leaf ends
    the process, a node returns 0 after the calls of [orchestration]. *)
Definition run_shape (c : command) (p : proc) (r : result Z) : Prop :=
  match c with
  | Leaf s => exists o p', r = Halt o p' /\ leaf_outcome (tokens s) o
  | Node _ _ _ =>
      exists p' rd wr pid1 pid2,
        r = Ret 0 p'
        /\ new_events p p' = orchestration rd wr pid1 pid2
        /\ p_fds p' = p_fds p
  end.

Definition runs_settled (c : command) : Prop :=
  forall p k,
    no_faults k ->
    exists r k',
      execute_complex_command c p k = (r, k')
      /\ settled (2 * nodes c) (nodes c) (leaf_processes c) k k'
      /\ run_shape c p r.

(** *** The read loop *)

(** Lines 47-49: the newline at the end of the line is replaced by a null
    byte.  None when the byte looked at is outside the array. *)
Definition strip_newline (l : string) : option string :=
  let i := (strlen l - 1) mod SIZE_MAX1 in
  if MAX_COMMAND <=? i then None
  else
    Some match String.get (Z.to_nat i) l with
         | Some c => if Ascii.eqb c LF then string_take (Z.to_nat i) l else l
         | None => l
         end.

(** The line an iteration of the loop hands to parse_line and the input
    it leaves to the next iteration (lines 45-49).  None when the
    iteration reads [command_line] before anything was stored in it, or
    reads outside it. *)
Definition next_line (ms : main_state) : option (string * string) :=
  let '(line, rest) :=
    match fgets MAX_COMMAND (standard_input ms) with
    | Some (bytes, rest) => (Some (c_string bytes), rest)
    | None => (command_line ms, standard_input ms)
    end in
  match line with
  | None => None
  | Some l =>
      match strip_newline l with
      | None => None
      | Some l' => Some (l', rest)
      end
  end.

(** The character [c] occurs in [s]. *)
Fixpoint occurs (c : ascii) (s : string) : bool :=
  match s with
  | String c' s' => Ascii.eqb c' c || occurs c s'
  | EmptyString => false
  end.

(** The loop did not come to the [return] of [main]. *)
Definition goes_on (r : run) : Prop :=
  match r with
  | Finished _ _ _ _ => False
  | Ended _ _ _ | Running _ _ _ => True
  end.

(** What an iteration does with the line [l] once it has read it (lines
    51-76), with [rest] the input left and [out] the texts printed. *)
Definition run_line (parse_line : string -> list string * string)
    (construct_command : list string -> command)
    (l rest : string) (out : list string) : M (signal * main_state) :=
  let '(tokens, kept) := parse_line l in
  let ms' := MainState (Some kept) rest out in
  match tokens with
  | [] => ret (CONTINUE, ms')
  | _ :: _ =>
      s <- dispatch (construct_command tokens) ;;
      ret (s, ms')
  end.

(** A newline occurs in [s] at most as its last character. *)
Definition newline_last (s : string) : Prop :=
  occurs LF (string_take (String.length s - 1) s) = false.

(** *** The processes of a pipeline and their descriptors *)

(** A leaf command with the process that runs it and the descriptor
    table this process has when it calls execute_nonbuiltin. *)
Record stage : Type := Stage {
  st_pid : positive;
  st_command : simple_command;
  st_fds : gmap Z ofd
}.

(** The leaves of a tree of pipes from left to right.  The process
    [self] runs execute_complex_command on [c] with the descriptor table
    [fds]; [next] is the identifier the next fork gives and [id] the
    number of the next pipe.  For a node, the left child is forked first
    and runs its subtree to the end, with two processes for each of its
    nodes, before the right child is forked. *)
Fixpoint plan (c : command) (self : positive) (fds : gmap Z ofd)
    (next : positive) (id : nat) : list stage :=
  match c with
  | Leaf s => [Stage self s fds]
  | Node _ c1 c2 =>
      let next2 := (next + Pos.of_succ_nat (2 * nodes c1))%positive in
      plan c1 next (<[STDOUT_FILENO := OPipeWrite id]> fds)
        (Pos.succ next) (S id)
      ++ plan c2 next2 (<[STDIN_FILENO := OPipeRead id]> fds)
           (Pos.succ next2) (S id + nodes c1)
  end.

(** The kernel [k'] has the record of the process of [st], and this
    record is the end of a run of execute_nonbuiltin on the command of
    [st], by that process, from the descriptor table of [st] and the
    current directory [cwd]. *)
Definition started (cwd : string) (k' : kernel) (st : stage) : Prop :=
  exists i cp k0 k1,
    k_procs k' !! st_pid st = Some i
    /\ p_pid cp = st_pid st /\ p_fds cp = st_fds st /\ p_cwd cp = cwd
    /\ execute_nonbuiltin (st_command st) cp k0
       = (Halt (pi_end i) (pi_final i), k1).

(** The stages are chained by pipes: the first one reads from [i], the
    last one writes to [o], and the standard output of every other stage
    is the write end of the pipe of which the standard input of the next
    stage is the read end. *)
Fixpoint chained (i : option ofd) (l : list stage) (o : option ofd) : Prop :=
  match l with
  | [] => False
  | st :: rest =>
      st_fds st !! STDIN_FILENO = i
      /\ match rest with
         | [] => st_fds st !! STDOUT_FILENO = o
         | _ :: _ =>
             exists id,
               st_fds st !! STDOUT_FILENO = Some (OPipeWrite id)
               /\ chained (Some (OPipeRead id)) rest o
         end
  end.

(** The leaf commands of a tree from left to right. *)
Fixpoint commands (c : command) : list simple_command :=
  match c with
  | Leaf s => [s]
  | Node _ c1 c2 => commands c1 ++ commands c2
  end.

(** [stage_wired c]: when no call fails for lack of resources, the fork
    of the child that wires one end of a pipe and runs [c] leaves the
    records of the leaves of [c] as [plan] tells, and no record under an
    identifier that no fork has given yet. *)
Definition stage_wired (c : command) : Prop :=
  forall unused used target p k o,
    no_faults k ->
    is_Some (p_fds p !! unused) -> p_fds p !! used = Some o ->
    unused <> used -> 0 <= target ->
    let fds := delete used (<[target := o]> (delete unused (p_fds p))) in
    is_Some (fds !! STDIN_FILENO) -> is_Some (fds !! STDOUT_FILENO) ->
    let k' :=
      (fork (piped_child unused used target (execute_complex_command c))
         p k).2 in
    Forall (started (p_cwd p) k')
      (plan c (k_next_pid k) fds (Pos.succ (k_next_pid k)) (k_next_pipe k))
    /\ (forall q, (k_next_pid k' <= q)%positive ->
          k_procs k' !! q = k_procs k !! q).

(** *** Children that were waited for *)

(** Every process on record was forked before now and has been waited
    for by its parent. *)
Definition tidy_records (k : kernel) : Prop :=
  forall q i,
    k_procs k !! q = Some i ->
    (q < k_next_pid k)%positive /\ pi_reaped i = true.

(** *** What a computation changes in the kernel *)

(** [respects R m]: whatever [m] does, and however it ends, the kernel
    it leaves is related by [R] to the kernel it started from. *)
Definition respects (R : kernel -> kernel -> Prop) {A : Type} (m : M A)
  : Prop :=
  forall p k, R k (m p k).2.

(** What open does to the files for this path, these flags and this mode
    stays within [R]. *)
Definition opens_within (R : kernel -> kernel -> Prop)
    (path : option string) (flags : Z) (mode : option Z) : Prop :=
  forall f fs k umask,
    path = Some f ->
    files_after_open f flags mode umask (k_files k) = Some fs ->
    R k (set_files fs k).

(** The same for the three redirection blocks of execute_nonbuiltin on
    [s]; the third one opens the path held in [in] (line 240). *)
Definition redirects_within (R : kernel -> kernel -> Prop)
    (s : simple_command) : Prop :=
  (is_Some (s_in s) -> opens_within R (s_in s) O_RDONLY None)
  /\ (is_Some (s_out s) ->
      opens_within R (s_out s) rw_create_trunc (Some mode_0664))
  /\ (is_Some (s_err s) ->
      opens_within R (s_in s) rw_create_trunc (Some mode_0664)).

(** How the process of a child of the shell can end: with exit(0),
    with exit(1), or as another program. *)
Definition exit_or_exec (o : outcome) : Prop :=
  o = Exited 0 \/ o = Exited 1 \/ exists f argv, o = Execed f argv.

(** Every process on record ended in one of these ways. *)
Definition ended_well (k : kernel) : Prop :=
  forall q i, k_procs k !! q = Some i -> exit_or_exec (pi_end i).

(** The kernel [main] is left with, or has got to. *)
Definition kernel_of (r : run) : kernel :=
  match r with
  | Finished _ _ _ k | Ended _ _ k | Running _ _ k => k
  end.

(** *** The files a command opens *)

(** The calls of open that execute_nonbuiltin makes for [s], each with
    its path, flags and mode.  The third one is on the path held in [in]
    (line 240). *)
Definition redirection_opens (s : simple_command)
  : list (option string * Z * option Z) :=
  match s_in s with
  | Some _ => [(s_in s, O_RDONLY, None)]
  | None => []
  end
  ++ match s_out s with
     | Some _ => [(s_out s, rw_create_trunc, Some mode_0664)]
     | None => []
     end
  ++ match s_err s with
     | Some _ => [(s_in s, rw_create_trunc, Some mode_0664)]
     | None => []
     end.

(** Those of all the leaves of a command. *)
Definition opens_of (c : command) : list (option string * Z * option Z) :=
  concat (map redirection_opens (commands c)).

(** The event is no call of open, or one of those in [allowed]. *)
Definition opens_among (allowed : list (option string * Z * option Z))
    (e : event) : Prop :=
  match e with
  | EvOpen path flags mode _ => (path, flags, mode) ∈ allowed
  | _ => True
  end.

(** The event is no call of open, or one that neither creates a file nor
    empties one. *)
Definition opens_to_read (e : event) : Prop :=
  match e with
  | EvOpen _ flags _ _ => creates flags = false /\ truncates flags = false
  | _ => True
  end.

(** Every record of [k] was there in [k0] with the same events, or holds
    events of which [P] holds throughout. *)
Definition new_records (P : event -> Prop) (k0 k : kernel) : Prop :=
  forall q i,
    k_procs k !! q = Some i ->
    known_in k0 q i \/ Forall P (p_trace (pi_final i)).

(** [events_within P k0 m]: the events [m] adds to those of its process
    and the events of the processes it forks satisfy [P]. *)
Definition events_within (P : event -> Prop) (k0 : kernel) {A : Type}
    (m : M A) : Prop :=
  forall p k old cur,
    p_trace p = old ++ cur -> Forall P cur -> new_records P k0 k ->
    exists cur',
      p_trace (final_proc (m p k).1) = old ++ cur'
      /\ Forall P cur' /\ new_records P k0 (m p k).2.

(** ** A small machine to run examples on *)

Definition std_fds : gmap Z ofd :=
  <[0 := OTerminal]> (<[1 := OTerminal]> (<[2 := OTerminal]> ∅)).

Definition shell0 : proc := Proc 1 std_fds "/home" 18 0 [].

Definition kernel0 : kernel :=
  Kernel (fun _ _ => false)
    {[ "in.txt" := File 420 "hello" ]}
    {[ "/home"; "/home/src"; "/tmp" ]}
    {[ "ls"; "cat"; "wc"; "echo" ]}
    2 0 ∅.

Definition external (toks : list string) : simple_command :=
  SimpleCommand None None None toks BUILTIN_NONE.

Definition cd_command (toks : list string) : simple_command :=
  SimpleCommand None None None toks BUILTIN_CD.

(** [ls < in.txt 2> err.txt] *)
Definition ls_with_stderr : simple_command :=
  SimpleCommand (Some "in.txt") None (Some "err.txt") ["ls"] BUILTIN_NONE.

(** [echo hi > out.txt] *)
Definition echo_to_file : simple_command :=
  SimpleCommand None (Some "out.txt") None ["echo"; "hi"] BUILTIN_NONE.

(** [ls | cat | wc -l] *)
Definition three_stages : command :=
  pipeline (external ["ls"]) [external ["cat"]; external ["wc"; "-l"]].

Fixpoint string_repeat (c : ascii) (n : nat) : string :=
  match n with
  | O => EmptyString
  | S n' => String c (string_repeat c n')
  end.

(** A directory whose name has 97 bytes and one whose name has 98. *)
Definition dir97 : string := String "/" (string_repeat "a" 96).
Definition dir98 : string := String "/" (string_repeat "a" 97).

Definition shell_in (d : string) : proc := Proc 1 std_fds d 18 0 [].

Definition kernel_with_dirs (dirs : gset string) : kernel :=
  Kernel (fun _ _ => false) ∅ dirs ∅ 2 0 ∅.

(** A process in a directory with a 97-byte name, where the directory
    [b] exists and [bb] does not. *)
Definition kernel97 : kernel :=
  kernel_with_dirs {[ dir97; dir97 +:+ "/b" ]}.

Definition kernel98 : kernel := kernel_with_dirs {[ dir98 ]}.

(** A kernel in which the first fork of process 1 fails. *)
Definition kernel_out_of_processes : kernel :=
  Kernel (fun pid n => bool_decide (pid = 1%positive) && Nat.eqb n 0)
    ∅ {[ "/home" ]} {[ "ls" ]} 2 0 ∅.

(** [cat f | wc -l], [badcmd] and [exit] *)
Definition cat_wc : command :=
  pipeline (external ["cat"; "f"]) [external ["wc"; "-l"]].

Definition badcmd : simple_command := external ["badcmd"].

Definition exit_command : simple_command :=
  SimpleCommand None None None ["exit"] BUILTIN_EXIT.

(** The record of process [q] after a run. *)
Definition record_of (q : positive) (r : result signal * kernel)
  : option pinfo :=
  k_procs r.2 !! q.

(** A parser to run examples with; the properties hold for any parser.
    Tokens are separated by white space, a tokenizer in the manner of
    strtok leaves the first token in the array, the token [|] separates
    the commands of a pipeline, and the first token tells the builtins. *)
Definition example_parse_line (l : string) : list string * string :=
  (String.words l, default "" (head (String.words l))).

Definition example_simple_command (toks : list string) : simple_command :=
  SimpleCommand None None None toks
    (match toks with
     | "cd" :: _ => BUILTIN_CD
     | "exit" :: _ => BUILTIN_EXIT
     | _ => BUILTIN_NONE
     end).

Definition example_join (seg : list string) (after : option command)
  : command :=
  match after with
  | None => Leaf (example_simple_command seg)
  | Some c => Node "|" (Leaf (example_simple_command seg)) c
  end.

Definition example_construct_command (toks : list string) : command :=
  let '(seg, after) :=
    foldr (fun tok '(seg, after) =>
             if String.eqb tok "|" then ([], Some (example_join seg after))
             else (tok :: seg, after))
          ([], None) toks in
  example_join seg after.

Definition example_main (fuel : nat) (input : string) : run :=
  main example_parse_line example_construct_command fuel input shell0 kernel0.

(** A line of 1023 bytes followed by more of the same line. *)
Definition long_line : string := string_repeat "a" 1023.

(** A directory whose name has 99 bytes. *)
Definition dir99 : string := String "/" (string_repeat "a" 98).

(** A kernel in which a directory with a name of 99 bytes exists. *)
Definition kernel99 : kernel := kernel_with_dirs {[ dir99 ]}.

(** A kernel in which the third call of process 1 that can fail for lack
    of resources does. *)
Definition kernel_second_fork_fails : kernel :=
  Kernel (fun pid n => bool_decide (pid = 1%positive) && Nat.eqb n 2)
    ∅ {[ "/home" ]} {[ "cat"; "wc" ]} 2 0 ∅.

(** [sort < missing > out.txt], where [missing] does not exist *)
Definition sort_missing_to_file : simple_command :=
  SimpleCommand (Some "missing") (Some "out.txt") None ["sort"] BUILTIN_NONE.

(** [sort < in.txt | wc] *)
Definition sort_in_wc : command :=
  pipeline (SimpleCommand (Some "in.txt") None None ["sort"] BUILTIN_NONE)
    [external ["wc"]].

(** * Properties *)

(** ** The descriptor allocator *)

Lemma lowest_free_ge fuel n fds : Z.of_nat n <= lowest_free fuel n fds.
Proof.
  revert n. induction fuel as [|fuel IH]; intros n; simpl; [lia|].
  destruct (fds !! Z.of_nat n); [|lia].
  specialize (IH (S n)). lia.
Qed.

Lemma lowest_free_agree fuel n (m1 m2 : gmap Z ofd) :
  (forall j, Z.of_nat n <= j -> m1 !! j = m2 !! j) ->
  lowest_free fuel n m1 = lowest_free fuel n m2.
Proof.
  revert n. induction fuel as [|fuel IH]; intros n Hagree; simpl; [done|].
  rewrite (Hagree (Z.of_nat n)) by lia.
  destruct (m2 !! Z.of_nat n); [|done].
  apply IH. intros j Hj. apply Hagree. lia.
Qed.

Lemma lowest_free_fresh fuel : forall n (fds : gmap Z ofd),
  (size fds <= fuel)%nat -> fds !! lowest_free fuel n fds = None.
Proof.
  induction fuel as [|fuel IH]; intros n fds Hsize; simpl.
  - assert (fds = ∅) as -> by (apply map_size_empty_iff; lia).
    apply lookup_empty.
  - destruct (fds !! Z.of_nat n) as [o|] eqn:Hn; [|done].
    rewrite (lowest_free_agree fuel (S n) fds (delete (Z.of_nat n) fds)).
    + pose proof (lowest_free_ge fuel (S n) (delete (Z.of_nat n) fds)) as Hge.
      specialize (IH (S n) (delete (Z.of_nat n) fds)).
      rewrite lookup_delete_ne in IH by lia.
      apply IH. rewrite map_size_delete, Hn. simpl. lia.
    + intros j Hj. rewrite lookup_delete_ne; [done|lia].
Qed.

Lemma alloc_fd_fresh (fds : gmap Z ofd) : fds !! alloc_fd fds = None.
Proof. apply lowest_free_fresh. done. Qed.

Lemma alloc_fd_nonneg (fds : gmap Z ofd) : 0 <= alloc_fd fds.
Proof. pose proof (lowest_free_ge (size fds) 0 fds). unfold alloc_fd. lia. Qed.

Lemma alloc_fd_not_minus_one (fds : gmap Z ofd) : (alloc_fd fds =? -1) = false.
Proof. pose proof (alloc_fd_nonneg fds). lia. Qed.

(** ** Laws of the monad *)

Lemma bind_of_Ret {A B : Type} (m : M A) (f : A -> M B) p k a p1 k1 :
  m p k = (Ret a p1, k1) -> bind m f p k = f a p1 k1.
Proof. unfold bind. intros ->. done. Qed.

Lemma bind_of_Halt {A B : Type} (m : M A) (f : A -> M B) p k o p1 k1 :
  m p k = (Halt o p1, k1) -> bind m f p k = (Halt o p1, k1).
Proof. unfold bind. intros ->. done. Qed.

Lemma bind_Ret_inv {A B : Type} (m : M A) (f : A -> M B) p k b p' k' :
  bind m f p k = (Ret b p', k') ->
  exists a p1 k1, m p k = (Ret a p1, k1) /\ f a p1 k1 = (Ret b p', k').
Proof.
  unfold bind. destruct (m p k) as [[a p1|o p1] k1]; intros H.
  - exists a, p1, k1. done.
  - discriminate.
Qed.

Lemma bind_ext {A B : Type} (m m' : M A) (f f' : A -> M B) p k :
  (forall p k, m p k = m' p k) ->
  (forall a p k, f a p k = f' a p k) ->
  bind m f p k = bind m' f' p k.
Proof.
  intros Hm Hf. unfold bind. rewrite Hm.
  destruct (m' p k) as [[a p1|o p1] k1]; [apply Hf|done].
Qed.

Lemma bind_assoc {A B C : Type} (m : M A) (f : A -> M B) (g : B -> M C) p k :
  bind (bind m f) g p k = bind m (fun a => bind (f a) g) p k.
Proof. unfold bind. destruct (m p k) as [[a p1|o p1] k1]; done. Qed.


Lemma ensures_ret {A : Type} (a : A) (R : A -> Prop) H :
  R a -> ensures (ret a) R H.
Proof. intros Ha p k. exact Ha. Qed.

Lemma ensures_exit {A : Type} status (R : A -> Prop) (H : outcome -> Prop) :
  H (Exited status) -> ensures (exit status) R H.
Proof. intros Hs p k. exact Hs. Qed.

Lemma ensures_bind {A B : Type} (m : M A) (f : A -> M B) R1 R2
    (H : outcome -> Prop) :
  ensures m R1 H ->
  (forall a, R1 a -> ensures (f a) R2 H) ->
  ensures (bind m f) R2 H.
Proof.
  intros Hm Hf p k. specialize (Hm p k). unfold bind.
  destruct (m p k) as [[a p1|o p1] k1]; simpl in *.
  - apply (Hf a Hm).
  - done.
Qed.

Lemma ensures_weaken {A : Type} (m : M A) (R R' : A -> Prop)
    (H H' : outcome -> Prop) :
  ensures m R H ->
  (forall a, R a -> R' a) -> (forall o, H o -> H' o) ->
  ensures m R' H'.
Proof.
  intros Hm HR HH p k. specialize (Hm p k).
  destruct ((m p k).1); auto.
Qed.

Lemma ensures_perror s : ensures (perror s) anything never.
Proof. intros p k. exact I. Qed.

Lemma ensures_fprintf_stderr s : ensures (fprintf_stderr s) anything never.
Proof. intros p k. exact I. Qed.

Lemma ensures_open path flags mode :
  ensures (open path flags mode) anything never.
Proof.
  intros p k. unfold open. destruct (faulty p k); [done|].
  destruct path; [|done].
  destruct (files_after_open _ _ _ _ _); done.
Qed.

Lemma ensures_dup2 oldfd newfd : ensures (dup2 oldfd newfd) anything never.
Proof.
  intros p k. unfold dup2. destruct (faulty p k); [done|].
  destruct (p_fds p !! oldfd); done.
Qed.

Lemma ensures_close fd : ensures (close fd) anything never.
Proof.
  intros p k. unfold close. destruct (faulty p k); [done|].
  destruct (p_fds p !! fd); done.
Qed.

Lemma ensures_pipe : ensures pipe anything never.
Proof. intros p k. unfold pipe. destruct (faulty p k); done. Qed.

Lemma ensures_fork child : ensures (fork child) anything never.
Proof.
  intros p k. unfold fork. destruct (faulty p k); [done|].
  destruct (child _ _) as [r k2]. done.
Qed.

Lemma ensures_wait : ensures wait anything never.
Proof.
  intros p k. unfold wait. destruct (faulty p k); [done|].
  destruct (List.find _ _) as [[q i]|]; done.
Qed.

Lemma ensures_waitpid pid : ensures (waitpid pid) anything never.
Proof.
  intros p k. unfold waitpid. destruct (faulty p k); [done|].
  destruct pid as [|q|q]; try done.
  destruct (k_procs k !! q) as [i|]; [|done].
  destruct (waitable _ _); done.
Qed.

Lemma ensures_chdir path : ensures (chdir path) anything never.
Proof. intros p k. unfold chdir. destruct (bool_decide _); done. Qed.

Lemma ensures_getcwd size :
  ensures (getcwd size)
    (fun r => forall d, r = Some d -> strlen d + 1 <= size) never.
Proof.
  intros p k. unfold getcwd. simpl.
  destruct (Z.leb_spec (Z.of_nat (String.length (p_cwd p)) + 1) size);
    intros d Hd; [|done].
  injection Hd as <-. done.
Qed.

Lemma ensures_execvp path argv :
  ensures (execvp path argv) (fun r => r = -1)
    (fun o => exists f, path = Some f /\ o = Execed f argv).
Proof.
  intros p k. unfold execvp. destruct (faulty p k); [done|].
  destruct path as [f|]; [|done].
  destruct (bool_decide _); [|done].
  simpl. exists f. done.
Qed.

Create HintDb ensures.

#[local] Hint Resolve ensures_perror ensures_fprintf_stderr ensures_open
  ensures_dup2 ensures_close ensures_pipe ensures_fork ensures_wait
  ensures_waitpid ensures_chdir : ensures.

Lemma ensures_call {A : Type} (m : M A) (H : outcome -> Prop) :
  ensures m anything never -> ensures m anything H.
Proof. intros Hm. eapply ensures_weaken; [exact Hm|done|intros o []]. Qed.

(** One step through the body of a function: a call that cannot end the
    process, a test, a return or an exit. *)
Ltac ensures_step :=
  match goal with
  | |- ensures (ret _) _ _ => apply ensures_ret
  | |- ensures (exit _) _ _ => apply ensures_exit
  | |- ensures (bind _ _) _ _ =>
      eapply ensures_bind;
      [apply ensures_call; solve [eauto with ensures]|intros ? _]
  | |- ensures (if ?b then _ else _) _ _ => destruct b
  | |- ensures (match ?o with Some _ => _ | None => _ end) _ _ => destruct o
  | |- ensures (let '(_, _) := ?x in _) _ _ => destruct x
  end.

Lemma strcmp_eq a b : (strcmp a b =? 0) = true <-> a = b.
Proof.
  unfold strcmp. split.
  - intros H. apply String.compare_eq_iff.
    destruct (String.compare a b); [done|cbn in H; done..].
  - intros ->. pose proof (String.compare_antisym b b) as H.
    destruct (String.compare b b); done.
Qed.

(** ** The outcomes of the shell's functions *)

Lemma ensures_execute_command toks :
  ensures (execute_command toks) (fun _ => False) (leaf_outcome toks).
Proof.
  unfold execute_command. eapply ensures_bind.
  - eapply ensures_weaken; [apply ensures_execvp|intros a Ha; exact Ha|].
    intros o (f & Hf & ->). right. eauto.
  - intros r ->. change (-1 =? -1) with true. cbv iota.
    repeat ensures_step. left. done.
Qed.

(** execute_nonbuiltin does not return: the process exits with status 1
    or its image is replaced. *)
Lemma execute_nonbuiltin_halts s :
  ensures (execute_nonbuiltin s) (fun _ => False) (leaf_outcome (tokens s)).
Proof.
  unfold execute_nonbuiltin.
  eapply ensures_bind with (R1 := anything).
  { destruct (s_in s); repeat ensures_step; solve [done|left; done]. }
  intros _ _. eapply ensures_bind with (R1 := anything).
  { destruct (s_out s); repeat ensures_step; solve [done|left; done]. }
  intros _ _. eapply ensures_bind with (R1 := anything).
  { destruct (s_err s); repeat ensures_step; solve [done|left; done]. }
  intros _ _. apply ensures_execute_command.
Qed.

(** The code given to fork never comes to its end.  The child of a
    top-level command ends in execute_nonbuiltin. *)
Lemma forked_leaf_halts s :
  ensures (execute_nonbuiltin s ;; ret 0) (fun _ => False)
    (leaf_outcome (tokens s)).
Proof.
  eapply ensures_bind; [apply execute_nonbuiltin_halts|]. intros a [].
Qed.


(** execute_complex_command returns nothing but 0. *)
Lemma execute_complex_command_returns c :
  ensures (execute_complex_command c) (fun v => v = 0) stage_outcome.
Proof.
  destruct c as [s|oper c1 c2]; simpl.
  - eapply ensures_bind.
    + eapply ensures_weaken;
        [apply execute_nonbuiltin_halts|intros a Ha; exact Ha|].
      intros o [->|(f & _ & ->)]; [left; done|right; eauto].
    + intros a [].
  - repeat ensures_step; solve [done|left; done].
Qed.

(** A child at one end of a pipe ends at the latest with its exit(0). *)
Lemma piped_child_halts unused used target (m : M Z)
    (H : outcome -> Prop) :
  ensures m anything H -> H (Exited 1) -> H (Exited 0) ->
  ensures (piped_child unused used target m) (fun _ => False) H.
Proof.
  intros Hm H1 H0. unfold piped_child.
  repeat first
    [ eapply ensures_bind; [exact Hm|intros ? _]
    | ensures_step ]; assumption.
Qed.

(** So no process forked by the shell is recorded as having returned
    from its code: a child of a pipeline exits or is replaced by a
    program. *)
Lemma piped_child_ends unused used target c :
  ensures (piped_child unused used target (execute_complex_command c))
    (fun _ => False)
    (fun o => o = Exited 0 \/ stage_outcome o).
Proof.
  apply piped_child_halts; [|right; left; done|left; done].
  eapply ensures_weaken; [apply execute_complex_command_returns|done|].
  intros o Ho. right. exact Ho.
Qed.

(** ** Builtins and the stop signal *)



Lemma signal_of_stop v : signal_of v = STOP <-> v = -1.
Proof. unfold signal_of. destruct (Z.eqb_spec v (-1)); split; done. Qed.

Lemma ensures_top {A : Type} (m : M A) : ensures m anything (fun _ => True).
Proof. intros p k. destruct ((m p k).1); done. Qed.

Lemma execute_simple_command_returns s :
  ensures (execute_simple_command s)
    (fun v => (builtin s = BUILTIN_EXIT /\ v = -1) \/
              (builtin s <> BUILTIN_EXIT /\ v = 0))
    (fun _ => True).
Proof.
  unfold execute_simple_command. destruct (builtin s).
  - eapply ensures_bind; [apply ensures_top|]. intros pid _.
    eapply ensures_bind; [apply ensures_top|]. intros _ _.
    apply ensures_ret. by right.
  - eapply ensures_bind; [apply ensures_top|]. intros r _.
    eapply ensures_bind; [apply ensures_top|]. intros _ _.
    apply ensures_ret. by right.
  - apply ensures_ret. by left.
Qed.


(** ** Redirection of the standard error stream *)

(** C2.  The file named by the error path should be the one opened and
    made the standard error stream; line 240 opens the input path
    instead.  For [ls < in.txt 2> err.txt] the process opens in.txt a
    second time, now for writing with truncation, and makes that
    descriptor 2: err.txt is never opened or created and in.txt loses its
    contents. *)
Theorem stderr_redirection_opens_the_input_path :
  let r := execute_nonbuiltin ls_with_stderr shell0 kernel0 in
  p_trace (final_proc r.1) =
    [EvOpen (Some "in.txt") O_RDONLY None 3; EvDup2 3 0 0; EvClose 3 0;
     EvOpen (Some "in.txt") (Z.lor (Z.lor O_CREAT O_RDWR) O_TRUNC)
       (Some mode_0664) 3;
     EvDup2 3 2 2; EvClose 3 0;
     EvExecvp (Some "ls") ["ls"] true]
  /\ p_fds (final_proc r.1) !! 2 =
       Some (OFile "in.txt" (Z.lor (Z.lor O_CREAT O_RDWR) O_TRUNC))
  /\ k_files kernel0 !! "in.txt" = Some (File 420 "hello")
  /\ k_files r.2 !! "in.txt" = Some (File 420 "")
  /\ k_files r.2 !! "err.txt" = None.
Proof. vm_compute. repeat split; reflexivity. Qed.

(** ** Strings in bounded buffers *)

Lemma append_cons x (a b : string) : String x a +:+ b = String x (a +:+ b).
Proof. reflexivity. Qed.

Lemma length_append (a b : string) :
  String.length (a +:+ b) = (String.length a + String.length b)%nat.
Proof.
  induction a as [|x a IH]; [done|].
  rewrite append_cons. simpl. by rewrite IH.
Qed.

Lemma append_assoc (a b c : string) : (a +:+ b) +:+ c = a +:+ (b +:+ c).
Proof.
  induction a as [|x a IH]; [done|].
  rewrite !append_cons. by rewrite IH.
Qed.

Lemma length_string_take n s :
  String.length (string_take n s) = Nat.min n (String.length s).
Proof.
  revert s. induction n as [|n IH]; intros [|c s]; simpl; try done.
  by rewrite IH.
Qed.

Lemma string_take_all n s : (String.length s <= n)%nat -> string_take n s = s.
Proof.
  revert s. induction n as [|n IH]; intros [|c s] Hlen; simpl in *;
    try done; try lia.
  rewrite IH; [done|lia].
Qed.

Lemma string_take_append (a b : string) n :
  string_take (String.length a + n) (a +:+ b) = a +:+ string_take n b.
Proof.
  induction a as [|x a IH]; [done|].
  rewrite !append_cons. simpl. by rewrite IH.
Qed.

(** The two concatenations of execute_cd stay inside [dir] once getcwd
    has succeeded, and leave in it the first 99 bytes of the composed
    path. *)
Lemma strncat_slash d :
  strlen d + 1 <= MAX_DIRNAME - 2 ->
  strncat MAX_DIRNAME d "/" 1 = Some (d +:+ "/").
Proof.
  unfold strncat, strlen, MAX_DIRNAME. intros Hd.
  change (string_take (Z.to_nat 1) "/") with "/".
  rewrite length_append. simpl String.length.
  destruct (Z.leb_spec (Z.of_nat (String.length d + 1) + 1) 100); [done|lia].
Qed.

Lemma strncat_argument d w :
  strlen d + 1 <= MAX_DIRNAME - 2 ->
  strncat MAX_DIRNAME (d +:+ "/") w
    ((MAX_DIRNAME - strlen (d +:+ "/") - 1) mod SIZE_MAX1)
  = Some (string_take 99 (d +:+ "/" +:+ w)).
Proof.
  unfold strncat, strlen, MAX_DIRNAME, SIZE_MAX1. intros Hd.
  assert (String.length (d +:+ "/") = S (String.length d)) as Hlen
    by (rewrite length_append; simpl; lia).
  rewrite Hlen. change (2 ^ 64) with 18446744073709551616.
  rewrite Z.mod_small by lia.
  replace (Z.to_nat (100 - Z.of_nat (S (String.length d)) - 1))
    with (98 - String.length d)%nat by lia.
  replace 99%nat with (String.length (d +:+ "/") + (98 - String.length d))%nat
    by (rewrite Hlen; lia).
  rewrite <- append_assoc, string_take_append.
  rewrite length_append, Hlen, length_string_take.
  destruct (Z.leb_spec
    (Z.of_nat (S (String.length d) +
       Nat.min (98 - String.length d) (String.length w)) + 1) 100);
    [done|lia].
Qed.

(** ** The builtin cd *)

Lemma chdir_eq path p k :
  chdir path p k =
    if bool_decide (chdir_target p path ∈ k_dirs k)
    then (Ret 0 (emit (EvChdir path 0) (set_cwd (chdir_target p path) p)), k)
    else (Ret (-1) (emit (EvChdir path (-1)) p), k).
Proof. reflexivity. Qed.

Lemma change_to_eq path p k :
  change_to path p k =
    if bool_decide (chdir_target p path ∈ k_dirs k)
    then (Ret EXIT_SUCCESS
            (emit (EvChdir path 0) (set_cwd (chdir_target p path) p)), k)
    else (Ret EXIT_FAILURE (emit (EvChdir path (-1)) p), k).
Proof.
  unfold change_to, bind. rewrite chdir_eq.
  destruct (bool_decide _); reflexivity.
Qed.

Lemma execute_cd_absolute w1 rest p k :
  is_relative w1 = false ->
  execute_cd ("cd" :: w1 :: rest) p k = change_to w1 p k.
Proof.
  intros Hrel. unfold execute_cd.
  change (("cd" :: w1 :: rest) !! 0%nat) with (Some "cd").
  change (("cd" :: w1 :: rest) !! 1%nat) with (Some w1). cbv iota.
  change (strcmp "cd" "cd" =? 0) with true. rewrite Hrel. reflexivity.
Qed.

Lemma execute_cd_relative w1 rest p k :
  is_relative w1 = true ->
  execute_cd ("cd" :: w1 :: rest) p k =
    if strlen (p_cwd p) + 1 <=? MAX_DIRNAME - 2
    then change_to (string_take 99 (p_cwd p +:+ "/" +:+ w1))
           (emit (EvGetcwd (MAX_DIRNAME - 2) (Some (p_cwd p))) p) k
    else (Ret EXIT_FAILURE (emit (EvGetcwd (MAX_DIRNAME - 2) None) p), k).
Proof.
  intros Hrel. unfold execute_cd.
  change (("cd" :: w1 :: rest) !! 0%nat) with (Some "cd").
  change (("cd" :: w1 :: rest) !! 1%nat) with (Some w1). cbv iota.
  change (strcmp "cd" "cd" =? 0) with true. rewrite Hrel.
  cbv beta iota delta [negb]. unfold bind at 1, getcwd, strlen.
  destruct (Z.leb_spec (Z.of_nat (String.length (p_cwd p)) + 1)
              (MAX_DIRNAME - 2)) as [Hfit|Hlong]; [|reflexivity].
  rewrite strncat_slash by exact Hfit.
  rewrite strncat_argument by exact Hfit. reflexivity.
Qed.

Lemma execute_cd_not_cd w0 w1 rest p k :
  w0 <> "cd" ->
  execute_cd (w0 :: w1 :: rest) p k = (Ret EXIT_FAILURE p, k).
Proof.
  intros Hne. unfold execute_cd.
  change ((w0 :: w1 :: rest) !! 0%nat) with (Some w0).
  change ((w0 :: w1 :: rest) !! 1%nat) with (Some w1). cbv iota.
  destruct (strcmp w0 "cd" =? 0) eqn:Hcmp; [|reflexivity].
  apply strcmp_eq in Hcmp. done.
Qed.

Lemma execute_cd_missing_argument words p k :
  words !! 1%nat = None ->
  execute_cd words p k = (Ret EXIT_FAILURE p, k).
Proof.
  intros Hnone. unfold execute_cd. rewrite Hnone.
  destruct (words !! 0%nat); reflexivity.
Qed.

Lemma new_events_app p p' evs :
  p_trace p' = p_trace p ++ evs -> new_events p p' = evs.
Proof. intros H. unfold new_events. rewrite H. apply drop_app_length. Qed.

(** execute_cd always returns, with one of its two codes; it touches
    nothing but the current directory, and that only when it succeeds. *)
Lemma execute_cd_spec words p k :
  exists v p' evs,
    execute_cd words p k = (Ret v p', k)
    /\ p_trace p' = p_trace p ++ evs /\ forallb cd_event evs = true
    /\ p_fds p' = p_fds p /\ p_pid p' = p_pid p /\ p_clock p' = p_clock p
    /\ ((v = EXIT_FAILURE /\ p_cwd p' = p_cwd p)
        \/ (v = EXIT_SUCCESS /\ p_cwd p' ∈ k_dirs k)).
Proof.
  assert (forall path q,
    p_fds q = p_fds p -> p_pid q = p_pid p -> p_clock q = p_clock p ->
    p_cwd q = p_cwd p ->
    forall pre, p_trace q = p_trace p ++ pre -> forallb cd_event pre = true ->
    exists v p' evs,
      change_to path q k = (Ret v p', k)
      /\ p_trace p' = p_trace p ++ evs /\ forallb cd_event evs = true
      /\ p_fds p' = p_fds p /\ p_pid p' = p_pid p /\ p_clock p' = p_clock p
      /\ ((v = EXIT_FAILURE /\ p_cwd p' = p_cwd p)
          \/ (v = EXIT_SUCCESS /\ p_cwd p' ∈ k_dirs k))) as Hchange.
  { intros path q Hfds Hpid Hclock Hcwd pre Htrace Hpre.
    rewrite change_to_eq.
    destruct (bool_decide (chdir_target q path ∈ k_dirs k)) eqn:Hdir.
    - apply bool_decide_eq_true in Hdir.
      eexists _, _, (pre ++ [EvChdir path 0]).
      split; [reflexivity|]. simpl. rewrite Htrace, <- app_assoc.
      rewrite forallb_app, Hpre. repeat split; try done. by right.
    - eexists _, _, (pre ++ [EvChdir path (-1)]).
      split; [reflexivity|]. simpl. rewrite Htrace, <- app_assoc.
      rewrite forallb_app, Hpre. repeat split; try done. by left. }
  assert (exists v p' evs,
    (Ret EXIT_FAILURE p, k) = (Ret v p', k)
    /\ p_trace p' = p_trace p ++ evs /\ forallb cd_event evs = true
    /\ p_fds p' = p_fds p /\ p_pid p' = p_pid p /\ p_clock p' = p_clock p
    /\ ((v = EXIT_FAILURE /\ p_cwd p' = p_cwd p)
        \/ (v = EXIT_SUCCESS /\ p_cwd p' ∈ k_dirs k))) as Hfail.
  { exists EXIT_FAILURE, p, []. rewrite app_nil_r.
    repeat split; try done. by left. }
  destruct (words !! 1%nat) as [w1'|] eqn:Harg;
    [|by rewrite execute_cd_missing_argument].
  destruct words as [|w0 [|w1 rest]]; try done.
  destruct (decide (w0 = "cd")) as [->|Hne];
    [|by rewrite execute_cd_not_cd].
  destruct (is_relative w1) eqn:Hrel.
  - rewrite execute_cd_relative by exact Hrel.
    destruct (strlen (p_cwd p) + 1 <=? MAX_DIRNAME - 2).
    + apply Hchange with (pre := [EvGetcwd (MAX_DIRNAME - 2) (Some (p_cwd p))]);
        reflexivity.
    + exists EXIT_FAILURE, (emit (EvGetcwd (MAX_DIRNAME - 2) None) p),
        [EvGetcwd (MAX_DIRNAME - 2) None].
      repeat split; try done. by left.
  - rewrite execute_cd_absolute by exact Hrel.
    apply Hchange with (pre := []); try reflexivity. by rewrite app_nil_r.
Qed.

Lemma cd_target_relative d w :
  is_relative w = true -> cd_target d w = string_take 99 (d +:+ "/" +:+ w).
Proof. unfold cd_target. by intros ->. Qed.

Lemma strlen_composed d w :
  strlen (d +:+ "/" +:+ w) = strlen d + 1 + strlen w.
Proof. unfold strlen. rewrite !length_append. simpl String.length. lia. Qed.

(** C10, as amended.  execute_cd always returns: no byte is written
    outside the buffer [dir] of MAX_DIRNAME bytes.  For a relative
    argument, when the current directory fits the MAX_DIRNAME - 2 bytes
    given to getcwd, chdir is called on the first MAX_DIRNAME - 1 bytes of
    the composed path, execute_cd prints nothing, and a longer composed
    path is cut at that length; when the current directory does not fit,
    getcwd fails and execute_cd returns EXIT_FAILURE without calling
    chdir. *)
Theorem relative_cd_composes_in_bounded_buffer :
  forall w1 rest p k,
    is_relative w1 = true ->
    (forall words, exists v p', execute_cd words p k = (Ret v p', k))
    /\ (strlen (p_cwd p) + 1 <= MAX_DIRNAME - 2 ->
        exists v p' r,
          execute_cd ("cd" :: w1 :: rest) p k = (Ret v p', k)
          /\ new_events p p' =
               [EvGetcwd (MAX_DIRNAME - 2) (Some (p_cwd p));
                EvChdir (cd_target (p_cwd p) w1) r]
          /\ strlen (cd_target (p_cwd p) w1) <= MAX_DIRNAME - 1
          /\ (MAX_DIRNAME - 1 < strlen (p_cwd p) + 1 + strlen w1 ->
              strlen (cd_target (p_cwd p) w1) = MAX_DIRNAME - 1
              /\ cd_target (p_cwd p) w1 <> p_cwd p +:+ "/" +:+ w1))
    /\ (MAX_DIRNAME - 2 < strlen (p_cwd p) + 1 ->
        execute_cd ("cd" :: w1 :: rest) p k =
          (Ret EXIT_FAILURE (emit (EvGetcwd (MAX_DIRNAME - 2) None) p), k)).
Proof.
  intros w1 rest p k Hrel. split; [|split].
  - intros words.
    destruct (execute_cd_spec words p k) as (v & p' & evs & Heq & _).
    eauto.
  - intros Hfit. rewrite execute_cd_relative by exact Hrel.
    destruct (Z.leb_spec (strlen (p_cwd p) + 1) (MAX_DIRNAME - 2)); [|lia].
    rewrite change_to_eq, cd_target_relative by exact Hrel.
    assert (strlen (string_take 99 (p_cwd p +:+ "/" +:+ w1))
            = Z.min 99 (strlen (p_cwd p) + 1 + strlen w1)) as Hlen.
    { rewrite <- strlen_composed. unfold strlen.
      rewrite length_string_take. lia. }
    assert (strlen (string_take 99 (p_cwd p +:+ "/" +:+ w1)) <= MAX_DIRNAME - 1
      /\ (MAX_DIRNAME - 1 < strlen (p_cwd p) + 1 + strlen w1 ->
          strlen (string_take 99 (p_cwd p +:+ "/" +:+ w1)) = MAX_DIRNAME - 1
          /\ string_take 99 (p_cwd p +:+ "/" +:+ w1)
             <> p_cwd p +:+ "/" +:+ w1)) as Hcut.
    { unfold MAX_DIRNAME in *. split; [lia|]. intros Hlong. split; [lia|].
      intros Hsame. rewrite Hsame, strlen_composed in Hlen. lia. }
    destruct (bool_decide _); eexists _, _, _;
      (split; [reflexivity|]); (split; [|exact Hcut]);
      apply new_events_app; simpl; rewrite <- app_assoc; reflexivity.
  - intros Hlong. rewrite execute_cd_relative by exact Hrel.
    destruct (Z.leb_spec (strlen (p_cwd p) + 1) (MAX_DIRNAME - 2)); [lia|].
    reflexivity.
Qed.

Lemma relative_cd_composes_in_bounded_buffer_witness :
  is_relative "src" = true
  /\ strlen (p_cwd shell0) + 1 <= MAX_DIRNAME - 2
  /\ exists v p' r,
       execute_cd ["cd"; "src"] shell0 kernel0 = (Ret v p', kernel0)
       /\ new_events shell0 p' =
            [EvGetcwd (MAX_DIRNAME - 2) (Some "/home");
             EvChdir (cd_target "/home" "src") r]
       /\ strlen (cd_target "/home" "src") <= MAX_DIRNAME - 1
       /\ (MAX_DIRNAME - 1 < strlen "/home" + 1 + strlen "src" ->
           strlen (cd_target "/home" "src") = MAX_DIRNAME - 1
           /\ cd_target "/home" "src" <> "/home" +:+ "/" +:+ "src").
Proof.
  split; [reflexivity|]. split; [vm_compute; discriminate|].
  apply (relative_cd_composes_in_bounded_buffer "src" [] shell0 kernel0).
  - reflexivity.
  - vm_compute. discriminate.
Defined.

(** C10 as stated fails when the current directory has 98 bytes or more:
    the composed length exceeds the buffer, yet chdir is not attempted
    on any path. *)
Lemma relative_cd_from_long_cwd_attempts_no_chdir :
  is_relative "x" = true
  /\ MAX_DIRNAME - 1 < strlen (p_cwd (shell_in dir98)) + 1 + strlen "x"
  /\ ~ (exists path r,
          EvChdir path r ∈
            p_trace (final_proc
                       (execute_cd ["cd"; "x"] (shell_in dir98) kernel98).1)).
Proof.
  split; [reflexivity|]. split; [reflexivity|].
  intros (path & r & Hin). vm_compute in Hin.
  apply list_elem_of_In in Hin. simpl in Hin.
  destruct Hin as [Heq|[]]. discriminate.
Qed.

(** C5, as amended.  From a current directory [d] that getcwd can return
    in MAX_DIRNAME - 2 bytes, cd with a relative path [w] is equivalent to
    cd with the absolute path [d/w], provided that path fits the
    MAX_DIRNAME - 1 bytes of the buffer. *)
Theorem relative_cd_is_cd_to_composed_path :
  forall w rest p k,
    is_relative w = true ->
    is_relative (p_cwd p +:+ "/" +:+ w) = false ->
    strlen (p_cwd p) + 1 <= MAX_DIRNAME - 2 ->
    strlen (p_cwd p) + 1 + strlen w <= MAX_DIRNAME - 1 ->
    cd_equivalent p k ("cd" :: w :: rest)
      ("cd" :: (p_cwd p +:+ "/" +:+ w) :: rest).
Proof.
  intros w rest p k Hrel Habs Hfit Hshort. unfold cd_equivalent.
  rewrite execute_cd_relative by exact Hrel.
  rewrite execute_cd_absolute by exact Habs.
  destruct (Z.leb_spec (strlen (p_cwd p) + 1) (MAX_DIRNAME - 2)); [|lia].
  rewrite string_take_all.
  2:{ rewrite <- strlen_composed in Hshort.
      unfold strlen, MAX_DIRNAME in Hshort. lia. }
  rewrite !change_to_eq. unfold chdir_target. simpl p_cwd. rewrite Habs.
  destruct (bool_decide _); done.
Qed.

Lemma relative_cd_is_cd_to_composed_path_witness :
  cd_equivalent shell0 kernel0 ["cd"; "src"] ["cd"; "/home/src"].
Proof.
  apply (relative_cd_is_cd_to_composed_path "src" [] shell0 kernel0).
  - reflexivity.
  - reflexivity.
  - vm_compute. discriminate.
  - vm_compute. discriminate.
Defined.

(** C5 as stated fails for long paths: from a directory with a 97-byte
    name, [cd bb] lands in the existing directory [b], because the
    composed path is cut after 99 bytes, while cd with the full composed
    path fails. *)
Lemma relative_cd_differs_when_path_is_cut :
  is_relative "bb" = true
  /\ is_relative (p_cwd (shell_in dir97) +:+ "/" +:+ "bb") = false
  /\ ~ cd_equivalent (shell_in dir97) kernel97 ["cd"; "bb"]
         ["cd"; p_cwd (shell_in dir97) +:+ "/" +:+ "bb"].
Proof.
  split; [reflexivity|]. split; [reflexivity|].
  unfold cd_equivalent. intros Hequiv. vm_compute in Hequiv.
  destruct Hequiv as [Hcode _]. discriminate.
Qed.

(** C6.  A cd at the top level whose execute_cd reports failure prints
    its diagnostic (the missing-argument message, or perror on the path),
    leaves the current directory, the descriptors and the kernel as they
    were, so that no process is forked, and returns 0, on which the read
    loop goes on.  A missing argument and a target the process cannot
    change to are such failures. *)
Theorem failed_cd_is_recoverable :
  forall s p k,
    builtin s = BUILTIN_CD ->
    ((exists p1, execute_cd (tokens s) p k = (Ret EXIT_FAILURE p1, k)) ->
     exists p' pre,
       execute_simple_command s p k = (Ret 0 p', k)
       /\ signal_of 0 = CONTINUE
       /\ p_cwd p' = p_cwd p /\ p_fds p' = p_fds p
       /\ new_events p p' = pre ++ [cd_diagnostic (tokens s)]
       /\ forallb cd_event pre = true
       /\ spawned k k = 0%nat)
    /\ (tokens s !! 1%nat = None ->
        execute_cd (tokens s) p k = (Ret EXIT_FAILURE p, k))
    /\ (forall w rest,
          tokens s = "cd" :: w :: rest ->
          (is_relative w = true -> strlen (p_cwd p) + 1 <= MAX_DIRNAME - 2) ->
          chdir_target p (cd_target (p_cwd p) w) ∉ k_dirs k ->
          exists p1, execute_cd (tokens s) p k = (Ret EXIT_FAILURE p1, k)).
Proof.
  intros s p k Hcd. split; [|split].
  - intros [p1 Hfail].
    destruct (execute_cd_spec (tokens s) p k)
      as (v & p1' & pre & Heq & Htrace & Hpre & Hfds & _ & _ & Hcases).
    rewrite Hfail in Heq. injection Heq as <- <-.
    destruct Hcases as [[_ Hcwd]|[Hv _]]; [|done].
    unfold execute_simple_command. rewrite Hcd.
    rewrite (bind_of_Ret _ _ _ _ _ _ _ Hfail).
    change (EXIT_FAILURE =? EXIT_FAILURE) with true. cbv iota.
    exists (emit (cd_diagnostic (tokens s)) p1), pre.
    split.
    { unfold cd_diagnostic. destruct (tokens s !! 1%nat); reflexivity. }
    repeat split; try done.
    + apply new_events_app. simpl. rewrite Htrace, <- app_assoc. done.
    + unfold spawned. lia.
  - apply execute_cd_missing_argument.
  - intros w rest Htoks Hfit Hnodir. rewrite Htoks.
    assert (bool_decide (chdir_target p (cd_target (p_cwd p) w) ∈ k_dirs k)
            = false) as Hdir by (by apply bool_decide_eq_false).
    destruct (is_relative w) eqn:Hrel.
    + rewrite execute_cd_relative by exact Hrel.
      specialize (Hfit eq_refl).
      destruct (Z.leb_spec (strlen (p_cwd p) + 1) (MAX_DIRNAME - 2)); [|lia].
      rewrite change_to_eq. rewrite cd_target_relative in Hdir by exact Hrel.
      unfold chdir_target in *. simpl p_cwd. rewrite Hdir. eauto.
    + rewrite execute_cd_absolute by exact Hrel.
      rewrite change_to_eq. unfold cd_target in Hdir. rewrite Hrel in Hdir.
      rewrite Hdir. eauto.
Qed.

Lemma failed_cd_is_recoverable_witness :
  builtin (cd_command ["cd"; "/nowhere"]) = BUILTIN_CD
  /\ exists p' pre,
       execute_simple_command (cd_command ["cd"; "/nowhere"]) shell0 kernel0
         = (Ret 0 p', kernel0)
       /\ signal_of 0 = CONTINUE
       /\ p_cwd p' = p_cwd shell0 /\ p_fds p' = p_fds shell0
       /\ new_events shell0 p' = pre ++ [EvPerror (Some "/nowhere")]
       /\ forallb cd_event pre = true
       /\ spawned kernel0 kernel0 = 0%nat.
Proof.
  split; [reflexivity|].
  apply (failed_cd_is_recoverable (cd_command ["cd"; "/nowhere"])
           shell0 kernel0 eq_refl).
  apply (proj2 (proj2 (failed_cd_is_recoverable
           (cd_command ["cd"; "/nowhere"]) shell0 kernel0 eq_refl))
           "/nowhere" [] eq_refl).
  - intros Hrel. discriminate Hrel.
  - vm_compute. intros H. discriminate H.
Defined.

(** ** The calls one by one *)

Ltac psimpl :=
  cbn [p_pid p_fds p_cwd p_umask p_clock p_trace
       k_fault k_files k_dirs k_progs k_next_pid k_next_pipe k_procs
       emit tick set_fds set_cwd set_files set_procs bump_pid bump_pipe
       faulty final_proc fst snd] in *.

Lemma set_files_id k : set_files (k_files k) k = k.
Proof. by destruct k. Qed.

Lemma set_files_twice fs fs' k :
  set_files fs (set_files fs' k) = set_files fs k.
Proof. reflexivity. Qed.

Lemma open_cases path flags mode p k :
  (faulty p k = false /\
   exists f fs,
     path = Some f
     /\ files_after_open f flags mode (p_umask p) (k_files k) = Some fs
     /\ open path flags mode p k =
          (Ret (alloc_fd (p_fds p))
             (emit (EvOpen path flags mode (alloc_fd (p_fds p)))
                (set_fds (<[alloc_fd (p_fds p) := OFile f flags]> (p_fds p))
                   (tick p))),
           set_files fs k))
  \/ open path flags mode p k =
       (Ret (-1) (emit (EvOpen path flags mode (-1)) (tick p)), k).
Proof.
  unfold open. destruct (faulty p k); [by right|].
  destruct path as [f|]; [|by right].
  destruct (files_after_open _ _ _ _ _) as [fs|] eqn:Hfs; [|by right].
  left. split; [done|]. by exists f, fs.
Qed.

Lemma dup2_cases oldfd newfd p k :
  (faulty p k = false /\
   exists o,
     p_fds p !! oldfd = Some o
     /\ dup2 oldfd newfd p k =
          (Ret newfd
             (emit (EvDup2 oldfd newfd newfd)
                (set_fds (<[newfd := o]> (p_fds p)) (tick p))), k))
  \/ dup2 oldfd newfd p k =
       (Ret (-1) (emit (EvDup2 oldfd newfd (-1)) (tick p)), k).
Proof.
  unfold dup2. destruct (faulty p k); [by right|].
  destruct (p_fds p !! oldfd) as [o|]; [|by right].
  left. split; [done|]. by exists o.
Qed.

Lemma close_cases fd p k :
  (faulty p k = false /\ is_Some (p_fds p !! fd)
   /\ close fd p k =
        (Ret 0 (emit (EvClose fd 0) (set_fds (delete fd (p_fds p)) (tick p))),
         k))
  \/ close fd p k = (Ret (-1) (emit (EvClose fd (-1)) (tick p)), k).
Proof.
  unfold close. destruct (faulty p k); [by right|].
  destruct (p_fds p !! fd) as [o|]; [|by right].
  left. split; [done|]. split; [by exists o|done].
Qed.

(** When nothing fails for lack of resources, dup2 and close of an open
    descriptor go through. *)
Lemma dup2_open_ok oldfd newfd o p k :
  faulty p k = false -> p_fds p !! oldfd = Some o ->
  dup2 oldfd newfd p k =
    (Ret newfd
       (emit (EvDup2 oldfd newfd newfd)
          (set_fds (<[newfd := o]> (p_fds p)) (tick p))), k).
Proof. intros Hf Ho. unfold dup2. by rewrite Hf, Ho. Qed.

Lemma close_open_ok fd p k :
  faulty p k = false -> is_Some (p_fds p !! fd) ->
  close fd p k =
    (Ret 0 (emit (EvClose fd 0) (set_fds (delete fd (p_fds p)) (tick p))), k).
Proof. intros Hf [o Ho]. unfold close. by rewrite Hf, Ho. Qed.

Lemma fatal_end_intro pre e msg :
  clean pre = true -> failed_setup e = true ->
  fatal_end (pre ++ [e; EvPerror msg; EvExit 1]).
Proof. intros Hpre He. by exists pre, e, msg. Qed.

(** A redirection either goes through, or ends the process with status 1
    right after the call that failed and its report. *)
Lemma redirect_cases path flags mode target name p k :
  0 <= target ->
  (exists f fs,
     path = Some f
     /\ files_after_open f flags mode (p_umask p) (k_files k) = Some fs
     /\ redirect path flags mode target name p k =
          (Ret tt (redirected path f flags mode target p), set_files fs k))
  \/ (exists p' evs fs,
        redirect path flags mode target name p k =
          (Halt (Exited 1) p', set_files fs k)
        /\ p_trace p' = p_trace p ++ evs
        /\ fatal_end evs /\ existsb is_execvp evs = false).
Proof.
  intros Htarget. unfold redirect.
  destruct (open_cases path flags mode p k)
    as [(_ & f & fs & Hpath & Hfs & Hopen)|Hopen];
    rewrite (bind_of_Ret _ _ _ _ _ _ _ Hopen).
  2:{ right. change (-1 =? -1) with true. cbv iota.
      eexists _, [EvOpen path flags mode (-1); EvPerror name; EvExit 1],
        (k_files k).
      rewrite set_files_id. split; [reflexivity|]. psimpl.
      rewrite <- !List.app_assoc. split; [reflexivity|]. split; [|done].
      by apply (fatal_end_intro []). }
  rewrite alloc_fd_not_minus_one. cbv iota.
  set (fd := alloc_fd (p_fds p)) in *.
  set (p1 := emit _ (set_fds _ (tick p))) in *.
  assert (p_fds p1 !! fd = Some (OFile f flags)) as Hfd
    by (subst p1; psimpl; apply lookup_insert_eq).
  assert ((fd =? -1) = false) as Hfdpos by apply alloc_fd_not_minus_one.
  destruct (dup2_cases fd target p1 (set_files fs k))
    as [(_ & o & Ho & Hdup)|Hdup];
    rewrite (bind_of_Ret _ _ _ _ _ _ _ Hdup).
  2:{ right. change (-1 =? -1) with true. cbv iota.
      eexists _, [EvOpen path flags mode fd; EvDup2 fd target (-1);
                  EvPerror (Some "dup2"); EvExit 1], fs.
      split; [reflexivity|]. subst p1. psimpl.
      rewrite <- !List.app_assoc. split; [reflexivity|]. split; [|done].
      apply (fatal_end_intro [EvOpen path flags mode fd]); [|done].
      unfold clean. simpl. by rewrite Hfdpos. }
  rewrite Hfd in Ho. injection Ho as <-.
  assert ((target =? -1) = false) as Htpos by lia.
  rewrite Htpos. cbv iota.
  set (p2 := emit _ (set_fds _ (tick p1))) in *.
  destruct (close_cases fd p2 (set_files fs k))
    as [(_ & _ & Hclose)|Hclose];
    rewrite (bind_of_Ret _ _ _ _ _ _ _ Hclose).
  - left. exists f, fs. change (0 =? -1) with false. cbv iota.
    split; [done|]. split; [done|]. unfold ret, redirected, rewired, triplet.
    subst p2 p1. unfold emit, tick, set_fds. psimpl.
    rewrite <- !List.app_assoc. reflexivity.
  - right. change (-1 =? -1) with true. cbv iota.
    eexists _, [EvOpen path flags mode fd; EvDup2 fd target target;
                EvClose fd (-1); EvPerror (Some "close"); EvExit 1], fs.
    split; [reflexivity|]. subst p2 p1. psimpl.
    rewrite <- !List.app_assoc. split; [reflexivity|]. split; [|done].
    apply (fatal_end_intro
             [EvOpen path flags mode fd; EvDup2 fd target target]); [|done].
    unfold clean. simpl. by rewrite Hfdpos, Htpos.
Qed.

Lemma redirect_when_cases guard path flags mode target name p k :
  0 <= target ->
  (exists p' fs,
     redirect_when guard path flags mode target name p k =
       (Ret tt p', set_files fs k)
     /\ went_through guard path flags mode target p (k_files k) p' fs)
  \/ (exists p' evs fs,
        redirect_when guard path flags mode target name p k =
          (Halt (Exited 1) p', set_files fs k)
        /\ p_trace p' = p_trace p ++ evs
        /\ fatal_end evs /\ existsb is_execvp evs = false).
Proof.
  intros Htarget. unfold redirect_when, went_through.
  destruct guard as [g|].
  - destruct (redirect_cases path flags mode target name p k Htarget)
      as [(f & fs & Hpath & Hfs & Heq)|Hfail]; [|by right].
    left. exists (redirected path f flags mode target p), fs.
    split; [done|]. by exists f.
  - left. exists p, (k_files k). by rewrite set_files_id.
Qed.

Lemma went_through_trace guard path flags mode target p fs p' fs' :
  went_through guard path flags mode target p fs p' fs' ->
  p_trace p' =
    p_trace p ++ triplet_when guard path flags mode target (alloc_fd (p_fds p))
  /\ p_pid p' = p_pid p /\ p_cwd p' = p_cwd p /\ p_umask p' = p_umask p.
Proof.
  unfold went_through, triplet_when. destruct guard as [g|].
  - intros (f & _ & _ & ->). done.
  - intros [-> _]. by rewrite app_nil_r.
Qed.

Lemma execute_command_cases toks p k :
  (exists f,
     toks !! 0%nat = Some f
     /\ execute_command toks p k =
          (Halt (Execed f toks) (emit (EvExecvp (Some f) toks true) (tick p)),
           k))
  \/ execute_command toks p k =
       (Halt (Exited 1)
          (emit (EvExit 1)
             (emit (EvPerror (toks !! 0%nat))
                (emit (EvExecvp (toks !! 0%nat) toks false) (tick p)))), k).
Proof.
  unfold execute_command, bind, execvp.
  destruct (faulty p k); [by right|].
  destruct (toks !! 0%nat) as [f|]; [|by right].
  destruct (bool_decide _); [|by right].
  left. by exists f.
Qed.

Lemma execute_nonbuiltin_blocks s :
  execute_nonbuiltin s =
    (redirect_when (s_in s) (s_in s) O_RDONLY None STDIN_FILENO (s_in s) ;;
     redirect_when (s_out s) (s_out s) rw_create_trunc (Some mode_0664)
       STDOUT_FILENO (s_out s) ;;
     redirect_when (s_err s) (s_in s) rw_create_trunc (Some mode_0664)
       STDERR_FILENO (s_err s) ;;
     execute_command (tokens s)).
Proof. reflexivity. Qed.

(** The whole of execute_nonbuiltin: either the three blocks go through
    one after the other and execvp is called, or a block ends the
    process. *)
Lemma execute_nonbuiltin_spec s p k :
  exists o p' fs evs,
    execute_nonbuiltin s p k = (Halt o p', set_files fs k)
    /\ p_trace p' = p_trace p ++ evs
    /\ ((exists p1 fs1 p2 fs2 p3,
           went_through (s_in s) (s_in s) O_RDONLY None STDIN_FILENO
             p (k_files k) p1 fs1
           /\ went_through (s_out s) (s_out s) rw_create_trunc
                (Some mode_0664) STDOUT_FILENO p1 fs1 p2 fs2
           /\ went_through (s_err s) (s_in s) rw_create_trunc
                (Some mode_0664) STDERR_FILENO p2 fs2 p3 fs
           /\ exists ok,
                evs = redirections_of s (alloc_fd (p_fds p))
                        (alloc_fd (p_fds p1)) (alloc_fd (p_fds p2))
                      ++ exec_events (tokens s) ok
                /\ p_fds p' = p_fds p3
                /\ if ok
                   then exists f,
                          tokens s !! 0%nat = Some f
                          /\ o = Execed f (tokens s)
                   else o = Exited 1)
        \/ (o = Exited 1 /\ fatal_end evs /\ existsb is_execvp evs = false)).
Proof.
  rewrite execute_nonbuiltin_blocks.
  destruct (redirect_when_cases (s_in s) (s_in s) O_RDONLY None STDIN_FILENO
              (s_in s) p k) as [(p1 & fs1 & H1 & W1)|Hfail]; [done| |].
  2:{ destruct Hfail as (p' & evs & fs & Heq & Htr & Hfatal & Hnoexec).
      exists (Exited 1), p', fs, evs.
      rewrite (bind_of_Halt _ _ _ _ _ _ _ Heq). split; [done|].
      split; [done|]. by right. }
  rewrite (bind_of_Ret _ _ _ _ _ _ _ H1).
  destruct (went_through_trace _ _ _ _ _ _ _ _ _ W1) as (T1 & _).
  destruct (redirect_when_cases (s_out s) (s_out s) rw_create_trunc
              (Some mode_0664) STDOUT_FILENO (s_out s) p1 (set_files fs1 k))
    as [(p2 & fs2 & H2 & W2)|Hfail]; [done| |].
  2:{ destruct Hfail as (p' & evs & fs & Heq & Htr & Hfatal & Hnoexec).
      exists (Exited 1), p', fs,
        (triplet_when (s_in s) (s_in s) O_RDONLY None STDIN_FILENO
           (alloc_fd (p_fds p)) ++ evs).
      rewrite (bind_of_Halt _ _ _ _ _ _ _ Heq). split; [done|].
      rewrite Htr, T1, <- List.app_assoc. split; [done|]. right.
      split; [done|].
      destruct Hfatal as (pre & e & msg & -> & Hpre & He).
      split.
      - exists (triplet_when (s_in s) (s_in s) O_RDONLY None STDIN_FILENO
                  (alloc_fd (p_fds p)) ++ pre), e, msg.
        rewrite <- List.app_assoc. split; [done|]. split; [|done].
        unfold clean in *. rewrite forallb_app, Hpre, andb_true_r.
        unfold triplet_when, triplet. destruct (s_in s); [|done].
        simpl. by rewrite alloc_fd_not_minus_one.
      - rewrite existsb_app, Hnoexec, orb_false_r.
        unfold triplet_when. by destruct (s_in s). }
  rewrite set_files_twice in H2. rewrite (bind_of_Ret _ _ _ _ _ _ _ H2).
  destruct (went_through_trace _ _ _ _ _ _ _ _ _ W2) as (T2 & _).
  destruct (redirect_when_cases (s_err s) (s_in s) rw_create_trunc
              (Some mode_0664) STDERR_FILENO (s_err s) p2 (set_files fs2 k))
    as [(p3 & fs3 & H3 & W3)|Hfail]; [done| |].
  2:{ destruct Hfail as (p' & evs & fs & Heq & Htr & Hfatal & Hnoexec).
      exists (Exited 1), p', fs,
        (triplet_when (s_in s) (s_in s) O_RDONLY None STDIN_FILENO
           (alloc_fd (p_fds p))
         ++ triplet_when (s_out s) (s_out s) rw_create_trunc (Some mode_0664)
              STDOUT_FILENO (alloc_fd (p_fds p1)) ++ evs).
      rewrite (bind_of_Halt _ _ _ _ _ _ _ Heq). split; [done|].
      rewrite Htr, T2, T1, <- !List.app_assoc. split; [done|]. right.
      split; [done|].
      destruct Hfatal as (pre & e & msg & -> & Hpre & He).
      split.
      - exists (triplet_when (s_in s) (s_in s) O_RDONLY None STDIN_FILENO
                  (alloc_fd (p_fds p))
                ++ triplet_when (s_out s) (s_out s) rw_create_trunc
                     (Some mode_0664) STDOUT_FILENO (alloc_fd (p_fds p1))
                ++ pre), e, msg.
        rewrite <- !List.app_assoc. split; [done|]. split; [|done].
        unfold clean in *. rewrite 2!forallb_app, Hpre, andb_true_r.
        unfold triplet_when, triplet.
        destruct (s_in s), (s_out s); simpl;
          by rewrite ?alloc_fd_not_minus_one.
      - rewrite 2!existsb_app, Hnoexec, orb_false_r.
        unfold triplet_when. by destruct (s_in s), (s_out s). }
  rewrite set_files_twice in H3. rewrite (bind_of_Ret _ _ _ _ _ _ _ H3).
  destruct (went_through_trace _ _ _ _ _ _ _ _ _ W3) as (T3 & _).
  cbn [k_files set_files] in W2, W3.
  destruct (execute_command_cases (tokens s) p3 (set_files fs3 k))
    as [(f & Hf & Heq)|Heq]; rewrite Heq.
  - eexists _, _, fs3, _. split; [reflexivity|]. psimpl.
    rewrite T3, T2, T1, <- !List.app_assoc. split; [reflexivity|]. left.
    exists p1, fs1, p2, fs2, p3. repeat (split; [done|]).
    exists true. unfold redirections_of, exec_events.
    rewrite Hf, <- !List.app_assoc. split; [done|]. split; [done|]. by exists f.
  - eexists _, _, fs3, _. split; [reflexivity|]. psimpl.
    rewrite T3, T2, T1, <- !List.app_assoc. split; [reflexivity|]. left.
    exists p1, fs1, p2, fs2, p3. repeat (split; [done|]).
    exists false. unfold redirections_of, exec_events.
    rewrite <- !List.app_assoc. done.
Qed.

Lemma fork_cases child p k :
  (faulty p k = false /\
   exists r k2,
     child (child_of (k_next_pid k) p) (bump_pid k) = (r, k2)
     /\ fork child p k =
          (Ret (Z.pos (k_next_pid k))
             (emit (EvFork (Z.pos (k_next_pid k))) (tick p)),
           set_procs
             (<[k_next_pid k := child_info (p_pid p) r]> (k_procs k2)) k2))
  \/ (faulty p k = true /\
      fork child p k = (Ret (-1) (emit (EvFork (-1)) (tick p)), k)).
Proof.
  unfold fork. destruct (faulty p k); [by right|].
  left. split; [done|].
  destruct (child _ _) as [r k2]. by exists r, k2.
Qed.

Lemma wait_cases p k :
  (faulty p k = false /\
   exists q i,
     k_procs k !! q = Some i /\ waitable (p_pid p) (q, i) = true
     /\ wait p k =
          (Ret (Z.pos q) (emit (EvWait (Z.pos q)) (tick p)),
           set_procs (<[q := reap i]> (k_procs k)) k))
  \/ wait p k = (Ret (-1) (emit (EvWait (-1)) (tick p)), k).
Proof.
  unfold wait. destruct (faulty p k); [by right|].
  destruct (List.find _ _) as [[q i]|] eqn:Hfind; [|by right].
  left. split; [done|]. exists q, i.
  apply List.find_some in Hfind as [Hin Hw].
  apply list_elem_of_In, elem_of_map_to_list in Hin. done.
Qed.

Lemma waitpid_cases pid p k :
  (faulty p k = false /\
   exists q i,
     pid = Z.pos q /\ k_procs k !! q = Some i
     /\ waitable (p_pid p) (q, i) = true
     /\ waitpid pid p k =
          (Ret pid (emit (EvWaitpid pid pid) (tick p)),
           set_procs (<[q := reap i]> (k_procs k)) k))
  \/ waitpid pid p k = (Ret (-1) (emit (EvWaitpid pid (-1)) (tick p)), k).
Proof.
  unfold waitpid. destruct (faulty p k); [by right|].
  destruct pid as [|q|q]; try by right.
  destruct (k_procs k !! q) as [i|] eqn:Hq; [|by right].
  destruct (waitable (p_pid p) (q, i)) eqn:Hw; [|by right].
  left. split; [done|]. by exists q, i.
Qed.

Lemma pipe_cases p k :
  (faulty p k = false /\
   pipe p k =
     (Ret (0, (alloc_fd (p_fds p),
               alloc_fd (<[alloc_fd (p_fds p) := OPipeRead (k_next_pipe k)]>
                           (p_fds p))))
        (emit (EvPipe 0 (alloc_fd (p_fds p))
                 (alloc_fd (<[alloc_fd (p_fds p) := OPipeRead (k_next_pipe k)]>
                              (p_fds p))))
           (set_fds
              (<[alloc_fd (<[alloc_fd (p_fds p) := OPipeRead (k_next_pipe k)]>
                             (p_fds p)) := OPipeWrite (k_next_pipe k)]>
                 (<[alloc_fd (p_fds p) := OPipeRead (k_next_pipe k)]>
                    (p_fds p)))
              (tick p))),
      bump_pipe k))
  \/ (faulty p k = true /\
      pipe p k = (Ret (-1, (0, 0)) (emit (EvPipe (-1) 0 0) (tick p)), k)).
Proof. unfold pipe. destruct (faulty p k); [by right|by left]. Qed.

(** ** A leaf command at the top level *)

Ltac trace_eq :=
  apply new_events_app; psimpl; rewrite <- ?List.app_assoc; reflexivity.

(** What execute_simple_command does in the calling process for an
    external command: one fork, and one wait when the fork went through;
    it returns 0 whatever happened to the child. *)
Lemma execute_simple_command_external s p k :
  builtin s = BUILTIN_NONE ->
  exists p' k',
    execute_simple_command s p k = (Ret 0 p', k')
    /\ p_fds p' = p_fds p /\ p_cwd p' = p_cwd p /\ p_pid p' = p_pid p
    /\ ((faulty p k = true /\ k' = k
         /\ new_events p p' = [EvFork (-1); EvPerror (Some "fork")])
        \/ (faulty p k = false /\
            exists o cp' k1 r reaped,
              execute_nonbuiltin s (child_of (k_next_pid k) p) (bump_pid k)
                = (Halt o cp', k1)
              /\ new_events p p' =
                   EvFork (Z.pos (k_next_pid k)) :: EvWait r
                   :: (if r =? -1 then [EvPerror (Some "wait")] else [])
              /\ k_procs k' !! k_next_pid k =
                   Some (PInfo (p_pid p) o cp' reaped)
              /\ k_next_pid k' = Pos.succ (k_next_pid k))).
Proof.
  intros Hext. unfold execute_simple_command. rewrite Hext.
  destruct (fork_cases (execute_nonbuiltin s;; ret 0) p k)
    as [(Hf & r & k2 & Hchild & Hfork)|[Hf Hfork]];
    rewrite (bind_of_Ret _ _ _ _ _ _ _ Hfork).
  2:{ change (-1 =? -1) with true. cbv iota.
      eexists _, k. split; [reflexivity|]. psimpl.
      repeat (split; [done|]). left. repeat (split; [done|]).
      trace_eq. }
  change (Z.pos (k_next_pid k) =? -1) with false. cbv iota.
  destruct (execute_nonbuiltin_spec s (child_of (k_next_pid k) p) (bump_pid k))
    as (o & cp' & fs & evs & Hnb & _).
  rewrite (bind_of_Halt _ _ _ _ _ _ _ Hnb) in Hchild.
  injection Hchild as <- <-.
  set (p1 := emit _ (tick p)) in *.
  set (k3 := set_procs _ _) in *.
  assert (k_procs k3 !! k_next_pid k = Some (PInfo (p_pid p) o cp' false))
    as Hentry by (subst k3; psimpl; apply lookup_insert_eq).
  rewrite bind_assoc.
  destruct (wait_cases p1 k3) as [(_ & q & i & Hq & _ & Hwait)|Hwait];
    rewrite (bind_of_Ret _ _ _ _ _ _ _ Hwait).
  - change (Z.pos q =? -1) with false. cbv iota.
    eexists _, _. split; [reflexivity|]. subst p1. psimpl.
    repeat (split; [done|]). right. split; [done|].
    destruct (decide (q = k_next_pid k)) as [->|Hne].
    + exists o, cp', (set_files fs (bump_pid k)), (Z.pos (k_next_pid k)), true.
      split; [done|]. split.
      { trace_eq. }
      rewrite lookup_insert_eq. rewrite Hentry in Hq. injection Hq as <-.
      done.
    + exists o, cp', (set_files fs (bump_pid k)), (Z.pos q), false.
      split; [done|]. split.
      { trace_eq. }
      rewrite lookup_insert_ne by done. done.
  - change (-1 =? -1) with true. cbv iota.
    eexists _, _. split; [reflexivity|]. subst p1. psimpl.
    repeat (split; [done|]). right. split; [done|].
    exists o, cp', (set_files fs (bump_pid k)), (-1), false.
    split; [done|]. split.
    { trace_eq. }
    done.
Qed.

(** ** Redirections of an external command *)

Lemma redirections_clean s p p1 p2 :
  clean (redirections_of s (alloc_fd (p_fds p)) (alloc_fd (p_fds p1))
           (alloc_fd (p_fds p2))) = true.
Proof.
  unfold clean, redirections_of, triplet_when, triplet.
  destruct (s_in s), (s_out s), (s_err s); simpl;
    by rewrite ?alloc_fd_not_minus_one.
Qed.

(** C8.  execute_nonbuiltin never returns.  Either every redirection that
    is configured performs its open, dup2 and close in full, in the order
    input, output, error, and only then is execvp called; or a call of a
    redirection fails, and the process reports it and exits with status 1
    without calling execvp.  The parent that forked the process for a
    top-level command forks once, does not touch its descriptors, and
    returns 0 whatever the outcome of the child, which the kernel
    records. *)
Theorem redirections_complete_before_exec :
  forall s p k,
    (exists o p' k',
       execute_nonbuiltin s p k = (Halt o p', k')
       /\ ((exists fdi fdo fde ok,
              new_events p p' =
                redirections_of s fdi fdo fde ++ exec_events (tokens s) ok
              /\ clean (redirections_of s fdi fdo fde) = true
              /\ (ok = false -> o = Exited 1))
           \/ (o = Exited 1 /\ fatal_end (new_events p p')
               /\ existsb is_execvp (new_events p p') = false)))
    /\ (builtin s = BUILTIN_NONE ->
        exists p'' k'',
          execute_simple_command s p k = (Ret 0 p'', k'')
          /\ p_fds p'' = p_fds p /\ p_cwd p'' = p_cwd p
          /\ (new_events p p'' = [EvFork (-1); EvPerror (Some "fork")]
              \/ exists o cp' k1 r reaped,
                   execute_nonbuiltin s (child_of (k_next_pid k) p)
                     (bump_pid k) = (Halt o cp', k1)
                   /\ new_events p p'' =
                        EvFork (Z.pos (k_next_pid k)) :: EvWait r
                        :: (if r =? -1 then [EvPerror (Some "wait")] else [])
                   /\ k_procs k'' !! k_next_pid k =
                        Some (PInfo (p_pid p) o cp' reaped))).
Proof.
  intros s p k. split.
  - destruct (execute_nonbuiltin_spec s p k)
      as (o & p' & fs & evs & Heq & Htrace & Hcases).
    exists o, p', (set_files fs k). split; [done|].
    rewrite (new_events_app _ _ _ Htrace).
    destruct Hcases
      as [(p1 & fs1 & p2 & fs2 & p3 & _ & _ & _ & ok & -> & _ & Hok)|Hfail];
      [left|by right].
    exists (alloc_fd (p_fds p)), (alloc_fd (p_fds p1)),
      (alloc_fd (p_fds p2)), ok.
    split; [done|]. split; [apply redirections_clean|].
    intros ->. done.
  - intros Hext.
    destruct (execute_simple_command_external s p k Hext)
      as (p'' & k'' & Heq & Hfds & Hcwd & _ & Hcases).
    exists p'', k''. repeat (split; [done|]).
    destruct Hcases
      as [(_ & _ & Hev)|(_ & o & cp' & k1 & r & reaped & Hc & Hev & Hq & _)].
    + by left.
    + right. by exists o, cp', k1, r, reaped.
Qed.

Lemma redirections_complete_before_exec_witness :
  builtin ls_with_stderr = BUILTIN_NONE
  /\ exists p'' k'',
       execute_simple_command ls_with_stderr shell0 kernel0 = (Ret 0 p'', k'')
       /\ p_fds p'' = p_fds shell0 /\ p_cwd p'' = p_cwd shell0
       /\ (new_events shell0 p'' = [EvFork (-1); EvPerror (Some "fork")]
           \/ exists o cp' k1 r reaped,
                execute_nonbuiltin ls_with_stderr
                  (child_of (k_next_pid kernel0) shell0) (bump_pid kernel0)
                  = (Halt o cp', k1)
                /\ new_events shell0 p'' =
                     EvFork (Z.pos (k_next_pid kernel0)) :: EvWait r
                     :: (if r =? -1 then [EvPerror (Some "wait")] else [])
                /\ k_procs k'' !! k_next_pid kernel0 =
                     Some (PInfo (p_pid shell0) o cp' reaped)).
Proof.
  split; [reflexivity|].
  apply (proj2 (redirections_complete_before_exec ls_with_stderr shell0
                  kernel0)).
  reflexivity.
Defined.

Lemma rewired_lookup_target f flags target (fds : gmap Z ofd) :
  is_Some (fds !! target) ->
  rewired f flags target fds !! target = Some (OFile f flags).
Proof.
  intros [o Ho]. unfold rewired.
  assert (alloc_fd fds <> target) as Hne
    by (intros <-; rewrite alloc_fd_fresh in Ho; done).
  rewrite lookup_delete_ne by done. apply lookup_insert_eq.
Qed.

Lemma rewired_lookup_other f flags target (fds : gmap Z ofd) j :
  is_Some (fds !! j) -> j <> target ->
  rewired f flags target fds !! j = fds !! j.
Proof.
  intros [o Ho] Hj. unfold rewired.
  assert (alloc_fd fds <> j) as Hne
    by (intros <-; rewrite alloc_fd_fresh in Ho; done).
  rewrite lookup_delete_ne by done.
  rewrite lookup_insert_ne by done. by rewrite lookup_insert_ne.
Qed.

Lemma files_after_open_other f flags mode umask (fs fs' : gmap string file) g :
  files_after_open f flags mode umask fs = Some fs' ->
  g <> f -> fs' !! g = fs !! g.
Proof.
  unfold files_after_open. intros Hopen Hg.
  destruct (fs !! f) as [old|];
    [destruct (truncates flags)|destruct (creates flags)];
    simplify_eq; try done; by rewrite lookup_insert_ne.
Qed.

Lemma files_after_open_read_only f mode umask (fs fs' : gmap string file) :
  files_after_open f O_RDONLY mode umask fs = Some fs' -> fs' = fs.
Proof.
  unfold files_after_open, O_RDONLY. change (truncates 0) with false.
  change (creates 0) with false.
  destruct (fs !! f); intros H; by simplify_eq.
Qed.

Lemma files_after_open_create_trunc f mode umask (fs fs' : gmap string file) :
  files_after_open f rw_create_trunc mode umask fs = Some fs' ->
  fs' !! f =
    Some (File (match fs !! f with
                | Some old => f_mode old
                | None => Z.land (default 0 mode) (Z.lnot umask)
                end) "").
Proof.
  unfold files_after_open. change (truncates rw_create_trunc) with true.
  change (creates rw_create_trunc) with true.
  destruct (fs !! f); intros H; simplify_eq; apply lookup_insert_eq.
Qed.

(** A redirection block by cases, with what it leaves of the process and
    of the files when it ends the process. *)
Lemma redirect_outcomes path flags mode target name p k :
  0 <= target ->
  (exists f fs,
     path = Some f
     /\ files_after_open f flags mode (p_umask p) (k_files k) = Some fs
     /\ redirect path flags mode target name p k =
          (Ret tt (redirected path f flags mode target p), set_files fs k))
  \/ (exists p',
        redirect path flags mode target name p k = (Halt (Exited 1) p', k)
        /\ p_trace p' =
             p_trace p ++ [EvOpen path flags mode (-1); EvPerror name; EvExit 1]
        /\ p_fds p' = p_fds p)
  \/ (exists f fs p' evs,
        path = Some f
        /\ files_after_open f flags mode (p_umask p) (k_files k) = Some fs
        /\ redirect path flags mode target name p k =
             (Halt (Exited 1) p', set_files fs k)
        /\ p_trace p' =
             p_trace p ++ EvOpen path flags mode (alloc_fd (p_fds p)) :: evs
        /\ (evs = [EvDup2 (alloc_fd (p_fds p)) target (-1);
                   EvPerror (Some "dup2"); EvExit 1]
            \/ evs = [EvDup2 (alloc_fd (p_fds p)) target target;
                      EvClose (alloc_fd (p_fds p)) (-1);
                      EvPerror (Some "close"); EvExit 1])
        /\ (forall j, is_Some (p_fds p !! j) -> j <> target ->
              p_fds p' !! j = p_fds p !! j)).
Proof.
  intros Htarget. unfold redirect.
  destruct (open_cases path flags mode p k)
    as [(_ & f & fs & Hpath & Hfs & Hopen)|Hopen];
    rewrite (bind_of_Ret _ _ _ _ _ _ _ Hopen).
  2:{ right. left. change (-1 =? -1) with true. cbv iota.
      eexists. split; [reflexivity|]. psimpl.
      rewrite <- !List.app_assoc. done. }
  rewrite alloc_fd_not_minus_one. cbv iota.
  set (fd := alloc_fd (p_fds p)) in *.
  set (p1 := emit _ (set_fds _ (tick p))) in *.
  assert (p_fds p1 !! fd = Some (OFile f flags)) as Hfd
    by (subst p1; psimpl; apply lookup_insert_eq).
  assert (forall j, is_Some (p_fds p !! j) -> j <> fd) as Hfresh.
  { intros j [o Ho] ->. subst fd. by rewrite alloc_fd_fresh in Ho. }
  destruct (dup2_cases fd target p1 (set_files fs k))
    as [(_ & o & Ho & Hdup)|Hdup];
    rewrite (bind_of_Ret _ _ _ _ _ _ _ Hdup).
  2:{ right. right. change (-1 =? -1) with true. cbv iota.
      eexists f, fs, _, _. split; [done|]. split; [done|].
      split; [reflexivity|]. subst p1. psimpl.
      rewrite <- !List.app_assoc. split; [reflexivity|].
      split; [by left|]. intros j Hj _.
      rewrite lookup_insert_ne; [done|]. intros <-. by apply (Hfresh fd). }
  rewrite Hfd in Ho. injection Ho as <-.
  assert ((target =? -1) = false) as Htpos by lia.
  rewrite Htpos. cbv iota.
  set (p2 := emit _ (set_fds _ (tick p1))) in *.
  destruct (close_cases fd p2 (set_files fs k))
    as [(_ & _ & Hclose)|Hclose];
    rewrite (bind_of_Ret _ _ _ _ _ _ _ Hclose).
  - left. exists f, fs. change (0 =? -1) with false. cbv iota.
    split; [done|]. split; [done|]. unfold ret, redirected, rewired, triplet.
    subst p2 p1. unfold emit, tick, set_fds. psimpl.
    rewrite <- !List.app_assoc. reflexivity.
  - right. right. change (-1 =? -1) with true. cbv iota.
    eexists f, fs, _, _. split; [done|]. split; [done|].
    split; [reflexivity|]. subst p2 p1. psimpl.
    rewrite <- !List.app_assoc. split; [reflexivity|].
    split; [by right|]. intros j Hj Hne.
    rewrite lookup_insert_ne by done.
    rewrite lookup_insert_ne; [done|]. intros <-. by apply (Hfresh fd).
Qed.

(** O_TRUNC on a file that is empty leaves it as it is, and an open
    removes no file. *)
Lemma files_after_open_keeps_empty f flags mode umask
    (fs fs' : gmap string file) g file :
  files_after_open f flags mode umask fs = Some fs' ->
  fs !! g = Some file -> f_data file = "" ->
  exists file',
    fs' !! g = Some file' /\ f_data file' = ""
    /\ f_mode file' = f_mode file.
Proof.
  unfold files_after_open. intros Hopen Hg Hdata.
  destruct (decide (g = f)) as [->|Hne].
  - rewrite Hg in Hopen. destruct (truncates flags); simplify_eq.
    + eexists. rewrite lookup_insert_eq. done.
    + by exists file.
  - exists file. split; [|done].
    destruct (fs !! f) as [old|];
      [destruct (truncates flags)|destruct (creates flags)];
      simplify_eq; try done; by rewrite lookup_insert_ne.
Qed.

(** What follows a redirection in execute_nonbuiltin, that is a further
    redirection block and execute_command, ends the process; it leaves
    the descriptors that were open as they are, but for the one it
    redirects, and it changes the files by its open at most. *)
Lemma redirection_then_command guard path flags mode target name toks p k :
  0 <= target ->
  exists o p' k' evs,
    (redirect_when guard path flags mode target name ;;
     execute_command toks) p k = (Halt o p', k')
    /\ p_trace p' = p_trace p ++ evs
    /\ (forall j, is_Some (p_fds p !! j) -> j <> target ->
          p_fds p' !! j = p_fds p !! j)
    /\ (k' = k
        \/ exists f fs,
             files_after_open f flags mode (p_umask p) (k_files k) = Some fs
             /\ k' = set_files fs k).
Proof.
  intros Htarget.
  assert (forall q kq,
            exists o q' evs,
              execute_command toks q kq = (Halt o q', kq)
              /\ p_trace q' = p_trace q ++ evs /\ p_fds q' = p_fds q)
    as Hcommand.
  { intros q kq.
    destruct (execute_command_cases toks q kq) as [(f & _ & ->)| ->];
      eexists _, _, _; (split; [reflexivity|]); psimpl;
      rewrite <- ?List.app_assoc; done. }
  destruct guard as [g|]; cbn [redirect_when].
  2:{ unfold bind at 1. cbn [ret].
      destruct (Hcommand p k) as (o & p' & evs & -> & Htrace & Hfds).
      exists o, p', k, evs. split; [done|]. split; [done|].
      split; [by intros j _ _; rewrite Hfds|by left]. }
  destruct (redirect_outcomes path flags mode target name p k Htarget)
    as [(f & fs & -> & Hfs & Hrun)
       |[(p' & Hrun & Htrace & Hfds)
        |(f & fs & p' & evs & -> & Hfs & Hrun & Htrace & _ & Hfds)]].
  - rewrite (bind_of_Ret _ _ _ _ _ _ _ Hrun).
    destruct (Hcommand (redirected (Some f) f flags mode target p)
                (set_files fs k)) as (o & p' & evs & -> & Htrace & Hfds).
    eexists o, p', _, _. split; [reflexivity|]. split.
    { rewrite Htrace. unfold redirected. psimpl.
      rewrite <- List.app_assoc. reflexivity. }
    split; [|right; by exists f, fs].
    intros j Hj Hne. rewrite Hfds. unfold redirected. psimpl.
    by apply rewired_lookup_other.
  - rewrite (bind_of_Halt _ _ _ _ _ _ _ Hrun).
    eexists _, p', k, _. split; [reflexivity|]. split; [exact Htrace|].
    split; [by intros j _ _; rewrite Hfds|by left].
  - rewrite (bind_of_Halt _ _ _ _ _ _ _ Hrun).
    eexists _, p', _, _. split; [reflexivity|]. split; [exact Htrace|].
    split; [exact Hfds|right; by exists f, fs].
Qed.

(** The block of the output redirection and what follows it, from the
    state [p1] the input redirection left. *)
Lemma output_block s path p1 k :
  exists o p' k' fd post,
    (redirect (Some path) rw_create_trunc (Some mode_0664) STDOUT_FILENO
       (Some path) ;;
     redirect_when (s_err s) (s_in s) rw_create_trunc (Some mode_0664)
       STDERR_FILENO (s_err s) ;;
     execute_command (tokens s)) p1 k = (Halt o p', k')
    /\ p_trace p' =
         p_trace p1
         ++ EvOpen (Some path) rw_create_trunc (Some mode_0664) fd :: post
    /\ ((fd = -1 /\ post = [EvPerror (Some path); EvExit 1]
         /\ o = Exited 1 /\ k' = k)
        \/ (fd = alloc_fd (p_fds p1) /\ 0 <= fd
            /\ (exists file,
                  k_files k' !! path = Some file /\ f_data file = ""
                  /\ f_mode file =
                       match k_files k !! path with
                       | Some old => f_mode old
                       | None => Z.land mode_0664 (Z.lnot (p_umask p1))
                       end)
            /\ ((o = Exited 1
                 /\ (post = [EvDup2 fd STDOUT_FILENO (-1);
                             EvPerror (Some "dup2"); EvExit 1]
                     \/ post = [EvDup2 fd STDOUT_FILENO STDOUT_FILENO;
                                EvClose fd (-1);
                                EvPerror (Some "close"); EvExit 1]))
                \/ exists post',
                     post = EvDup2 fd STDOUT_FILENO STDOUT_FILENO
                            :: EvClose fd 0 :: post'
                     /\ (is_Some (p_fds p1 !! STDOUT_FILENO) ->
                         p_fds p' !! STDOUT_FILENO
                         = Some (OFile path rw_create_trunc))))).
Proof.
  destruct (redirect_outcomes (Some path) rw_create_trunc (Some mode_0664)
              STDOUT_FILENO (Some path) p1 k)
    as [(f & fs & Hf & Hfs & Hrun)
       |[(p' & Hrun & Htrace & Hfds)
        |(f & fs & p' & evs & Hf & Hfs & Hrun & Htrace & Hevs & Hfds)]];
    [done| | |].
  - injection Hf as <-. rewrite (bind_of_Ret _ _ _ _ _ _ _ Hrun).
    set (p2 := redirected _ _ _ _ _ p1).
    destruct (redirection_then_command (s_err s) (s_in s) rw_create_trunc
                (Some mode_0664) STDERR_FILENO (s_err s) (tokens s) p2
                (set_files fs k))
      as (o & p' & k' & evs & -> & Htrace & Hfds & Hfiles); [done|].
    exists o, p', k', (alloc_fd (p_fds p1)),
      (EvDup2 (alloc_fd (p_fds p1)) STDOUT_FILENO STDOUT_FILENO
       :: EvClose (alloc_fd (p_fds p1)) 0 :: evs).
    split; [reflexivity|]. split.
    { rewrite Htrace. subst p2. unfold redirected, triplet. psimpl.
      rewrite <- List.app_assoc. reflexivity. }
    right. split; [done|]. split; [apply alloc_fd_nonneg|].
    pose proof (files_after_open_create_trunc _ _ _ _ _ Hfs) as Hfile.
    cbn [default] in Hfile. split.
    + destruct Hfiles as [->|(g & fs' & Hfs' & ->)]; psimpl.
      * eexists. split; [exact Hfile|]. done.
      * destruct (files_after_open_keeps_empty _ _ _ _ _ _ _ _ Hfs' Hfile)
          as (file' & Hlook & Hdata & Hmode); [done|].
        exists file'. split; [done|]. split; [done|]. by rewrite Hmode.
    + right. eexists. split; [reflexivity|]. intros Hopen.
      rewrite Hfds; [|subst p2; unfold redirected; psimpl|done].
      * subst p2. unfold redirected. psimpl. by apply rewired_lookup_target.
      * rewrite rewired_lookup_target by done. by eexists.
  - rewrite (bind_of_Halt _ _ _ _ _ _ _ Hrun).
    exists (Exited 1), p', k, (-1), [EvPerror (Some path); EvExit 1].
    split; [reflexivity|].
    split; [exact Htrace|]. by left.
  - injection Hf as <-. rewrite (bind_of_Halt _ _ _ _ _ _ _ Hrun).
    exists (Exited 1), p', (set_files fs k), (alloc_fd (p_fds p1)), evs.
    split; [reflexivity|]. split; [exact Htrace|]. right.
    split; [done|]. split; [apply alloc_fd_nonneg|].
    pose proof (files_after_open_create_trunc _ _ _ _ _ Hfs) as Hfile.
    cbn [default] in Hfile. split; [by eexists|]. by left.
Qed.

(** C9.  A command with an output path.  execute_nonbuiltin sets up the
    input redirection first: when that fails, the process exits with
    status 1 and the output path is not opened, so that the file is
    neither created nor emptied.  Otherwise the process opens the output
    path with O_CREAT | O_RDWR | O_TRUNC and mode 0664 (read and write for
    owner and group, read for others).  When this open goes through, the
    file exists and is empty from then on: it has kept its mode if it was
    there, and has mode 0664 less the umask if it was created; the
    process then makes the new descriptor its standard output with dup2
    and closes the new descriptor, or exits with status 1 right after
    the one of the two calls that failed.  After the close, descriptor 1
    refers to the file, provided it was open when the process started,
    whatever comes next: the error redirection, execvp, or the exit
    of the process on a failure of one of them. *)
Theorem output_redirection_opens_wires_and_closes :
  forall s path p k,
    s_out s = Some path ->
    (rw_create_trunc = Z.lor (Z.lor O_CREAT O_RDWR) O_TRUNC
     /\ Z.land rw_create_trunc O_ACCMODE = O_RDWR
     /\ creates rw_create_trunc = true
     /\ truncates rw_create_trunc = true
     /\ map (Z.testbit mode_0664) [8; 7; 6; 5; 4; 3; 2; 1; 0]
        = [true; true; false; true; true; false; true; false; false])
    /\ exists o p' k',
         execute_nonbuiltin s p k = (Halt o p', k')
         /\ ((is_Some (s_in s) /\ o = Exited 1 /\ k' = k
              /\ new_events p p'
                 ∈ failed_redirection (s_in s) O_RDONLY None STDIN_FILENO
                     (s_in s) (alloc_fd (p_fds p)))
             \/ exists p1 fd post,
                  went_through (s_in s) (s_in s) O_RDONLY None STDIN_FILENO
                    p (k_files k) p1 (k_files k)
                  /\ new_events p p' =
                       triplet_when (s_in s) (s_in s) O_RDONLY None
                         STDIN_FILENO (alloc_fd (p_fds p))
                       ++ EvOpen (Some path) rw_create_trunc (Some mode_0664)
                            fd
                       :: post
                  /\ ((fd = -1 /\ post = [EvPerror (Some path); EvExit 1]
                       /\ o = Exited 1 /\ k' = k)
                      \/ (fd = alloc_fd (p_fds p1) /\ 0 <= fd
                          /\ (exists file,
                                k_files k' !! path = Some file
                                /\ f_data file = ""
                                /\ f_mode file =
                                     match k_files k !! path with
                                     | Some old => f_mode old
                                     | None =>
                                         Z.land mode_0664
                                           (Z.lnot (p_umask p))
                                     end)
                          /\ ((o = Exited 1
                               /\ (post = [EvDup2 fd STDOUT_FILENO (-1);
                                           EvPerror (Some "dup2"); EvExit 1]
                                   \/ post = [EvDup2 fd STDOUT_FILENO
                                                STDOUT_FILENO;
                                              EvClose fd (-1);
                                              EvPerror (Some "close");
                                              EvExit 1]))
                              \/ exists post',
                                   post = EvDup2 fd STDOUT_FILENO STDOUT_FILENO
                                          :: EvClose fd 0 :: post'
                                   /\ (is_Some (p_fds p !! STDOUT_FILENO) ->
                                       p_fds p' !! STDOUT_FILENO
                                       = Some (OFile path rw_create_trunc)))))).
Proof.
  intros s path p k Hout. split; [by vm_compute|].
  rewrite execute_nonbuiltin_blocks, Hout. cbn [redirect_when].
  assert (forall p1,
            went_through (s_in s) (s_in s) O_RDONLY None STDIN_FILENO
              p (k_files k) p1 (k_files k) ->
            redirect_when (s_in s) (s_in s) O_RDONLY None STDIN_FILENO
              (s_in s) p k = (Ret tt p1, k) ->
            p_umask p1 = p_umask p
            /\ (is_Some (p_fds p !! STDOUT_FILENO) ->
                is_Some (p_fds p1 !! STDOUT_FILENO))) as Hkept.
  { intros p1 Hwent _.
    destruct (went_through_trace _ _ _ _ _ _ _ _ _ Hwent) as (_ & _ & _ & Hu).
    split; [done|]. intros Hopen. unfold went_through in Hwent.
    destruct (s_in s) as [g|].
    - destruct Hwent as (f & _ & _ & ->). unfold redirected. psimpl.
      by rewrite rewired_lookup_other.
    - by destruct Hwent as [-> _]. }
  assert (forall p1,
            went_through (s_in s) (s_in s) O_RDONLY None STDIN_FILENO
              p (k_files k) p1 (k_files k) ->
            redirect_when (s_in s) (s_in s) O_RDONLY None STDIN_FILENO
              (s_in s) p k = (Ret tt p1, k) ->
            exists o p' k',
              (redirect_when (s_in s) (s_in s) O_RDONLY None STDIN_FILENO
                 (s_in s) ;;
               redirect (Some path) rw_create_trunc (Some mode_0664)
                 STDOUT_FILENO (Some path) ;;
               redirect_when (s_err s) (s_in s) rw_create_trunc
                 (Some mode_0664) STDERR_FILENO (s_err s) ;;
               execute_command (tokens s)) p k = (Halt o p', k')
              /\ exists p1 fd post,
                   went_through (s_in s) (s_in s) O_RDONLY None STDIN_FILENO
                     p (k_files k) p1 (k_files k)
                   /\ new_events p p' =
                        triplet_when (s_in s) (s_in s) O_RDONLY None
                          STDIN_FILENO (alloc_fd (p_fds p))
                        ++ EvOpen (Some path) rw_create_trunc
                             (Some mode_0664) fd
                        :: post
                   /\ ((fd = -1 /\ post = [EvPerror (Some path); EvExit 1]
                        /\ o = Exited 1 /\ k' = k)
                       \/ (fd = alloc_fd (p_fds p1) /\ 0 <= fd
                           /\ (exists file,
                                 k_files k' !! path = Some file
                                 /\ f_data file = ""
                                 /\ f_mode file =
                                      match k_files k !! path with
                                      | Some old => f_mode old
                                      | None =>
                                          Z.land mode_0664
                                            (Z.lnot (p_umask p))
                                      end)
                           /\ ((o = Exited 1
                                /\ (post = [EvDup2 fd STDOUT_FILENO (-1);
                                            EvPerror (Some "dup2"); EvExit 1]
                                    \/ post = [EvDup2 fd STDOUT_FILENO
                                                 STDOUT_FILENO;
                                               EvClose fd (-1);
                                               EvPerror (Some "close");
                                               EvExit 1]))
                               \/ exists post',
                                    post = EvDup2 fd STDOUT_FILENO
                                             STDOUT_FILENO
                                           :: EvClose fd 0 :: post'
                                    /\ (is_Some (p_fds p !! STDOUT_FILENO) ->
                                        p_fds p' !! STDOUT_FILENO
                                        = Some (OFile path
                                                  rw_create_trunc))))))
    as Hgo.
  { intros p1 Hwent Hrun.
    destruct (Hkept p1 Hwent Hrun) as [Hu Hopen1].
    destruct (went_through_trace _ _ _ _ _ _ _ _ _ Hwent) as (T1 & _).
    rewrite (bind_of_Ret _ _ _ _ _ _ _ Hrun).
    destruct (output_block s path p1 k)
      as (o & p' & k' & fd & post & -> & Htrace & Hcases).
    exists o, p', k'. split; [reflexivity|]. exists p1, fd, post.
    split; [done|]. split.
    { apply new_events_app. rewrite Htrace, T1, <- List.app_assoc. done. }
    rewrite Hu in Hcases.
    destruct Hcases as [?|(Hfd & Hpos & Hfile & [?|(post' & Hpost & H1)])];
      [by left|right..]; repeat (split; [done|]); [by left|].
    right. exists post'. split; [done|]. intros Hopen. auto. }
  destruct (s_in s) as [fi|] eqn:Hin; cbn [redirect_when] in *.
  2:{ destruct (Hgo p) as (o & p' & k' & Hrun & Hrest); [done..|].
      exists o, p', k'. split; [exact Hrun|]. by right. }
  destruct (redirect_outcomes (Some fi) O_RDONLY None STDIN_FILENO (Some fi)
              p k)
    as [(f & fs & Hf & Hfs & Hrun)
       |[(p' & Hrun & Htrace & Hfds)
        |(f & fs & p' & evs & Hf & Hfs & Hrun & Htrace & Hevs & Hfds)]];
    [done| | |].
  - injection Hf as <-.
    apply files_after_open_read_only in Hfs as Hsame. subst fs.
    rewrite set_files_id in Hrun.
    destruct (Hgo (redirected (Some fi) fi O_RDONLY None STDIN_FILENO p))
      as (o & p' & k' & Hrun' & Hrest); [by exists fi|done|].
    exists o, p', k'. split; [exact Hrun'|]. by right.
  - rewrite (bind_of_Halt _ _ _ _ _ _ _ Hrun).
    exists (Exited 1), p', k. split; [reflexivity|]. left.
    split; [by eexists|]. split; [done|]. split; [done|].
    rewrite (new_events_app _ _ _ Htrace). apply list_elem_of_here.
  - injection Hf as <-.
    apply files_after_open_read_only in Hfs as Hsame. subst fs.
    rewrite set_files_id in Hrun.
    rewrite (bind_of_Halt _ _ _ _ _ _ _ Hrun).
    exists (Exited 1), p', k. split; [reflexivity|]. left.
    split; [by eexists|]. split; [done|]. split; [done|].
    rewrite (new_events_app _ _ _ Htrace). unfold failed_redirection.
    destruct Hevs as [-> | ->].
    + apply list_elem_of_further, list_elem_of_here.
    + apply list_elem_of_further, list_elem_of_further, list_elem_of_here.
Qed.

Lemma output_redirection_opens_wires_and_closes_witness :
  s_out echo_to_file = Some "out.txt"
  /\ is_Some (p_fds shell0 !! STDOUT_FILENO)
  /\ exists o p' k',
       execute_nonbuiltin echo_to_file shell0 kernel0 = (Halt o p', k')
       /\ o = Execed "echo" ["echo"; "hi"]
       /\ p_fds p' !! STDOUT_FILENO = Some (OFile "out.txt" rw_create_trunc)
       /\ exists file,
            k_files k' !! "out.txt" = Some file /\ f_data file = "".
Proof.
  split; [reflexivity|].
  assert (is_Some (p_fds shell0 !! STDOUT_FILENO)) as Hopen
    by (vm_compute; eexists; reflexivity).
  split; [exact Hopen|].
  destruct (proj2 (output_redirection_opens_wires_and_closes
                     echo_to_file "out.txt" shell0 kernel0 eq_refl))
    as (o & p' & k' & Hrun & Hcases).
  assert (o = Execed "echo" ["echo"; "hi"]) as Ho.
  { assert (ending (execute_nonbuiltin echo_to_file shell0 kernel0).1
            = Some (Execed "echo" ["echo"; "hi"])) as Hend
      by (vm_compute; reflexivity).
    rewrite Hrun in Hend. by injection Hend. }
  exists o, p', k'. split; [exact Hrun|]. split; [exact Ho|].
  destruct Hcases as [(_ & Hex & _)|(p1 & fd & post & _ & _ & Hcases)];
    [congruence|].
  destruct Hcases
    as [(_ & _ & Hex & _)
       |(_ & _ & (file & Hfile & Hdata & _)
         & [(Hex & _)|(post' & _ & Hfd)])]; [congruence|congruence|].
  split; [by apply Hfd|]. by exists file.
Defined.

(** C9 as stated, for every command with an output path, fails for
    [sort < missing > out.txt] run at the top level: the child exits
    right after the failed open of [missing]; it makes no call of open on
    [out.txt], and the file is not there afterwards. *)
Lemma output_file_is_not_opened_after_a_failed_input :
  let r := dispatch (Leaf sort_missing_to_file) shell0 kernel0 in
  s_out sort_missing_to_file = Some "out.txt"
  /\ builtin sort_missing_to_file = BUILTIN_NONE
  /\ r.1 = Ret CONTINUE (final_proc r.1)
  /\ (pi_end <$> record_of 2 r) = Some (Exited 1)
  /\ (p_trace <$> (pi_final <$> record_of 2 r))
     = Some [EvOpen (Some "missing") O_RDONLY None (-1);
             EvPerror (Some "missing"); EvExit 1]
  /\ (forall flags mode fd,
        EvOpen (Some "out.txt") flags mode fd
        ∉ [EvOpen (Some "missing") O_RDONLY None (-1);
           EvPerror (Some "missing"); EvExit 1])
  /\ k_files r.2 !! "out.txt" = None.
Proof.
  intros r. split; [reflexivity|]. split; [reflexivity|].
  split; [by vm_compute|]. split; [by vm_compute|]. split; [by vm_compute|].
  split; [|by vm_compute].
  intros flags mode fd Hin.
  repeat (apply elem_of_cons in Hin as [Hin|Hin]; [discriminate Hin|]).
  by apply elem_of_nil in Hin.
Qed.

(** ** The process that orchestrates a pipe *)

Lemma fatal_never_returns {A : Type} msg status p k (a : A) p' k' :
  (perror msg ;; exit status) p k <> (Ret a p', k').
Proof. done. Qed.

(** A call whose result is tested against -1, with perror and exit on
    that branch: the caller goes on only with another result. *)
Lemma checked_call_returns {A : Type} (m : M Z) msg (g : Z -> M A)
    p k a p' k' :
  (r <- m ;; if r =? -1 then (perror msg ;; exit 1) else g r) p k
    = (Ret a p', k') ->
  exists r p1 k1,
    m p k = (Ret r p1, k1) /\ r <> -1 /\ g r p1 k1 = (Ret a p', k').
Proof.
  intros H. apply bind_Ret_inv in H as (r & p1 & k1 & Hm & Hg).
  destruct (Z.eqb_spec r (-1)) as [->|Hne]; [done|].
  by exists r, p1, k1.
Qed.

Lemma close_returns fd p k r p1 k1 :
  close fd p k = (Ret r p1, k1) -> r <> -1 ->
  r = 0 /\ k1 = k /\ is_Some (p_fds p !! fd) /\ faulty p k = false
  /\ p1 = emit (EvClose fd 0) (set_fds (delete fd (p_fds p)) (tick p)).
Proof.
  intros H Hr.
  destruct (close_cases fd p k) as [(Hf & Hs & Heq)|Heq];
    rewrite Heq in H; by simplify_eq.
Qed.

Lemma fork_returns child p k r p1 k1 :
  fork child p k = (Ret r p1, k1) -> r <> -1 ->
  r = Z.pos (k_next_pid k) /\ faulty p k = false
  /\ p1 = emit (EvFork r) (tick p)
  /\ exists res k2,
       child (child_of (k_next_pid k) p) (bump_pid k) = (res, k2)
       /\ k1 = set_procs
                 (<[k_next_pid k := child_info (p_pid p) res]> (k_procs k2))
                 k2.
Proof.
  intros H Hr.
  destruct (fork_cases child p k)
    as [(Hf & res & k2 & Hchild & Heq)|[Hf Heq]];
    rewrite Heq in H; simplify_eq.
  repeat (split; [done|]). by exists res, k2.
Qed.

Lemma waitpid_returns pid p k r p1 k1 :
  waitpid pid p k = (Ret r p1, k1) -> r <> -1 ->
  r = pid /\ faulty p k = false
  /\ p1 = emit (EvWaitpid pid pid) (tick p)
  /\ exists q i,
       pid = Z.pos q /\ k_procs k !! q = Some i
       /\ waitable (p_pid p) (q, i) = true
       /\ k1 = set_procs (<[q := reap i]> (k_procs k)) k.
Proof.
  intros H Hr.
  destruct (waitpid_cases pid p k)
    as [(Hf & q & i & Hpid & Hq & Hw & Heq)|Heq];
    rewrite Heq in H; simplify_eq.
  repeat (split; [done|]). by exists q, i.
Qed.

Lemma pipe_fds_closed (fds : gmap Z ofd) a b :
  let r := alloc_fd fds in
  let w := alloc_fd (<[r := a]> fds) in
  delete w (delete r (<[w := b]> (<[r := a]> fds))) = fds.
Proof.
  intros r w.
  pose proof (alloc_fd_fresh fds) as Hr. fold r in Hr.
  pose proof (alloc_fd_fresh (<[r := a]> fds)) as Hw. fold w in Hw.
  apply lookup_insert_None in Hw as [Hw Hne].
  rewrite delete_insert_ne by done. rewrite !delete_insert_eq.
  rewrite (delete_id fds r) by done. by apply delete_id.
Qed.

(** When execute_complex_command returns at a node, either the operator
    was not the pipe and nothing happened, or the caller made one pipe,
    forked twice, closed both ends of the pipe and waited for the two
    children; its descriptors are the ones it had. *)
Lemma execute_complex_command_node_returns oper c1 c2 p k v p' k' :
  execute_complex_command (Node oper c1 c2) p k = (Ret v p', k') ->
  v = 0 /\ p_fds p' = p_fds p /\ p_cwd p' = p_cwd p /\ p_pid p' = p_pid p
  /\ (((strcmp oper "|" =? 0) = false /\ p' = p /\ k' = k)
      \/ ((strcmp oper "|" =? 0) = true /\
          exists r w pid1 pid2,
            new_events p p' = orchestration r w pid1 pid2
            /\ p_fds p !! r = None /\ p_fds p !! w = None)).
Proof.
  cbn [execute_complex_command]. intros H.
  destruct (strcmp oper "|" =? 0).
  2:{ injection H as <- <- <-. repeat (split; [done|]). by left. }
  apply bind_Ret_inv in H as (res & p1 & k1 & Hpipe & H).
  destruct (pipe_cases p k) as [(_ & Heq)|(_ & Heq)];
    rewrite Heq in Hpipe; injection Hpipe as <- <- <-; [|done].
  cbv beta iota in H. change (0 =? -1) with false in H. cbv iota in H.
  set (r := alloc_fd (p_fds p)) in *.
  set (w := alloc_fd (<[r := OPipeRead (k_next_pipe k)]> (p_fds p))) in *.
  apply checked_call_returns in H as (pid1 & p2 & k2 & Hfork1 & Hpid1 & H).
  apply fork_returns in Hfork1 as (_ & _ & -> & _); [|done].
  apply checked_call_returns in H as (pid2 & p3 & k3 & Hfork2 & Hpid2 & H).
  apply fork_returns in Hfork2 as (_ & _ & -> & _); [|done].
  apply checked_call_returns in H as (r1 & p4 & k4 & Hclose1 & Hr1 & H).
  apply close_returns in Hclose1 as (-> & _ & _ & _ & ->); [|done].
  apply checked_call_returns in H as (r2 & p5 & k5 & Hclose2 & Hr2 & H).
  apply close_returns in Hclose2 as (-> & _ & _ & _ & ->); [|done].
  apply checked_call_returns in H as (r3 & p6 & k6 & Hwait1 & Hr3 & H).
  apply waitpid_returns in Hwait1 as (-> & _ & -> & _); [|done].
  apply checked_call_returns in H as (r4 & p7 & k7 & Hwait2 & Hr4 & H).
  apply waitpid_returns in Hwait2 as (-> & _ & -> & _); [|done].
  injection H as <- <- <-. psimpl.
  pose proof (alloc_fd_fresh (p_fds p)) as Hr. fold r in Hr.
  pose proof (alloc_fd_fresh (<[r := OPipeRead (k_next_pipe k)]> (p_fds p)))
    as Hw. fold w in Hw.
  apply lookup_insert_None in Hw as [Hw _].
  split; [done|]. split; [apply pipe_fds_closed|]. repeat (split; [done|]).
  right. split; [done|]. exists r, w, pid1, pid2.
  split; [|done]. unfold orchestration. trace_eq.
Qed.

(** ** The descriptors of the interpreter *)

Lemma execute_simple_command_cd s p k :
  builtin s = BUILTIN_CD ->
  exists p' evs,
    execute_simple_command s p k = (Ret 0 p', k)
    /\ p_fds p' = p_fds p
    /\ new_events p p' = evs
    /\ existsb touches_descriptors evs = false.
Proof.
  intros Hcd. unfold execute_simple_command. rewrite Hcd.
  destruct (execute_cd_spec (tokens s) p k)
    as (v & p1 & pre & Heq & Htrace & Hpre & Hfds & _).
  rewrite (bind_of_Ret _ _ _ _ _ _ _ Heq).
  assert (existsb touches_descriptors pre = false) as Hpre'.
  { apply not_true_is_false. intros Hex.
    apply existsb_exists in Hex as (e & Hin & He).
    rewrite forallb_forall in Hpre. specialize (Hpre e Hin).
    by destruct e. }
  destruct (v =? EXIT_FAILURE).
  - exists (emit (cd_diagnostic (tokens s)) p1),
      (pre ++ [cd_diagnostic (tokens s)]).
    split.
    { unfold cd_diagnostic. destruct (tokens s !! 1%nat); reflexivity. }
    split; [done|]. split.
    { apply new_events_app. psimpl. by rewrite Htrace, <- List.app_assoc. }
    rewrite existsb_app, Hpre'. unfold cd_diagnostic.
    by destruct (tokens s !! 1%nat).
  - exists p1, pre. split; [reflexivity|]. split; [done|].
    split; [by apply new_events_app|done].
Qed.

Ltac in_list H :=
  apply list_elem_of_In in H; simpl in H;
  intuition (try discriminate).

(** C7.  When an execution returns to the loop of [main], the descriptor
    table of the interpreter is the one it had before, so that standard
    input, output and error are as they were.  The interpreter itself
    called neither open nor dup2, and every descriptor it closed is an end
    of a pipe it had created, a descriptor that was not in use before the
    call. *)
Theorem interpreter_descriptors_unchanged :
  forall cmd p k v p' k',
    execute cmd p k = (Ret v p', k') ->
    p_fds p' = p_fds p
    /\ (p_fds p' !! STDIN_FILENO = p_fds p !! STDIN_FILENO
        /\ p_fds p' !! STDOUT_FILENO = p_fds p !! STDOUT_FILENO
        /\ p_fds p' !! STDERR_FILENO = p_fds p !! STDERR_FILENO)
    /\ existsb rewires (new_events p p') = false
    /\ (forall fd r,
          EvClose fd r ∈ new_events p p' ->
          p_fds p !! fd = None
          /\ exists a b,
               EvPipe 0 a b ∈ new_events p p' /\ (fd = a \/ fd = b)).
Proof.
  intros cmd p k v p' k' Hrun.
  assert (p_fds p' = p_fds p
          /\ existsb rewires (new_events p p') = false
          /\ (forall fd r,
                EvClose fd r ∈ new_events p p' ->
                p_fds p !! fd = None
                /\ exists a b,
                     EvPipe 0 a b ∈ new_events p p' /\ (fd = a \/ fd = b)))
    as (Hfds & Hrew & Hclose);
    [|rewrite Hfds; done].
  destruct cmd as [s|oper c1 c2]; unfold execute in Hrun.
  - destruct (builtin s) eqn:Hkind.
    + destruct (execute_simple_command_external s p k Hkind)
        as (p1 & k1 & Heq & Hfds & _ & _ & Hcases).
      rewrite Hrun in Heq. injection Heq as <- <- <-.
      split; [done|].
      destruct Hcases as [(_ & _ & ->)|(_ & o & cp' & k2 & r & b & _ & -> & _)].
      * split; [done|]. intros fd r Hin. in_list Hin.
      * split; [by destruct (r =? -1)|].
        intros fd r' Hin. destruct (r =? -1); in_list Hin.
    + destruct (execute_simple_command_cd s p k Hkind)
        as (p1 & evs & Heq & Hfds & Hev & Hnone).
      rewrite Hrun in Heq. injection Heq as <- <- <-.
      split; [done|]. rewrite Hev. split.
      * apply not_true_is_false. intros Hex.
        apply existsb_exists in Hex as (e & Hin & He).
        assert (existsb touches_descriptors evs = true) as Hyes
          by (apply existsb_exists; exists e; by destruct e).
        by rewrite Hnone in Hyes.
      * intros fd r Hin. apply list_elem_of_In in Hin.
        assert (existsb touches_descriptors evs = true) as Hyes
          by (apply existsb_exists; by exists (EvClose fd r)).
        by rewrite Hnone in Hyes.
    + unfold execute_simple_command in Hrun. rewrite Hkind in Hrun.
      injection Hrun as <- <- <-. unfold new_events.
      rewrite drop_all. split; [done|]. split; [done|].
      intros fd r Hin. in_list Hin.
  - apply execute_complex_command_node_returns in Hrun
      as (_ & Hfds & _ & _ &
          [(_ & -> & _)|(_ & r & w & pid1 & pid2 & -> & Hr & Hw)]).
    + unfold new_events. rewrite drop_all. split; [done|]. split; [done|].
      intros fd r Hin. in_list Hin.
    + split; [done|]. split; [done|].
      intros fd r' Hin. unfold orchestration in *.
      apply list_elem_of_In in Hin. simpl in Hin.
      destruct Hin as [?|[?|[?|[Hc|[Hc|[?|[?|[]]]]]]]]; try discriminate;
        injection Hc as <- <-; (split; [done|]); exists r, w;
        (split; [apply list_elem_of_In; simpl; by left|]); auto.
Qed.

Lemma interpreter_descriptors_unchanged_witness :
  let cmd := Node "|" (Leaf (external ["ls"])) (Leaf (external ["wc"; "-l"])) in
  let r := execute cmd shell0 kernel0 in
  r.1 = Ret 0 (final_proc r.1)
  /\ p_fds (final_proc r.1) = p_fds shell0.
Proof.
  intros cmd r.
  assert (r = (Ret 0 (final_proc r.1), r.2)) as Hrun
    by (vm_compute; reflexivity).
  split; [by rewrite Hrun at 1|].
  apply (interpreter_descriptors_unchanged cmd shell0 kernel0 0
           (final_proc r.1) r.2 Hrun).
Defined.

(** ** Failures while setting up pipes and redirections *)

Lemma execute_complex_command_node oper cmd1 cmd2 :
  execute_complex_command (Node oper cmd1 cmd2) =
    if strcmp oper "|" =? 0 then
      res <- pipe ;;
      let '(r, (pfd0, pfd1)) := res in
      if r =? -1 then (perror (Some "pipe") ;; exit 1)
      else
        pid1 <- fork (piped_child pfd0 pfd1 STDOUT_FILENO
                        (execute_complex_command cmd1)) ;;
        if pid1 =? -1 then (perror (Some "fork") ;; exit 1)
        else
          pid2 <- fork (piped_child pfd1 pfd0 STDIN_FILENO
                          (execute_complex_command cmd2)) ;;
          if pid2 =? -1 then (perror (Some "fork") ;; exit 1)
          else
            r <- close pfd0 ;;
            if r =? -1 then (perror (Some "close") ;; exit 1)
            else
              r <- close pfd1 ;;
              if r =? -1 then (perror (Some "close") ;; exit 1)
              else
                r <- waitpid pid1 ;;
                if r =? -1 then (perror (Some "waitpid") ;; exit 1)
                else
                  r <- waitpid pid2 ;;
                  if r =? -1 then (perror (Some "waitpid") ;; exit 1)
                  else ret 0
    else ret 0.
Proof. reflexivity. Qed.

Section Discipline.

(** [E] is what is asked of the records of the kernel: it holds of the
    record of every child that followed the discipline, and does not
    depend on the child having been waited for. *)
Variable E : positive -> pinfo -> Prop.
Hypothesis E_orderly : forall q i, died_orderly i -> E q i.
Hypothesis E_reap : forall q i, E q i -> E q (reap i).

Lemma clean_app l1 l2 : clean (l1 ++ l2) = clean l1 && clean l2.
Proof. apply forallb_app. Qed.

Lemma orderly_ret {A : Type} (a : A) : orderly E (ret a).
Proof.
  intros p k old cur Hk Htrace Hcur. exists cur. simpl.
  split; [done|]. split; [by left|done].
Qed.

Lemma orderly_bind {A B : Type} (m : M A) (f : A -> M B) :
  orderly E m -> (forall a, orderly E (f a)) -> orderly E (bind m f).
Proof.
  intros Hm Hf p k old cur Hk Htrace Hcur.
  destruct (Hm p k old cur Hk Htrace Hcur) as (cur1 & Ht1 & Hfat1 & Hk1).
  unfold bind. destruct (m p k) as [[a p1|o p1] k1]; simpl in *.
  - destruct Hfat1 as [Hclean|[_ ?]]; [|done].
    apply (Hf a p1 k1 old cur1); done.
  - exists cur1. done.
Qed.

Lemma orderly_if {A : Type} (b : bool) (m1 m2 : M A) :
  orderly E m1 -> orderly E m2 -> orderly E (if b then m1 else m2).
Proof. by destruct b. Qed.

(** A call that is not one of the set-up calls, or the report and the
    exit that follow a failure of such a call elsewhere. *)
Lemma orderly_quiet {A : Type} (m : M A) :
  (forall p k,
     kernel_ok E k ->
     exists evs,
       p_trace (final_proc (m p k).1) = p_trace p ++ evs
       /\ clean evs = true /\ kernel_ok E (m p k).2) ->
  orderly E m.
Proof.
  intros Hm p k old cur Hk Htrace Hcur.
  destruct (Hm p k Hk) as (evs & Ht & Hclean & Hk1).
  exists (cur ++ evs). rewrite Ht, Htrace, <- List.app_assoc.
  split; [done|]. split; [|done].
  left. by rewrite clean_app, Hcur, Hclean.
Qed.

(** The pattern of every set-up call of shell.c: the call, the test of
    its result, perror and exit(1) on failure. *)
Lemma orderly_checked {A B : Type} (m : M A) (bad : A -> bool) msg
    (g : A -> M B) :
  one_event E m bad -> (forall a, bad a = false -> orderly E (g a)) ->
  orderly E (a <- m ;; if bad a then (perror msg ;; exit 1) else g a).
Proof.
  intros Hm Hg p k old cur Hk Htrace Hcur.
  destruct (Hm p k Hk) as (a & p1 & k1 & e & Heq & Ht1 & He & Hk1).
  rewrite (bind_of_Ret _ _ _ _ _ _ _ Heq).
  destruct (bad a) eqn:Hbad.
  - exists (cur ++ [e; EvPerror msg; EvExit 1]). simpl.
    rewrite Ht1, Htrace, <- !List.app_assoc. split; [done|].
    split; [|done]. right. split; [|done].
    apply fatal_end_intro; congruence.
  - apply (Hg a Hbad p1 k1 old (cur ++ [e])); [done| |].
    + by rewrite Ht1, Htrace, <- List.app_assoc.
    + rewrite clean_app, Hcur. unfold clean. simpl. by rewrite He.
Qed.

Lemma one_event_open path flags mode :
  one_event E (open path flags mode) (fun r => r =? -1).
Proof.
  intros p k Hk.
  destruct (open_cases path flags mode p k)
    as [(_ & f & fs & _ & _ & Heq)|Heq]; rewrite Heq.
  - eexists _, _, _, _. split; [done|]. split; [done|]. split; [done|].
    done.
  - eexists _, _, _, _. split; [done|]. split; [done|]. split; done.
Qed.

Lemma one_event_dup2 oldfd newfd :
  0 <= newfd -> one_event E (dup2 oldfd newfd) (fun r => r =? -1).
Proof.
  intros Hnew p k Hk.
  destruct (dup2_cases oldfd newfd p k) as [(_ & o & _ & Heq)|Heq];
    rewrite Heq.
  - eexists _, _, _, _. split; [done|]. split; [done|]. split; done.
  - eexists _, _, _, _. split; [done|]. split; [done|]. split; done.
Qed.

Lemma one_event_close fd : one_event E (close fd) (fun r => r =? -1).
Proof.
  intros p k Hk.
  destruct (close_cases fd p k) as [(_ & _ & Heq)|Heq]; rewrite Heq.
  - eexists _, _, _, _. split; [done|]. split; [done|]. split; done.
  - eexists _, _, _, _. split; [done|]. split; [done|]. split; done.
Qed.

Lemma one_event_pipe : one_event E pipe (fun res => res.1 =? -1).
Proof.
  intros p k Hk.
  destruct (pipe_cases p k) as [(_ & Heq)|(_ & Heq)]; rewrite Heq.
  - eexists _, _, _, _. split; [done|]. split; [done|]. split; done.
  - eexists _, _, _, _. split; [done|]. split; [done|]. split; done.
Qed.

(** fork: the child starts with an empty trace, and its record is as
    asked when its code is orderly. *)
Lemma one_event_fork child :
  orderly E child -> one_event E (fork child) (fun r => r =? -1).
Proof.
  intros Hchild p k Hk.
  destruct (fork_cases child p k)
    as [(_ & r & k2 & Hrun & Heq)|(_ & Heq)]; rewrite Heq.
  2:{ eexists _, _, _, _. split; [done|]. split; [done|]. split; done. }
  eexists _, _, _, _. split; [done|]. split; [done|]. split; [done|].
  destruct (Hchild (child_of (k_next_pid k) p) (bump_pid k) [] [])
    as (cur' & Ht & Hfat & Hk2); [done..|].
  rewrite Hrun in Ht, Hfat, Hk2. simpl in Ht, Hfat, Hk2.
  intros q i Hq. psimpl.
  destruct (decide (q = k_next_pid k)) as [->|Hne].
  - rewrite lookup_insert_eq in Hq. injection Hq as <-.
    apply E_orderly. unfold died_orderly.
    destruct r as [v cp'|o cp']; simpl in *; rewrite Ht.
    + destruct Hfat as [Hclean|[_ ?]]; [by left|done].
    + done.
  - rewrite lookup_insert_ne in Hq by done. by apply Hk2.
Qed.

Lemma orderly_checked_as {A B : Type} (m : M A) (bad : A -> bool) msg
    (g : A -> M B) (f : A -> M B) :
  (forall a p k,
     f a p k = (if bad a then (perror msg ;; exit 1) else g a) p k) ->
  one_event E m bad -> (forall a, bad a = false -> orderly E (g a)) ->
  orderly E (bind m f).
Proof.
  intros Hf Hm Hg p k old cur Hk Htrace Hcur.
  rewrite (bind_ext m m f
             (fun a => if bad a then (perror msg ;; exit 1) else g a))
    by done.
  by apply (orderly_checked m bad msg g Hm Hg p k old cur).
Qed.

Lemma orderly_report_and_exit {A : Type} msg :
  orderly E (perror msg ;; exit 1 : M A).
Proof.
  apply orderly_quiet. intros p k Hk.
  exists [EvPerror msg; EvExit 1]. simpl.
  by rewrite <- List.app_assoc.
Qed.

Lemma orderly_exit {A : Type} status : orderly E (exit status : M A).
Proof. apply orderly_quiet. intros p k Hk. by exists [EvExit status]. Qed.

Lemma kernel_ok_reap k q i :
  kernel_ok E k -> k_procs k !! q = Some i ->
  kernel_ok E (set_procs (<[q := reap i]> (k_procs k)) k).
Proof.
  intros Hk Hq q' i' Hq'. psimpl.
  destruct (decide (q' = q)) as [->|Hne].
  - rewrite lookup_insert_eq in Hq'. injection Hq' as <-.
    apply E_reap. by apply Hk.
  - rewrite lookup_insert_ne in Hq' by done. by apply Hk.
Qed.

Lemma orderly_waitpid pid : orderly E (waitpid pid).
Proof.
  apply orderly_quiet. intros p k Hk.
  destruct (waitpid_cases pid p k)
    as [(_ & q & i & _ & Hq & _ & Heq)|Heq]; rewrite Heq.
  - exists [EvWaitpid pid pid]. simpl. split; [done|]. split; [done|].
    by apply kernel_ok_reap.
  - by exists [EvWaitpid pid (-1)].
Qed.

Lemma orderly_execute_command toks : orderly E (execute_command toks).
Proof.
  apply orderly_quiet. intros p k Hk.
  destruct (execute_command_cases toks p k) as [(f & _ & Heq)|Heq];
    rewrite Heq.
  - by exists [EvExecvp (Some f) toks true].
  - exists [EvExecvp (toks !! 0%nat) toks false; EvPerror (toks !! 0%nat);
            EvExit 1].
    simpl. by rewrite <- !List.app_assoc.
Qed.

Lemma orderly_redirect path flags mode target name :
  0 <= target -> orderly E (redirect path flags mode target name).
Proof.
  intros Htarget. unfold redirect.
  apply (orderly_checked (open path flags mode) (fun r => r =? -1));
    [apply one_event_open|]. intros fd _.
  apply (orderly_checked (dup2 fd target) (fun r => r =? -1));
    [by apply one_event_dup2|]. intros r _.
  apply (orderly_checked (close fd) (fun r => r =? -1));
    [apply one_event_close|]. intros r' _.
  apply orderly_ret.
Qed.

Lemma orderly_redirect_when guard path flags mode target name :
  0 <= target -> orderly E (redirect_when guard path flags mode target name).
Proof.
  intros Htarget. unfold redirect_when.
  destruct guard; [by apply orderly_redirect|apply orderly_ret].
Qed.

Lemma orderly_execute_nonbuiltin s : orderly E (execute_nonbuiltin s).
Proof.
  rewrite execute_nonbuiltin_blocks.
  repeat (apply orderly_bind; [by apply orderly_redirect_when|intros _]).
  apply orderly_execute_command.
Qed.

Lemma orderly_piped_child unused used target m :
  0 <= target -> orderly E m -> orderly E (piped_child unused used target m).
Proof.
  intros Htarget Hm. unfold piped_child.
  apply (orderly_checked (close unused) (fun r => r =? -1));
    [apply one_event_close|]. intros r1 _.
  apply (orderly_checked (dup2 used target) (fun r => r =? -1));
    [by apply one_event_dup2|]. intros r2 _.
  apply (orderly_checked (close used) (fun r => r =? -1));
    [apply one_event_close|]. intros r3 _.
  apply orderly_bind; [done|]. intros _. apply orderly_exit.
Qed.

(** Every process that runs execute_complex_command follows the
    discipline, and so do the processes it forks, at any depth. *)
Lemma orderly_execute_complex_command c :
  orderly E (execute_complex_command c).
Proof.
  induction c as [s|oper c1 IH1 c2 IH2].
  - cbn [execute_complex_command].
    apply orderly_bind; [apply orderly_execute_nonbuiltin|].
    intros _. apply orderly_ret.
  - rewrite execute_complex_command_node.
    apply orderly_if; [|apply orderly_ret].
    apply (orderly_checked_as pipe (fun res => res.1 =? -1) (Some "pipe")
             (fun res =>
                pid1 <- fork (piped_child res.2.1 res.2.2 STDOUT_FILENO
                                (execute_complex_command c1)) ;;
                if pid1 =? -1 then (perror (Some "fork") ;; exit 1)
                else
                  pid2 <- fork (piped_child res.2.2 res.2.1 STDIN_FILENO
                                  (execute_complex_command c2)) ;;
                  if pid2 =? -1 then (perror (Some "fork") ;; exit 1)
                  else
                    r <- close res.2.1 ;;
                    if r =? -1 then (perror (Some "close") ;; exit 1)
                    else
                      r <- close res.2.2 ;;
                      if r =? -1 then (perror (Some "close") ;; exit 1)
                      else
                        r <- waitpid pid1 ;;
                        if r =? -1 then (perror (Some "waitpid") ;; exit 1)
                        else
                          r <- waitpid pid2 ;;
                          if r =? -1 then (perror (Some "waitpid") ;; exit 1)
                          else ret 0)).
    { by intros [r [pfd0 pfd1]] p k. }
    { apply one_event_pipe. }
    intros [r [pfd0 pfd1]] _. cbn [fst snd].
    apply (orderly_checked (fork _) (fun r => r =? -1)).
    { apply one_event_fork. by apply orderly_piped_child. }
    intros pid1 _.
    apply (orderly_checked (fork _) (fun r => r =? -1)).
    { apply one_event_fork. by apply orderly_piped_child. }
    intros pid2 _.
    apply (orderly_checked (close pfd0) (fun r => r =? -1));
      [apply one_event_close|]. intros r1 _.
    apply (orderly_checked (close pfd1) (fun r => r =? -1));
      [apply one_event_close|]. intros r2 _.
    apply orderly_bind; [apply orderly_waitpid|]. intros r3.
    apply orderly_if; [apply orderly_report_and_exit|].
    apply orderly_bind; [apply orderly_waitpid|]. intros r4.
    apply orderly_if; [apply orderly_report_and_exit|apply orderly_ret].
Qed.

(** The records of the kernel stay as asked through a top-level command,
    whose child runs execute_nonbuiltin. *)
Lemma execute_simple_command_keeps_records s p k :
  kernel_ok E k -> kernel_ok E (execute_simple_command s p k).2.
Proof.
  intros Hk. unfold execute_simple_command. destruct (builtin s).
  - destruct (one_event_fork (execute_nonbuiltin s ;; ret 0)) with (p := p)
      (k := k) as (pid & p1 & k1 & e & Heq & _ & _ & Hk1); [|done|].
    { apply orderly_bind; [apply orderly_execute_nonbuiltin|].
      intros _. apply orderly_ret. }
    rewrite (bind_of_Ret _ _ _ _ _ _ _ Heq).
    destruct (pid =? -1); [done|]. rewrite bind_assoc.
    destruct (wait_cases p1 k1) as [(_ & q & i & Hq & _ & Hw)|Hw];
      rewrite (bind_of_Ret _ _ _ _ _ _ _ Hw).
    + change (Z.pos q =? -1) with false. simpl. by apply kernel_ok_reap.
    + done.
  - destruct (execute_cd_spec (tokens s) p k) as (v & p1 & evs & Heq & _).
    rewrite (bind_of_Ret _ _ _ _ _ _ _ Heq).
    destruct (v =? EXIT_FAILURE); [destruct (tokens s !! 1%nat)|]; done.
  - done.
Qed.

End Discipline.

Lemma kernel_ok_known k :
  kernel_ok (fun q i => died_orderly i \/ known_in k q i) k.
Proof. intros q i Hq. right. by exists i. Qed.

Lemma orderly_from_here (E : positive -> pinfo -> Prop) {A : Type}
    (m : M A) p k :
  orderly E m -> kernel_ok E k ->
  failure_is_fatal (new_events p (final_proc (m p k).1)) (ending (m p k).1)
  /\ kernel_ok E (m p k).2.
Proof.
  intros Hm Hk.
  destruct (Hm p k (p_trace p) []) as (cur' & Ht & Hfat & Hk');
    [done|by rewrite app_nil_r|done|].
  by rewrite (new_events_app _ _ _ Ht).
Qed.

(** C3, as amended.  In a process that runs execute_complex_command or
    execute_nonbuiltin, the interpreter itself included, a failure of
    pipe, fork, open, dup2 or close is reported with perror and followed
    at once by exit(1), which ends that process; the same holds of every
    process forked on the way, at any depth, and of the child of a
    top-level command.  When fork fails for a top-level external command,
    execute_simple_command reports it and returns 0: the interpreter goes
    on with its loop. *)
Theorem setup_failures_end_the_process :
  forall c s p k,
    (failure_is_fatal
       (new_events p (final_proc (execute_complex_command c p k).1))
       (ending (execute_complex_command c p k).1)
     /\ forall q i,
          k_procs (execute_complex_command c p k).2 !! q = Some i ->
          died_orderly i \/ known_in k q i)
    /\ failure_is_fatal
         (new_events p (final_proc (execute_nonbuiltin s p k).1))
         (ending (execute_nonbuiltin s p k).1)
    /\ (forall q i,
          k_procs (execute_simple_command s p k).2 !! q = Some i ->
          died_orderly i \/ known_in k q i)
    /\ (builtin s = BUILTIN_NONE -> faulty p k = true ->
        dispatch (Leaf s) p k =
          (Ret CONTINUE
             (emit (EvPerror (Some "fork")) (emit (EvFork (-1)) (tick p))),
           k)).
Proof.
  intros c s p k.
  set (E := fun q i => died_orderly i \/ known_in k q i).
  assert (forall q i, died_orderly i -> E q i) as E_orderly by (by left).
  assert (forall q i, E q i -> E q (reap i)) as E_reap.
  { intros q i [Hi|Hi]; [left|right]; done. }
  pose proof (kernel_ok_known k) as Hk. fold E in Hk.
  split; [|split; [|split]].
  - apply (orderly_from_here E); [|done].
    by apply orderly_execute_complex_command.
  - apply (orderly_from_here E); [|done].
    by apply orderly_execute_nonbuiltin.
  - by apply (execute_simple_command_keeps_records E).
  - intros Hext Hfault. unfold dispatch, execute, execute_simple_command.
    rewrite Hext, !bind_assoc.
    destruct (fork_cases (execute_nonbuiltin s ;; ret 0) p k)
      as [(Hf & _)|(_ & Heq)]; [congruence|].
    by rewrite (bind_of_Ret _ _ _ _ _ _ _ Heq).
Qed.

Lemma setup_failures_end_the_process_witness :
  builtin (external ["ls"]) = BUILTIN_NONE
  /\ faulty shell0 kernel_out_of_processes = true
  /\ dispatch (Leaf (external ["ls"])) shell0 kernel_out_of_processes =
       (Ret CONTINUE
          (emit (EvPerror (Some "fork")) (emit (EvFork (-1)) (tick shell0))),
        kernel_out_of_processes).
Proof.
  split; [reflexivity|]. split; [reflexivity|].
  apply (setup_failures_end_the_process (Leaf (external ["ls"]))
           (external ["ls"]) shell0 kernel_out_of_processes);
    reflexivity.
Defined.

(** C3 as stated fails for the top-level interpreter running a leaf
    command: its fork fails, the failure is reported, and the process
    does not end but returns to the loop with CONTINUE. *)
Lemma top_level_fork_failure_does_not_end_the_shell :
  let r := dispatch (Leaf (external ["ls"])) shell0 kernel_out_of_processes in
  new_events shell0 (final_proc r.1) = [EvFork (-1); EvPerror (Some "fork")]
  /\ failed_setup (EvFork (-1)) = true
  /\ r.1 = Ret CONTINUE (final_proc r.1)
  /\ ~ failure_is_fatal (new_events shell0 (final_proc r.1)) (ending r.1).
Proof.
  intros r. split; [by vm_compute|]. split; [done|]. split; [by vm_compute|].
  intros [Hclean|[_ Hend]].
  - vm_compute in Hclean. discriminate.
  - vm_compute in Hend. discriminate.
Qed.

(** ** Pipelines when no call fails for lack of resources *)

Lemma no_faults_faulty p k : no_faults k -> faulty p k = false.
Proof. intros Hk. apply Hk. Qed.

Lemma piped_child_no_faults unused used target m p k :
  no_faults k ->
  is_Some (p_fds p !! unused) -> is_Some (p_fds p !! used) ->
  unused <> used -> 0 <= target ->
  exists p', piped_child unused used target m p k = (m ;; @exit Z 0) p' k.
Proof.
  intros Hk Hunused [o Hused] Hne Htarget. unfold piped_child.
  rewrite (bind_of_Ret _ _ _ _ _ _ _
             (close_open_ok unused p k (no_faults_faulty p k Hk) Hunused)).
  change (0 =? -1) with false. cbv iota.
  set (p1 := emit _ _).
  assert (p_fds p1 !! used = Some o) as Hused1
    by (subst p1; psimpl; by rewrite lookup_delete_ne).
  rewrite (bind_of_Ret _ _ _ _ _ _ _
             (dup2_open_ok used target o p1 k (no_faults_faulty p1 k Hk)
                Hused1)).
  assert ((target =? -1) = false) as -> by lia. cbv iota.
  set (p2 := emit _ _).
  assert (is_Some (p_fds p2 !! used)) as Hused2.
  { subst p2. psimpl. destruct (decide (target = used)) as [->|Hne2].
    - rewrite lookup_insert_eq. by eexists.
    - rewrite lookup_insert_ne by done. by eexists. }
  rewrite (bind_of_Ret _ _ _ _ _ _ _
             (close_open_ok used p2 k (no_faults_faulty p2 k Hk) Hused2)).
  change (0 =? -1) with false. cbv iota. by eexists.
Qed.

(** The exit(0) that ends a child: a command that returned ends with
    status 0, one that ended the process has ended it. *)
Lemma then_exit (m : M Z) p k r k' :
  m p k = (r, k') ->
  exists r',
    (m ;; @exit Z 0) p k = (r', k')
    /\ ending r' = Some (match ending r with
                         | Some o => o
                         | None => Exited 0
                         end).
Proof.
  intros Hm. unfold bind. rewrite Hm.
  destruct r as [v p1|o p1]; by eexists.
Qed.

Lemma child_info_parent parent r : pi_parent (child_info parent r) = parent.
Proof. by destruct r. Qed.

Lemma child_info_reaped parent r : pi_reaped (child_info parent r) = false.
Proof. by destruct r. Qed.

Lemma child_info_end parent r o :
  ending r = Some o -> pi_end (child_info parent r) = o.
Proof. destruct r; simpl; intros H; by simplify_eq. Qed.

Lemma fork_no_faults child p k r k2 :
  no_faults k ->
  child (child_of (k_next_pid k) p) (bump_pid k) = (r, k2) ->
  fork child p k =
    (Ret (Z.pos (k_next_pid k)) (emit (EvFork (Z.pos (k_next_pid k))) (tick p)),
     set_procs (<[k_next_pid k := child_info (p_pid p) r]> (k_procs k2)) k2).
Proof.
  intros Hk Hchild. unfold fork.
  rewrite (no_faults_faulty p k Hk), Hchild. done.
Qed.

Lemma waitpid_no_faults q i p k :
  no_faults k ->
  k_procs k !! q = Some i -> pi_parent i = p_pid p -> pi_reaped i = false ->
  waitpid (Z.pos q) p k =
    (Ret (Z.pos q) (emit (EvWaitpid (Z.pos q) (Z.pos q)) (tick p)),
     set_procs (<[q := reap i]> (k_procs k)) k).
Proof.
  intros Hk Hq Hparent Hreaped. unfold waitpid.
  rewrite (no_faults_faulty p k Hk), Hq. unfold waitable. simpl.
  rewrite Hparent, Hreaped, bool_decide_eq_true_2 by done. done.
Qed.

(** *** Counting records over a range of process identifiers *)

Lemma count_procs_ext P (procs1 procs2 : gmap positive pinfo) n :
  forall start,
    (forall q, (start <= q)%positive ->
       (Pos.to_nat q < Pos.to_nat start + n)%nat ->
       from_option P false (procs1 !! q) = from_option P false (procs2 !! q)) ->
    count_procs P procs1 start n = count_procs P procs2 start n.
Proof.
  induction n as [|n IH]; intros start Hsame; simpl; [done|].
  rewrite (Hsame start) by lia. f_equal.
  apply IH. intros q Hq1 Hq2. apply Hsame; lia.
Qed.

Lemma count_procs_add P (procs : gmap positive pinfo) a b :
  forall start mid,
    Pos.to_nat mid = (Pos.to_nat start + a)%nat ->
    count_procs P procs start (a + b) =
      (count_procs P procs start a + count_procs P procs mid b)%nat.
Proof.
  induction a as [|a IH]; intros start mid Hmid; simpl.
  - by replace mid with start by lia.
  - rewrite (IH (Pos.succ start) mid) by lia. lia.
Qed.

Lemma count_procs_complement P Q (procs : gmap positive pinfo) n :
  forall start,
    (forall q, (start <= q)%positive ->
       (Pos.to_nat q < Pos.to_nat start + n)%nat ->
       exists i, procs !! q = Some i /\ P i = negb (Q i)) ->
    (count_procs P procs start n + count_procs Q procs start n)%nat = n.
Proof.
  induction n as [|n IH]; intros start Hrange; simpl; [done|].
  destruct (Hrange start) as (i & -> & HPQ); [lia..|]. simpl.
  specialize (IH (Pos.succ start)).
  rewrite HPQ. destruct (Q i); simpl; rewrite <- IH at 3;
    try lia; intros q Hq1 Hq2; apply Hrange; lia.
Qed.

(** One stage of a pipe: the fork of a child that wires one end of the
    pipe and runs [c].  The child and all it forks are settled, but for
    the child itself, which its parent is still to wait for. *)
Lemma forked_stage c unused used target p k :
  runs_settled c -> no_faults k ->
  is_Some (p_fds p !! unused) -> is_Some (p_fds p !! used) ->
  unused <> used -> 0 <= target ->
  exists k' i,
    fork (piped_child unused used target (execute_complex_command c)) p k =
      (Ret (Z.pos (k_next_pid k))
         (emit (EvFork (Z.pos (k_next_pid k))) (tick p)), k')
    /\ no_faults k'
    /\ Pos.to_nat (k_next_pid k') =
         (Pos.to_nat (k_next_pid k) + (1 + 2 * nodes c))%nat
    /\ k_next_pipe k' = (k_next_pipe k + nodes c)%nat
    /\ (forall q, (q < k_next_pid k)%positive ->
          k_procs k' !! q = k_procs k !! q)
    /\ (k_procs k' !! k_next_pid k = Some i
        /\ pi_parent i = p_pid p /\ pi_reaped i = false
        /\ ran_a_leaf i = negb (orchestrated i))
    /\ (forall q, (k_next_pid k < q)%positive ->
          (q < k_next_pid k')%positive ->
          exists i,
            k_procs k' !! q = Some i /\ pi_reaped i = true
            /\ ran_a_leaf i = negb (orchestrated i))
    /\ count_procs ran_a_leaf (k_procs k') (k_next_pid k) (1 + 2 * nodes c)
       = leaves c.
Proof.
  intros Hc Hk Hunused Hused Hne Htarget.
  set (n := k_next_pid k).
  destruct (piped_child_no_faults unused used target
              (execute_complex_command c) (child_of n p) (bump_pid k))
    as (cp & Hwired); [done..|].
  destruct (Hc cp (bump_pid k)) as (r & k2 & Hrun & Hset & Hshape); [done|].
  destruct (then_exit _ _ _ _ _ Hrun) as (r' & Hexit & Hending).
  rewrite <- Hwired in Hexit.
  destruct Hset as (Hk2 & Hpid & Hpipe & Hframe & Hreaped & Hcount). psimpl.
  set (i := child_info (p_pid p) r').
  assert (ran_a_leaf i = negb (orchestrated i)
          /\ ((if ran_a_leaf i then 1 else 0) + leaf_processes c)%nat
             = leaves c) as [Hkind Hleaf].
  { unfold ran_a_leaf, orchestrated. subst i.
    rewrite (child_info_end _ _ _ Hending).
    destruct c as [s|oper c1 c2]; simpl in Hshape.
    - destruct Hshape as (o & p' & -> & [->|(f & _ & ->)]); done.
    - destruct Hshape as (p' & rd & wr & pid1 & pid2 & -> & _). done. }
  exists (set_procs (<[n := i]> (k_procs k2)) k2), i.
  split; [by apply fork_no_faults|]. psimpl.
  split; [done|]. split; [lia|]. split; [done|].
  split; [|split; [|split]].
  - intros q Hq. rewrite lookup_insert_ne by lia. apply Hframe. lia.
  - split; [apply lookup_insert_eq|]. split; [apply child_info_parent|].
    split; [apply child_info_reaped|done].
  - intros q Hq1 Hq2. rewrite lookup_insert_ne by lia.
    apply Hreaped; lia.
  - cbn [count_procs Nat.add]. rewrite lookup_insert_eq. cbn [from_option].
    rewrite (count_procs_ext _ _ (k_procs k2)).
    + unfold n. rewrite Hcount. exact Hleaf.
    + intros q Hq1 Hq2. rewrite lookup_insert_ne by lia. done.
Qed.

Lemma leaves_nodes c : leaves c = S (nodes c).
Proof.
  induction c as [s|oper c1 IH1 c2 IH2]; simpl; [done|].
  rewrite IH1, IH2. lia.
Qed.

(** When no call fails for lack of resources, execute_complex_command
    on a tree of pipes makes one pipe and two processes per node, and at
    its end every process forked on the way has been waited for by its
    parent. *)
Lemma pipeline_runs_settled c : all_pipes c = true -> runs_settled c.
Proof.
  induction c as [s|oper c1 IH1 c2 IH2]; intros Hall p k Hk.
  - destruct (execute_nonbuiltin_spec s p k) as (o & p' & fs & evs & Heq & _).
    pose proof (execute_nonbuiltin_halts s p k) as Hout.
    rewrite Heq in Hout. simpl in Hout.
    exists (Halt o p'), (set_files fs k). cbn [execute_complex_command].
    split; [by rewrite (bind_of_Halt _ _ _ _ _ _ _ Heq)|].
    split; [|by exists o, p'].
    unfold settled. psimpl. simpl nodes.
    split; [done|]. split; [lia|]. split; [lia|]. split; [done|].
    split; [|done]. intros q Hq1 Hq2. lia.
  - simpl in Hall. apply andb_true_iff in Hall as [Hall Hall2].
    apply andb_true_iff in Hall as [Hop Hall1].
    specialize (IH1 Hall1). specialize (IH2 Hall2).
    rewrite execute_complex_command_node, Hop.
    destruct (pipe_cases p k) as [(_ & Hpipe)|(Hf & _)];
      [|by rewrite no_faults_faulty in Hf].
    rewrite (bind_of_Ret _ _ _ _ _ _ _ Hpipe). cbv beta iota.
    change (0 =? -1) with false. cbv iota.
    set (rd := alloc_fd (p_fds p)) in *.
    set (wr := alloc_fd (<[rd := OPipeRead (k_next_pipe k)]> (p_fds p))) in *.
    set (p1 := emit (EvPipe 0 rd wr) _).
    pose proof (alloc_fd_fresh (p_fds p)) as Hrd. fold rd in Hrd.
    pose proof (alloc_fd_fresh (<[rd := OPipeRead (k_next_pipe k)]> (p_fds p)))
      as Hwr. fold wr in Hwr.
    apply lookup_insert_None in Hwr as [Hwr Hne].
    assert (is_Some (p_fds p1 !! rd)) as Hrd1.
    { subst p1. psimpl. rewrite lookup_insert_ne by done.
      rewrite lookup_insert_eq. by eexists. }
    assert (is_Some (p_fds p1 !! wr)) as Hwr1.
    { subst p1. psimpl. rewrite lookup_insert_eq. by eexists. }
    destruct (forked_stage c1 rd wr STDOUT_FILENO p1 (bump_pipe k) IH1)
      as (k3 & i1 & Hfork1 & Hk3 & Hpid3 & Hpipe3 & Hframe3
          & (Hi1 & Hpar1 & Hre1 & Hkind1) & Hrange3 & Hcount3); [done..|].
    rewrite (bind_of_Ret _ _ _ _ _ _ _ Hfork1). cbn [Z.eqb]. cbv iota.
    set (n1 := k_next_pid (bump_pipe k)) in *.
    set (p2 := emit (EvFork (Z.pos n1)) _).
    destruct (forked_stage c2 wr rd STDIN_FILENO p2 k3 IH2)
      as (k5 & i2 & Hfork2 & Hk5 & Hpid5 & Hpipe5 & Hframe5
          & (Hi2 & Hpar2 & Hre2 & Hkind2) & Hrange5 & Hcount5);
      [done..| |done|].
    { by intros ->. }
    rewrite (bind_of_Ret _ _ _ _ _ _ _ Hfork2). cbn [Z.eqb]. cbv iota.
    set (n2 := k_next_pid k3) in *.
    set (p3 := emit (EvFork (Z.pos n2)) _).
    assert (is_Some (p_fds p3 !! rd)) as Hrd3 by done.
    rewrite (bind_of_Ret _ _ _ _ _ _ _
               (close_open_ok rd p3 k5 (no_faults_faulty p3 k5 Hk5) Hrd3)).
    change (0 =? -1) with false. cbv iota.
    set (p4 := emit (EvClose rd 0) _).
    assert (is_Some (p_fds p4 !! wr)) as Hwr4.
    { subst p4. psimpl. rewrite lookup_delete_ne by done. done. }
    rewrite (bind_of_Ret _ _ _ _ _ _ _
               (close_open_ok wr p4 k5 (no_faults_faulty p4 k5 Hk5) Hwr4)).
    change (0 =? -1) with false. cbv iota.
    set (p5 := emit (EvClose wr 0) _).
    assert (n1 = k_next_pid k) as Hn1 by done.
    assert ((n1 < n2)%positive) as Hlt by lia.
    assert (k_procs k5 !! n1 = Some i1) as Hq1
      by (rewrite Hframe5 by done; done).
    rewrite (bind_of_Ret _ _ _ _ _ _ _
               (waitpid_no_faults n1 i1 p5 k5 Hk5 Hq1 Hpar1 Hre1)).
    cbn [Z.eqb]. cbv iota.
    set (p6 := emit (EvWaitpid (Z.pos n1) (Z.pos n1)) _).
    set (k6 := set_procs _ k5).
    assert (k_procs k6 !! n2 = Some i2) as Hq2.
    { subst k6. psimpl. rewrite lookup_insert_ne by lia. done. }
    assert (no_faults k6) as Hk6 by done.
    rewrite (bind_of_Ret _ _ _ _ _ _ _
               (waitpid_no_faults n2 i2 p6 k6 Hk6 Hq2 Hpar2 Hre2)).
    cbn [Z.eqb]. cbv iota.
    eexists _, _. split; [reflexivity|]. split.
    + unfold settled. subst k6. psimpl.
      split; [done|]. split; [simpl nodes; lia|].
      split; [simpl nodes; lia|]. split; [|split].
      * intros q Hq. rewrite !lookup_insert_ne by lia.
        rewrite Hframe5 by lia. apply Hframe3. lia.
      * intros q Hge Hlt'.
        destruct (decide (q = n2)) as [->|Hq2'];
          [rewrite lookup_insert_eq; by eexists|].
        rewrite lookup_insert_ne by done.
        destruct (decide (q = n1)) as [->|Hq1'];
          [rewrite lookup_insert_eq; by eexists|].
        rewrite lookup_insert_ne by done.
        destruct (decide (q < n2)%positive) as [Hlow|Hhigh].
        -- rewrite Hframe5 by done. apply Hrange3; lia.
        -- apply Hrange5; lia.
      * replace (2 * nodes (Node oper c1 c2))%nat
          with ((1 + 2 * nodes c1) + (1 + 2 * nodes c2))%nat
          by (simpl nodes; lia).
        rewrite (count_procs_add _ _ _ _ n1 n2) by lia.
        cbn [leaf_processes leaves]. f_equal.
        -- rewrite <- Hcount3. apply count_procs_ext.
           intros q Hge Hlt'. rewrite lookup_insert_ne by lia.
           destruct (decide (q = n1)) as [->|Hq1'].
           ++ by rewrite lookup_insert_eq, Hi1.
           ++ rewrite lookup_insert_ne by done. rewrite Hframe5 by lia. done.
        -- rewrite <- Hcount5. apply count_procs_ext.
           intros q Hge Hlt'.
           destruct (decide (q = n2)) as [->|Hq2'].
           ++ by rewrite lookup_insert_eq, Hi2.
           ++ rewrite !lookup_insert_ne by lia. done.
    + unfold run_shape. eexists _, rd, wr, (Z.pos n1), (Z.pos n2).
      split; [reflexivity|]. subst p6 p5 p4 p3 p2 p1.
      split; [unfold orchestration; trace_eq|].
      psimpl. apply pipe_fds_closed.
Qed.

(** C1, as amended.  When no call fails for lack of resources, executing
    a pipeline of N >= 2 leaf commands creates exactly N - 1 pipes and
    forks exactly 2 (N - 1) processes, two for every pipe operator.  N of
    them run the leaf commands, and the other N - 2 orchestrate the rest
    of the chain and end with exit(0).  The orchestrating process returns
    0 after its two waitpid calls, and by then every process forked for
    the pipeline, at any depth, has been waited for by its parent; the
    records of processes that existed before are untouched. *)
Theorem pipeline_pipes_processes_and_waits :
  forall c p k,
    all_pipes c = true -> (2 <= leaves c)%nat -> no_faults k ->
    exists p' k',
      execute c p k = (Ret 0 p', k')
      /\ pipes_made k k' = (leaves c - 1)%nat
      /\ spawned k k' = (2 * (leaves c - 1))%nat
      /\ count_procs ran_a_leaf (k_procs k') (k_next_pid k) (spawned k k')
         = leaves c
      /\ count_procs orchestrated (k_procs k') (k_next_pid k) (spawned k k')
         = (leaves c - 2)%nat
      /\ (forall q, (k_next_pid k <= q)%positive ->
            (q < k_next_pid k')%positive ->
            exists i, k_procs k' !! q = Some i /\ pi_reaped i = true)
      /\ (forall q, (q < k_next_pid k)%positive ->
            k_procs k' !! q = k_procs k !! q)
      /\ exists rd wr pid1 pid2,
           new_events p p' = orchestration rd wr pid1 pid2.
Proof.
  intros c p k Hall Hleaves Hk.
  destruct (pipeline_runs_settled c Hall p k Hk)
    as (r & k' & Hrun & (_ & Hpid & Hpipe & Hframe & Hreaped & Hcount)
        & Hshape).
  pose proof (leaves_nodes c) as Hln.
  destruct c as [s|oper c1 c2]; [simpl in Hleaves; lia|].
  destruct Hshape as (p' & rd & wr & pid1 & pid2 & -> & Hev & _).
  exists p', k'. unfold execute, pipes_made.
  assert (spawned k k' = (2 * nodes (Node oper c1 c2))%nat) as Hspawned
    by (unfold spawned; lia).
  rewrite Hspawned.
  split; [done|]. split; [lia|]. split; [lia|].
  split; [exact Hcount|]. split; [|split; [|split]].
  - pose proof (count_procs_complement ran_a_leaf orchestrated (k_procs k')
                  (2 * nodes (Node oper c1 c2)) (k_next_pid k)) as Hsum.
    rewrite Hcount in Hsum. cbn [leaf_processes] in Hsum.
    assert ((leaves (Node oper c1 c2)
             + count_procs orchestrated (k_procs k') (k_next_pid k)
                 (2 * nodes (Node oper c1 c2)))%nat
            = (2 * nodes (Node oper c1 c2))%nat) as Hsum'; [|lia].
    apply Hsum. intros q Hq1 Hq2.
    destruct (Hreaped q) as (i & Hi & _ & Hkind); [lia..|]. by exists i.
  - intros q Hq1 Hq2. destruct (Hreaped q Hq1 Hq2) as (i & Hi & Hre & _).
    by exists i.
  - done.
  - by exists rd, wr, pid1, pid2.
Qed.

Lemma no_faults_kernel0 : no_faults kernel0.
Proof. intros pid n. reflexivity. Qed.

Lemma pipeline_pipes_processes_and_waits_witness :
  all_pipes three_stages = true
  /\ (2 <= leaves three_stages)%nat
  /\ no_faults kernel0
  /\ exists p' k',
       execute three_stages shell0 kernel0 = (Ret 0 p', k')
       /\ pipes_made kernel0 k' = (leaves three_stages - 1)%nat
       /\ spawned kernel0 k' = (2 * (leaves three_stages - 1))%nat
       /\ count_procs ran_a_leaf (k_procs k') (k_next_pid kernel0)
            (spawned kernel0 k') = leaves three_stages
       /\ count_procs orchestrated (k_procs k') (k_next_pid kernel0)
            (spawned kernel0 k') = (leaves three_stages - 2)%nat
       /\ (forall q, (k_next_pid kernel0 <= q)%positive ->
             (q < k_next_pid k')%positive ->
             exists i, k_procs k' !! q = Some i /\ pi_reaped i = true)
       /\ (forall q, (q < k_next_pid kernel0)%positive ->
             k_procs k' !! q = k_procs kernel0 !! q)
       /\ exists rd wr pid1 pid2,
            new_events shell0 p' = orchestration rd wr pid1 pid2.
Proof.
  split; [reflexivity|]. split; [simpl; lia|].
  split; [exact no_faults_kernel0|].
  apply (pipeline_pipes_processes_and_waits three_stages shell0 kernel0).
  - reflexivity.
  - simpl. lia.
  - exact no_faults_kernel0.
Defined.

(** C1 as stated fails from three stages on: [ls | cat | wc -l] has
    three leaf commands, and running it forks four processes. *)
Lemma three_stages_fork_four_processes :
  all_pipes three_stages = true
  /\ leaves three_stages = 3%nat
  /\ no_faults kernel0
  /\ spawned kernel0 (execute three_stages shell0 kernel0).2 = 4%nat
  /\ spawned kernel0 (execute three_stages shell0 kernel0).2
     <> leaves three_stages.
Proof.
  split; [reflexivity|]. split; [reflexivity|].
  split; [exact no_faults_kernel0|].
  split; [by vm_compute|]. by vm_compute.
Qed.

(** ** The processes of a pipeline and their descriptors *)

Lemma plan_commands c :
  forall self fds next id,
    st_command <$> plan c self fds next id = commands c.
Proof.
  induction c as [s|oper c1 IH1 c2 IH2]; intros self fds next id; [done|].
  cbn [plan commands]. by rewrite fmap_app, IH1, IH2.
Qed.

Lemma plan_length c self fds next id :
  length (plan c self fds next id) = leaves c.
Proof.
  rewrite <- (length_fmap st_command), plan_commands.
  induction c as [s|oper c1 IH1 c2 IH2]; [done|].
  cbn [commands leaves]. by rewrite length_app, IH1, IH2.
Qed.

(** The processes of the leaves: the process itself for a leaf, and for
    a node processes forked by it or below it. *)
Lemma plan_pids c :
  forall self fds next id st,
    st ∈ plan c self fds next id ->
    match c with
    | Leaf _ => st_pid st = self
    | Node _ _ _ =>
        (next <= st_pid st)%positive
        /\ (Pos.to_nat (st_pid st) < Pos.to_nat next + 2 * nodes c)%nat
    end.
Proof.
  induction c as [s|oper c1 IH1 c2 IH2]; intros self fds next id st Hst.
  - apply list_elem_of_singleton in Hst. by subst st.
  - cbn [plan] in Hst. apply elem_of_app in Hst as [Hst|Hst].
    + apply IH1 in Hst. cbn [nodes].
      destruct c1 as [s1|o1 c11 c12]; [subst; lia|].
      cbn [nodes] in *. lia.
    + apply IH2 in Hst. cbn [nodes].
      destruct c2 as [s2|o2 c21 c22]; [rewrite Hst; lia|].
      cbn [nodes] in *. lia.
Qed.

Lemma plan_pids_stage c next fds id st :
  st ∈ plan c next fds (Pos.succ next) id ->
  (next <= st_pid st)%positive
  /\ (Pos.to_nat (st_pid st) < Pos.to_nat next + 1 + 2 * nodes c)%nat.
Proof.
  intros Hst. apply plan_pids in Hst.
  destruct c as [s|oper c1 c2]; [rewrite Hst; cbn [nodes]; lia|lia].
Qed.

Lemma plan_no_dup c :
  forall self fds next id, NoDup (st_pid <$> plan c self fds next id).
Proof.
  induction c as [s|oper c1 IH1 c2 IH2]; intros self fds next id.
  - cbn. apply NoDup_singleton.
  - cbn [plan]. rewrite fmap_app. apply NoDup_app.
    split; [apply IH1|]. split; [|apply IH2].
    intros q Hq1 Hq2.
    apply list_elem_of_fmap in Hq1 as (st1 & -> & Hst1).
    apply list_elem_of_fmap in Hq2 as (st2 & Heq & Hst2).
    apply plan_pids_stage in Hst1. apply plan_pids_stage in Hst2. lia.
Qed.

Lemma chained_app l1 : forall i id l2 o,
  chained i l1 (Some (OPipeWrite id)) ->
  chained (Some (OPipeRead id)) l2 o ->
  chained i (l1 ++ l2) o.
Proof.
  induction l1 as [|st l1 IH]; intros i id l2 o H1 H2; [done|].
  destruct H1 as [Hin H1]. cbn [app chained]. split; [done|].
  destruct l1 as [|st' l1].
  - destruct l2 as [|st2 l2]; [done|]. cbn [app]. by exists id.
  - destruct H1 as (id' & Hout & H1). cbn [app]. exists id'.
    split; [done|]. by apply (IH _ id).
Qed.

(** The leaves of a tree of pipes are chained from the standard input
    to the standard output of the process that runs the tree. *)
Lemma plan_chained c :
  forall self fds next id,
    chained (fds !! STDIN_FILENO) (plan c self fds next id)
      (fds !! STDOUT_FILENO).
Proof.
  induction c as [s|oper c1 IH1 c2 IH2]; intros self fds next id; [done|].
  cbn [plan]. apply (chained_app _ _ id).
  - specialize (IH1 next (<[STDOUT_FILENO := OPipeWrite id]> fds)
                  (Pos.succ next) (S id)).
    by rewrite lookup_insert_ne, lookup_insert_eq in IH1.
  - match goal with
    | |- chained _ (plan c2 ?q ?f ?n ?j) _ => specialize (IH2 q f n j)
    end.
    by rewrite lookup_insert_eq, lookup_insert_ne in IH2.
Qed.

(** Apart from the standard input and output, every leaf has the
    descriptors of the process that runs the tree. *)
Lemma plan_other_descriptors c :
  forall self fds next id st fd,
    st ∈ plan c self fds next id ->
    fd <> STDIN_FILENO -> fd <> STDOUT_FILENO ->
    st_fds st !! fd = fds !! fd.
Proof.
  induction c as [s|oper c1 IH1 c2 IH2];
    intros self fds next id st fd Hst H0 H1.
  - apply list_elem_of_singleton in Hst. by subst st.
  - cbn [plan] in Hst. apply elem_of_app in Hst as [Hst|Hst].
    + rewrite (IH1 _ _ _ _ _ _ Hst) by done. by rewrite lookup_insert_ne.
    + rewrite (IH2 _ _ _ _ _ _ Hst) by done. by rewrite lookup_insert_ne.
Qed.

(** The child at one end of a pipe when no call fails: it comes to its
    command with the unused end closed and the used end on [target]
    only. *)
Lemma piped_child_rewired unused used target m p k o :
  no_faults k ->
  is_Some (p_fds p !! unused) -> p_fds p !! used = Some o ->
  unused <> used -> 0 <= target ->
  exists p',
    piped_child unused used target m p k = (m ;; @exit Z 0) p' k
    /\ p_fds p' = delete used (<[target := o]> (delete unused (p_fds p)))
    /\ p_pid p' = p_pid p /\ p_cwd p' = p_cwd p.
Proof.
  intros Hk Hunused Hused Hne Htarget. unfold piped_child.
  rewrite (bind_of_Ret _ _ _ _ _ _ _
             (close_open_ok unused p k (no_faults_faulty p k Hk) Hunused)).
  change (0 =? -1) with false. cbv iota.
  set (p1 := emit _ _).
  assert (p_fds p1 !! used = Some o) as Hused1
    by (subst p1; psimpl; by rewrite lookup_delete_ne).
  rewrite (bind_of_Ret _ _ _ _ _ _ _
             (dup2_open_ok used target o p1 k (no_faults_faulty p1 k Hk)
                Hused1)).
  assert ((target =? -1) = false) as -> by lia. cbv iota.
  set (p2 := emit _ _).
  assert (is_Some (p_fds p2 !! used)) as Hused2.
  { subst p2. psimpl. destruct (decide (target = used)) as [->|Hne2].
    - rewrite lookup_insert_eq. by eexists.
    - rewrite lookup_insert_ne by done. by eexists. }
  rewrite (bind_of_Ret _ _ _ _ _ _ _
             (close_open_ok used p2 k (no_faults_faulty p2 k Hk) Hused2)).
  change (0 =? -1) with false. cbv iota.
  eexists. split; [reflexivity|]. done.
Qed.

(** The descriptors of such a child, from the table [fds] in which the
    pipe was made on [a] and [b]: the table [fds] with the used end on
    [target]. *)
Lemma stage_descriptors (fds table : gmap Z ofd) unused used target o :
  (forall j, j <> unused -> j <> used -> table !! j = fds !! j) ->
  fds !! unused = None -> fds !! used = None ->
  is_Some (fds !! target) ->
  delete used (<[target := o]> (delete unused table)) = <[target := o]> fds.
Proof.
  intros Hsame Hu Hv [x Ht]. apply map_eq. intros j.
  assert (target <> unused) by (intros ->; congruence).
  assert (target <> used) by (intros ->; congruence).
  destruct (decide (j = used)) as [->|Hjv].
  { by rewrite lookup_delete_eq, lookup_insert_ne. }
  rewrite lookup_delete_ne by done.
  destruct (decide (j = target)) as [->|Hjt].
  { by rewrite !lookup_insert_eq. }
  rewrite !lookup_insert_ne by done.
  destruct (decide (j = unused)) as [->|Hju].
  { by rewrite lookup_delete_eq. }
  rewrite lookup_delete_ne by done. by apply Hsame.
Qed.

(** A record with the same end tells the same about its process. *)
Lemma started_same cwd k k' st :
  started cwd k st ->
  (forall i,
     k_procs k !! st_pid st = Some i ->
     exists i',
       k_procs k' !! st_pid st = Some i'
       /\ pi_end i' = pi_end i /\ pi_final i' = pi_final i) ->
  started cwd k' st.
Proof.
  intros (i & cp & k0 & k1 & Hi & Hpid & Hfds & Hcwd & Hrun) Hsame.
  destruct (Hsame i Hi) as (i' & Hi' & He & Hf).
  exists i', cp, k0, k1. by rewrite He, Hf.
Qed.

(** The process that orchestrates a pipe, when no call fails: the leaves
    of both sides are run as [plan] tells. *)
Lemma node_wired oper c1 c2 p k :
  all_pipes (Node oper c1 c2) = true ->
  stage_wired c1 -> stage_wired c2 ->
  no_faults k ->
  is_Some (p_fds p !! STDIN_FILENO) -> is_Some (p_fds p !! STDOUT_FILENO) ->
  exists p' k',
    execute_complex_command (Node oper c1 c2) p k = (Ret 0 p', k')
    /\ Forall (started (p_cwd p) k')
         (plan (Node oper c1 c2) (p_pid p) (p_fds p) (k_next_pid k)
            (k_next_pipe k))
    /\ (forall q, (k_next_pid k' <= q)%positive ->
          k_procs k' !! q = k_procs k !! q).
Proof.
  intros Hall Hst1 Hst2 Hk Hin Hout.
  simpl in Hall. apply andb_true_iff in Hall as [Hall Hall2].
  apply andb_true_iff in Hall as [Hop Hall1].
  pose proof (pipeline_runs_settled c1 Hall1) as Hset1.
  pose proof (pipeline_runs_settled c2 Hall2) as Hset2.
  rewrite execute_complex_command_node, Hop.
  destruct (pipe_cases p k) as [(_ & Hpipe)|(Hf & _)];
    [|by rewrite no_faults_faulty in Hf].
  rewrite (bind_of_Ret _ _ _ _ _ _ _ Hpipe). cbv beta iota.
  change (0 =? -1) with false. cbv iota.
  set (id := k_next_pipe k) in *.
  set (rd := alloc_fd (p_fds p)) in *.
  set (wr := alloc_fd (<[rd := OPipeRead id]> (p_fds p))) in *.
  set (p1 := emit (EvPipe 0 rd wr) _).
  pose proof (alloc_fd_fresh (p_fds p)) as Hrd. fold rd in Hrd.
  pose proof (alloc_fd_fresh (<[rd := OPipeRead id]> (p_fds p)))
    as Hwr. fold wr in Hwr.
  apply lookup_insert_None in Hwr as [Hwr Hne].
  assert (p_fds p1 !! rd = Some (OPipeRead id)) as Hrd1.
  { subst p1. psimpl. rewrite lookup_insert_ne by done.
    by rewrite lookup_insert_eq. }
  assert (p_fds p1 !! wr = Some (OPipeWrite id)) as Hwr1.
  { subst p1. psimpl. by rewrite lookup_insert_eq. }
  assert (forall j, j <> rd -> j <> wr -> p_fds p1 !! j = p_fds p !! j)
    as Hsame.
  { intros j Hj1 Hj2. subst p1. psimpl. by rewrite !lookup_insert_ne. }
  assert (forall j, j <> wr -> j <> rd -> p_fds p1 !! j = p_fds p !! j)
    as Hsame' by (intros j ? ?; by apply Hsame).
  (* the first child *)
  destruct (forked_stage c1 rd wr STDOUT_FILENO p1 (bump_pipe k) Hset1)
    as (k3 & i1 & Hfork1 & Hk3 & Hpid3 & Hpipe3 & Hframe3
        & (Hi1 & Hpar1 & Hre1 & _) & _ & _);
    [done|by eexists|by eexists|done..|].
  pose proof (Hst1 rd wr STDOUT_FILENO p1 (bump_pipe k) (OPipeWrite id)
                Hk (ltac:(by eexists)) Hwr1 Hne (ltac:(done))) as Hplan1.
  rewrite (stage_descriptors (p_fds p) _ _ _ _ _ Hsame Hrd Hwr Hout)
    in Hplan1.
  cbv zeta in Hplan1. rewrite Hfork1 in Hplan1. cbn [snd] in Hplan1.
  destruct Hplan1 as [Hplan1 Habove1].
  { by rewrite lookup_insert_ne. }
  { rewrite lookup_insert_eq. by eexists. }
  rewrite (bind_of_Ret _ _ _ _ _ _ _ Hfork1). cbn [Z.eqb]. cbv iota.
  set (n1 := k_next_pid (bump_pipe k)) in *.
  set (p2 := emit (EvFork (Z.pos n1)) _).
  (* the second child *)
  destruct (forked_stage c2 wr rd STDIN_FILENO p2 k3 Hset2)
    as (k5 & i2 & Hfork2 & Hk5 & Hpid5 & Hpipe5 & Hframe5
        & (Hi2 & Hpar2 & Hre2 & _) & _ & _);
    [done|by eexists|by eexists| |done|].
  { by intros ->. }
  pose proof (Hst2 wr rd STDIN_FILENO p2 k3 (OPipeRead id)
                Hk3 (ltac:(by eexists)) Hrd1 (ltac:(by intros ->))
                (ltac:(done))) as Hplan2.
  change (p_fds p2) with (p_fds p1) in Hplan2.
  rewrite (stage_descriptors (p_fds p) _ _ _ _ _ Hsame' Hwr Hrd Hin)
    in Hplan2.
  cbv zeta in Hplan2. rewrite Hfork2 in Hplan2. cbn [snd] in Hplan2.
  destruct Hplan2 as [Hplan2 Habove2].
  { rewrite lookup_insert_eq. by eexists. }
  { by rewrite lookup_insert_ne. }
  rewrite (bind_of_Ret _ _ _ _ _ _ _ Hfork2). cbn [Z.eqb]. cbv iota.
  set (n2 := k_next_pid k3) in *.
  set (p3 := emit (EvFork (Z.pos n2)) _).
  assert (is_Some (p_fds p3 !! rd)) as Hrd3 by (by eexists).
  rewrite (bind_of_Ret _ _ _ _ _ _ _
             (close_open_ok rd p3 k5 (no_faults_faulty p3 k5 Hk5) Hrd3)).
  change (0 =? -1) with false. cbv iota.
  set (p4 := emit (EvClose rd 0) _).
  assert (is_Some (p_fds p4 !! wr)) as Hwr4.
  { subst p4. psimpl. rewrite lookup_delete_ne by done. by eexists. }
  rewrite (bind_of_Ret _ _ _ _ _ _ _
             (close_open_ok wr p4 k5 (no_faults_faulty p4 k5 Hk5) Hwr4)).
  change (0 =? -1) with false. cbv iota.
  set (p5 := emit (EvClose wr 0) _).
  assert (n1 = k_next_pid k) as Hn1 by done.
  assert ((n1 < n2)%positive) as Hlt by lia.
  assert (k_procs k5 !! n1 = Some i1) as Hq1
    by (rewrite Hframe5 by done; done).
  rewrite (bind_of_Ret _ _ _ _ _ _ _
             (waitpid_no_faults n1 i1 p5 k5 Hk5 Hq1 Hpar1 Hre1)).
  cbn [Z.eqb]. cbv iota.
  set (p6 := emit (EvWaitpid (Z.pos n1) (Z.pos n1)) _).
  set (k6 := set_procs _ k5).
  assert (k_procs k6 !! n2 = Some i2) as Hq2.
  { subst k6. psimpl. rewrite lookup_insert_ne by lia. done. }
  assert (no_faults k6) as Hk6 by done.
  rewrite (bind_of_Ret _ _ _ _ _ _ _
             (waitpid_no_faults n2 i2 p6 k6 Hk6 Hq2 Hpar2 Hre2)).
  cbn [Z.eqb]. cbv iota.
  eexists _, _. split; [reflexivity|]. subst k6. psimpl.
  split.
  - cbn [plan]. apply Forall_app. split.
    + change (p_cwd p1) with (p_cwd p) in Hplan1.
      change (k_next_pipe (bump_pipe k)) with (S id) in Hplan1.
      rewrite Forall_forall in Hplan1 |- *. intros st Hst.
      apply (started_same _ k3); [by apply Hplan1|].
      intros i Hi. apply plan_pids_stage in Hst. psimpl.
      destruct (decide (st_pid st = n1)) as [Heq|Hneq].
      * exists (reap i1). rewrite Heq in *.
        rewrite lookup_insert_ne, lookup_insert_eq by lia.
        rewrite Hi1 in Hi. by injection Hi as <-.
      * exists i. rewrite !lookup_insert_ne by lia.
        by rewrite Hframe5 by lia.
    + change (p_cwd p2) with (p_cwd p) in Hplan2.
      replace (k_next_pid k + Pos.of_succ_nat (2 * nodes c1))%positive
        with n2 by lia.
      replace (S id + nodes c1)%nat with (k_next_pipe k3).
      rewrite Forall_forall in Hplan2 |- *. intros st Hst.
      apply (started_same _ k5); [by apply Hplan2|].
      intros i Hi. apply plan_pids_stage in Hst. psimpl.
      destruct (decide (st_pid st = n2)) as [Heq|Hneq].
      * exists (reap i2). rewrite Heq in *. rewrite lookup_insert_eq.
        rewrite Hi2 in Hi. by injection Hi as <-.
      * exists i. by rewrite !lookup_insert_ne by lia.
  - intros q Hq. rewrite !lookup_insert_ne by lia.
    rewrite Habove2 by done. rewrite Habove1 by lia. done.
Qed.

Lemma stage_wired_all c : all_pipes c = true -> stage_wired c.
Proof.
  induction c as [s|oper c1 IH1 c2 IH2]; intros Hall;
    intros unused used target p k o Hk Hunused Hused Hne Htarget fds
           Hin Hout k'; subst k'.
  - destruct (piped_child_rewired unused used target
                (execute_complex_command (Leaf s)) (child_of (k_next_pid k) p)
                (bump_pid k) o)
      as (cp & Hwired & Hfds & Hpid & Hcwd); [done..|].
    destruct (execute_nonbuiltin_spec s cp (bump_pid k))
      as (e & pf & fs & evs & Hrun & _).
    assert (piped_child unused used target
              (execute_complex_command (Leaf s)) (child_of (k_next_pid k) p)
              (bump_pid k) = (Halt e pf, set_files fs (bump_pid k))) as Hchild.
    { rewrite Hwired. cbn [execute_complex_command].
      apply bind_of_Halt. by apply bind_of_Halt. }
    rewrite (fork_no_faults _ _ _ _ _ Hk Hchild). psimpl. split.
    + apply Forall_singleton.
      exists (PInfo (p_pid p) e pf false), cp, (bump_pid k),
        (set_files fs (bump_pid k)).
      cbn [st_pid st_command st_fds pi_end pi_final]. psimpl.
      split; [apply lookup_insert_eq|]. done.
    + intros q Hq. by rewrite lookup_insert_ne by lia.
  - pose proof Hall as Hall'. simpl in Hall'.
    apply andb_true_iff in Hall' as [Hall' Hall2].
    apply andb_true_iff in Hall' as [_ Hall1].
    destruct (piped_child_rewired unused used target
                (execute_complex_command (Node oper c1 c2))
                (child_of (k_next_pid k) p) (bump_pid k) o)
      as (cp & Hwired & Hfds & Hpid & Hcwd); [done..|].
    psimpl. fold fds in Hfds.
    destruct (node_wired oper c1 c2 cp (bump_pid k) Hall
                (IH1 Hall1) (IH2 Hall2))
      as (cp' & k2 & Hrun & Hplan & Habove);
      [done|by rewrite Hfds..|].
    destruct (pipeline_runs_settled _ Hall cp (bump_pid k))
      as (r & k2' & Hrun' & (_ & Hpid2 & _) & _); [done|].
    rewrite Hrun in Hrun'. injection Hrun' as <- <-.
    assert (piped_child unused used target
              (execute_complex_command (Node oper c1 c2))
              (child_of (k_next_pid k) p) (bump_pid k)
            = (Halt (Exited 0) (emit (EvExit 0) cp'), k2)) as Hchild.
    { rewrite Hwired. unfold bind at 1. by rewrite Hrun. }
    rewrite (fork_no_faults _ _ _ _ _ Hk Hchild). psimpl. split.
    + rewrite Hfds, Hcwd in Hplan. cbn [plan] in Hplan |- *.
      rewrite Forall_forall in Hplan |- *. intros st Hst.
      apply (started_same _ k2); [by apply Hplan|].
      intros i Hi. exists i. psimpl.
      assert ((k_next_pid k < st_pid st)%positive) as Hlt.
      { apply elem_of_app in Hst as [Hst|Hst];
          apply plan_pids_stage in Hst; lia. }
      by rewrite lookup_insert_ne by lia.
    + intros q Hq. rewrite lookup_insert_ne by lia.
      by rewrite Habove by lia.
Qed.

(** X4.  How a pipeline is wired when no call fails for lack of
    resources.  Each leaf command of the tree, from left to right, is
    run by a process of its own, which calls execute_nonbuiltin in the
    current directory of the shell and with a descriptor table that is
    the table of the shell but for the standard input and the standard
    output: the first leaf reads what the shell reads, the last one
    writes where the shell writes, and between two neighbours the
    standard output of the left one is the write end of the pipe of
    which the standard input of the right one is the read end.  No end of
    a pipe is open on any other descriptor of a leaf. *)
Theorem pipeline_stages_are_chained_by_pipes :
  forall c p k,
    all_pipes c = true -> (2 <= leaves c)%nat -> no_faults k ->
    is_Some (p_fds p !! STDIN_FILENO) -> is_Some (p_fds p !! STDOUT_FILENO) ->
    let stages :=
      plan c (p_pid p) (p_fds p) (k_next_pid k) (k_next_pipe k) in
    Forall (started (p_cwd p) (execute c p k).2) stages
    /\ st_command <$> stages = commands c
    /\ NoDup (st_pid <$> stages)
    /\ chained (p_fds p !! STDIN_FILENO) stages (p_fds p !! STDOUT_FILENO)
    /\ (forall st fd,
          st ∈ stages -> fd <> STDIN_FILENO -> fd <> STDOUT_FILENO ->
          st_fds st !! fd = p_fds p !! fd).
Proof.
  intros c p k Hall Hleaves Hk Hin Hout stages. subst stages.
  split; [|split; [|split; [|split]]].
  - destruct c as [s|oper c1 c2]; [simpl in Hleaves; lia|].
    pose proof Hall as Hall'. simpl in Hall'.
    apply andb_true_iff in Hall' as [Hall' Hall2].
    apply andb_true_iff in Hall' as [_ Hall1].
    destruct (node_wired oper c1 c2 p k Hall (stage_wired_all c1 Hall1)
                (stage_wired_all c2 Hall2) Hk Hin Hout)
      as (p' & k' & Hrun & Hplan & _).
    cbn [execute]. by rewrite Hrun.
  - apply plan_commands.
  - apply plan_no_dup.
  - apply plan_chained.
  - intros st fd Hst H0 H1. by eapply plan_other_descriptors.
Qed.

Lemma pipeline_stages_are_chained_by_pipes_witness :
  all_pipes three_stages = true
  /\ (2 <= leaves three_stages)%nat
  /\ no_faults kernel0
  /\ is_Some (p_fds shell0 !! STDIN_FILENO)
  /\ is_Some (p_fds shell0 !! STDOUT_FILENO)
  /\ plan three_stages (p_pid shell0) (p_fds shell0) (k_next_pid kernel0)
       (k_next_pipe kernel0)
     = [Stage 2 (external ["ls"]) (<[1 := OPipeWrite 0]> std_fds);
        Stage 4 (external ["cat"])
          (<[1 := OPipeWrite 1]> (<[0 := OPipeRead 0]> std_fds));
        Stage 5 (external ["wc"; "-l"]) (<[0 := OPipeRead 1]> std_fds)]
  /\ Forall (started (p_cwd shell0) (execute three_stages shell0 kernel0).2)
       (plan three_stages (p_pid shell0) (p_fds shell0) (k_next_pid kernel0)
          (k_next_pipe kernel0)).
Proof.
  assert (is_Some (p_fds shell0 !! STDIN_FILENO)) as Hin by (by eexists).
  assert (is_Some (p_fds shell0 !! STDOUT_FILENO)) as Hout by (by eexists).
  assert ((2 <= leaves three_stages)%nat) as Hl by (simpl; lia).
  split; [reflexivity|]. split; [exact Hl|].
  split; [exact no_faults_kernel0|]. split; [exact Hin|].
  split; [exact Hout|]. split; [reflexivity|].
  exact (proj1 (pipeline_stages_are_chained_by_pipes three_stages shell0
                  kernel0 eq_refl Hl no_faults_kernel0 Hin Hout)).
Defined.

(** ** Children that were waited for *)

(** wait, when the caller has one child that is still to be waited
    for. *)
Lemma wait_only_child p k q i :
  no_faults k ->
  k_procs k !! q = Some i -> pi_parent i = p_pid p -> pi_reaped i = false ->
  (forall q' i', q' <> q -> k_procs k !! q' = Some i' -> pi_reaped i' = true) ->
  wait p k =
    (Ret (Z.pos q) (emit (EvWait (Z.pos q)) (tick p)),
     set_procs (<[q := reap i]> (k_procs k)) k).
Proof.
  intros Hk Hq Hpar Hre Hothers. unfold wait.
  rewrite (no_faults_faulty p k Hk).
  destruct (List.find _ _) as [[q' i']|] eqn:Hfind.
  - apply List.find_some in Hfind as [Hin Hw].
    apply list_elem_of_In, elem_of_map_to_list in Hin.
    destruct (decide (q' = q)) as [->|Hne].
    + rewrite Hq in Hin. by injection Hin as <-.
    + unfold waitable in Hw. simpl in Hw.
      rewrite (Hothers q' i' Hne Hin) in Hw.
      by rewrite andb_false_r in Hw.
  - pose proof (List.find_none _ _ Hfind (q, i)) as Hnone.
    unfold waitable in Hnone. simpl in Hnone.
    rewrite Hpar, Hre, bool_decide_eq_true_2 in Hnone by done.
    discriminate Hnone.
    apply list_elem_of_In, elem_of_map_to_list. done.
Qed.

(** An external command at the top level when no call fails and no
    other child is still to be waited for: one fork, and the wait that
    follows returns the child that was forked. *)
Lemma simple_command_waits s p k :
  builtin s = BUILTIN_NONE -> no_faults k -> tidy_records k ->
  exists p' o cp' k1,
    execute_nonbuiltin s (child_of (k_next_pid k) p) (bump_pid k)
      = (Halt o cp', k1)
    /\ execute_simple_command s p k =
         (Ret 0 p',
          set_procs
            (<[k_next_pid k := PInfo (p_pid p) o cp' true]> (k_procs k)) k1)
    /\ k_fault k1 = k_fault k /\ k_next_pid k1 = Pos.succ (k_next_pid k)
    /\ p_fds p' = p_fds p /\ p_pid p' = p_pid p /\ p_cwd p' = p_cwd p
    /\ new_events p p' =
         [EvFork (Z.pos (k_next_pid k)); EvWait (Z.pos (k_next_pid k))].
Proof.
  intros Hb Hk Htidy. unfold execute_simple_command. rewrite Hb.
  destruct (execute_nonbuiltin_spec s (child_of (k_next_pid k) p) (bump_pid k))
    as (o & cp' & fs & evs & Hnb & _).
  assert ((execute_nonbuiltin s ;; ret 0) (child_of (k_next_pid k) p)
            (bump_pid k) = (Halt o cp', set_files fs (bump_pid k))) as Hchild
    by (by apply bind_of_Halt).
  rewrite (bind_of_Ret _ _ _ _ _ _ _ (fork_no_faults _ _ _ _ _ Hk Hchild)).
  change (Z.pos (k_next_pid k) =? -1) with false. cbv iota.
  set (q := k_next_pid k) in *.
  set (p1 := emit _ (tick p)).
  set (k3 := set_procs _ _).
  assert (no_faults k3) as Hk3 by done.
  assert (k_procs k3 !! q = Some (PInfo (p_pid p) o cp' false)) as Hq
    by (subst k3; psimpl; apply lookup_insert_eq).
  assert (forall q' i',
            q' <> q -> k_procs k3 !! q' = Some i' -> pi_reaped i' = true)
    as Hothers.
  { subst k3. psimpl. intros q' i' Hne Hq'.
    rewrite lookup_insert_ne in Hq' by done. by apply (Htidy q' i'). }
  rewrite bind_assoc.
  rewrite (bind_of_Ret _ _ _ _ _ _ _
             (wait_only_child p1 k3 q _ Hk3 Hq eq_refl eq_refl Hothers)).
  change (Z.pos q =? -1) with false. cbv iota.
  exists (emit (EvWait (Z.pos q)) (tick p1)), o, cp',
    (set_files fs (bump_pid k)).
  split; [done|]. split.
  { unfold bind, ret. subst k3. psimpl. unfold reap. cbn.
    by rewrite insert_insert_eq. }
  subst p1. psimpl. repeat (split; [done|]). trace_eq.
Qed.

(** What a command that returned has left of the process that ran it. *)
Lemma execute_frame cmd p k v p' k' :
  execute cmd p k = (Ret v p', k') ->
  p_fds p' = p_fds p /\ p_pid p' = p_pid p
  /\ ((forall s, cmd = Leaf s -> builtin s <> BUILTIN_CD) ->
      p_cwd p' = p_cwd p).
Proof.
  destruct cmd as [s|oper c1 c2]; cbn [execute].
  - destruct (builtin s) eqn:Hb.
    + destruct (execute_simple_command_external s p k Hb)
        as (p1 & k1 & -> & Hfds & Hcwd & Hpid & _).
      intros [= <- <- <-]. done.
    + unfold execute_simple_command. rewrite Hb.
      destruct (execute_cd_spec (tokens s) p k)
        as (r & p1 & evs & Heq & _ & _ & Hfds & Hpid & _).
      rewrite (bind_of_Ret _ _ _ _ _ _ _ Heq).
      destruct (r =? EXIT_FAILURE); [destruct (tokens s !! 1%nat)|];
        intros [= <- <- <-]; psimpl;
        (split; [done|]; split; [done|]; intros Hno; by destruct (Hno s)).
    + unfold execute_simple_command. rewrite Hb. by intros [= <- <- <-].
  - intros Hrun.
    destruct (execute_complex_command_node_returns _ _ _ _ _ _ _ _ Hrun)
      as (_ & Hfds & Hcwd & Hpid & _). done.
Qed.

(** An external command at the top level, in such a run: one process
    more, waited for like the others. *)
Lemma simple_command_forks_one s p k :
  builtin s = BUILTIN_NONE -> no_faults k -> tidy_records k ->
  exists p' k',
    execute_simple_command s p k = (Ret 0 p', k')
    /\ no_faults k' /\ tidy_records k'
    /\ k_next_pid k' = Pos.succ (k_next_pid k)
    /\ p_cwd p' = p_cwd p /\ p_fds p' = p_fds p /\ p_pid p' = p_pid p.
Proof.
  intros Hb Hk Htidy.
  destruct (simple_command_waits s p k Hb Hk Htidy)
    as (p' & o & cp' & k1 & _ & -> & Hfault & Hnext & Hfds & Hpid & Hcwd & _).
  eexists _, _. split; [reflexivity|]. split; [|split].
  - intros pid n. psimpl. rewrite Hfault. apply Hk.
  - intros q i. psimpl. rewrite Hnext.
    destruct (decide (q = k_next_pid k)) as [->|Hne].
    + rewrite lookup_insert_eq. intros [= <-]. split; [lia|done].
    + rewrite lookup_insert_ne by done. intros Hq.
      destruct (Htidy q i Hq). split; [lia|done].
  - done.
Qed.

(** When no call fails for lack of resources, a command returns to the
    loop with every process it forked waited for. *)
Lemma execute_tidy c p k :
  all_pipes c = true -> no_faults k -> tidy_records k ->
  is_Some (p_fds p !! STDIN_FILENO) -> is_Some (p_fds p !! STDOUT_FILENO) ->
  exists v p' k',
    execute c p k = (Ret v p', k') /\ no_faults k' /\ tidy_records k'.
Proof.
  intros Hall Hk Htidy Hin Hout. destruct c as [s|oper c1 c2]; cbn [execute].
  - destruct (builtin s) eqn:Hb.
    + destruct (simple_command_forks_one s p k Hb Hk Htidy)
        as (p' & k' & -> & Hk' & Htidy' & _).
      by eexists _, _, _.
    + destruct (execute_simple_command_cd s p k Hb) as (p' & evs & -> & _).
      by eexists _, _, _.
    + unfold execute_simple_command. rewrite Hb. by eexists _, _, _.
  - pose proof Hall as Hall'. simpl in Hall'.
    apply andb_true_iff in Hall' as [Hall' Hall2].
    apply andb_true_iff in Hall' as [_ Hall1].
    destruct (pipeline_runs_settled _ Hall p k Hk)
      as (r & k' & Hrun & (Hk' & Hpid & _ & Hframe & Hreaped & _) & _).
    destruct (node_wired oper c1 c2 p k Hall (stage_wired_all c1 Hall1)
                (stage_wired_all c2 Hall2) Hk Hin Hout)
      as (p' & k2 & Hrun2 & _ & Habove).
    rewrite Hrun in Hrun2. injection Hrun2 as -> <-.
    exists 0, p', k'. split; [done|]. split; [done|].
    intros q i Hq.
    destruct (decide (q < k_next_pid k)%positive) as [Hlow|Hhigh].
    { rewrite Hframe in Hq by done. destruct (Htidy q i Hq).
      split; [lia|done]. }
    destruct (decide (q < k_next_pid k')%positive) as [Hmid|Hup].
    { destruct (Hreaped q) as (i' & Hi' & Hre & _); [lia..|].
      rewrite Hq in Hi'. injection Hi' as <-. done. }
    rewrite Habove in Hq by lia. destruct (Htidy q i Hq). lia.
Qed.

(** X5.  When no call fails for lack of resources and every process on
    record has been waited for, a command returns to the loop of [main]
    with every process on record waited for again, those it forked
    included.  For an external command at the top level, the process
    returned by the wait of line 316 is the child forked at line 307. *)
Theorem every_child_is_waited_for :
  forall c p k,
    all_pipes c = true -> no_faults k -> tidy_records k ->
    is_Some (p_fds p !! STDIN_FILENO) -> is_Some (p_fds p !! STDOUT_FILENO) ->
    (exists v p' k',
       execute c p k = (Ret v p', k') /\ no_faults k' /\ tidy_records k')
    /\ (forall s,
          c = Leaf s -> builtin s = BUILTIN_NONE ->
          exists p' k' i,
            execute c p k = (Ret 0 p', k')
            /\ new_events p p' =
                 [EvFork (Z.pos (k_next_pid k)); EvWait (Z.pos (k_next_pid k))]
            /\ spawned k k' = 1%nat
            /\ k_procs k' !! k_next_pid k = Some i
            /\ pi_parent i = p_pid p /\ pi_reaped i = true
            /\ (execute_nonbuiltin s (child_of (k_next_pid k) p)
                  (bump_pid k)).1
               = Halt (pi_end i) (pi_final i)).
Proof.
  intros c p k Hall Hk Htidy Hin Hout.
  split; [by apply execute_tidy|].
  intros s -> Hb. cbn [execute].
  destruct (simple_command_waits s p k Hb Hk Htidy)
    as (p' & o & cp' & k1 & Hnb & -> & Hfault & Hnext & _ & _ & _ & Hev).
  eexists p', _, (PInfo (p_pid p) o cp' true). split; [reflexivity|].
  split; [done|]. psimpl. split; [unfold spawned; psimpl; lia|].
  split; [apply lookup_insert_eq|]. split; [done|]. split; [done|].
  cbn [pi_end pi_final]. by rewrite Hnb.
Qed.

Lemma every_child_is_waited_for_witness :
  all_pipes (Leaf (external ["ls"])) = true
  /\ no_faults kernel0 /\ tidy_records kernel0
  /\ exists v p' k',
       execute (Leaf (external ["ls"])) shell0 kernel0 = (Ret v p', k')
       /\ no_faults k' /\ tidy_records k'.
Proof.
  assert (tidy_records kernel0) as Htidy by (intros q i Hq; done).
  split; [reflexivity|]. split; [exact no_faults_kernel0|].
  split; [exact Htidy|].
  exact (proj1 (every_child_is_waited_for (Leaf (external ["ls"])) shell0
                  kernel0 eq_refl no_faults_kernel0 Htidy
                  (ltac:(by eexists)) (ltac:(by eexists)))).
Defined.

(** ** What a command leaves of the shell *)

(** X7.  A top-level cd runs in the process of the shell.  The path
    execute_cd hands to chdir is the argument itself when it is absolute
    and, when it is relative, the first 99 bytes of the current
    directory, a slash and the argument, which takes a current directory
    that fits the array given to getcwd.  When that call of chdir
    succeeds, the shell is left as the call left it: no process is
    forked, nothing is printed, no call is made but getcwd and chdir, the
    descriptor table and the kernel are as before, and the loop goes on;
    what the command holds besides its first two tokens, redirections
    included, is not looked at. *)
Theorem a_top_level_cd_is_one_chdir_by_the_shell :
  forall s w rest p k p1,
    builtin s = BUILTIN_CD -> tokens s = "cd" :: w :: rest ->
    (is_relative w = true -> strlen (p_cwd p) + 1 <= MAX_DIRNAME - 2) ->
    chdir (cd_target (p_cwd p) w)
      (if is_relative w
       then emit (EvGetcwd (MAX_DIRNAME - 2) (Some (p_cwd p))) p else p) k
      = (Ret 0 p1, k) ->
    execute_simple_command s p k = (Ret 0 p1, k)
    /\ signal_of 0 = CONTINUE
    /\ p_fds p1 = p_fds p /\ p_pid p1 = p_pid p
    /\ new_events p p1 =
         (if is_relative w
          then [EvGetcwd (MAX_DIRNAME - 2) (Some (p_cwd p))] else [])
         ++ [EvChdir (cd_target (p_cwd p) w) 0].
Proof.
  intros s w rest p k p1 Hb Htok Hfit Hchdir.
  rewrite chdir_eq in Hchdir.
  destruct (bool_decide _) eqn:Hdir in Hchdir; [|discriminate Hchdir].
  injection Hchdir as <-.
  unfold execute_simple_command. rewrite Hb, Htok.
  destruct (is_relative w) eqn:Hrel.
  - assert (execute_cd ("cd" :: w :: rest) p k =
              (Ret EXIT_SUCCESS
                 (emit (EvChdir (cd_target (p_cwd p) w) 0)
                    (set_cwd
                       (chdir_target
                          (emit (EvGetcwd (MAX_DIRNAME - 2) (Some (p_cwd p)))
                             p)
                          (cd_target (p_cwd p) w))
                       (emit (EvGetcwd (MAX_DIRNAME - 2) (Some (p_cwd p))) p))),
               k)) as Hcd.
    { rewrite execute_cd_relative by done.
      destruct (Z.leb_spec (strlen (p_cwd p) + 1) (MAX_DIRNAME - 2)) as [_|?];
        [|specialize (Hfit eq_refl); lia].
      rewrite change_to_eq. rewrite <- cd_target_relative by done.
      by rewrite Hdir. }
    rewrite (bind_of_Ret _ _ _ _ _ _ _ Hcd).
    split; [reflexivity|]. psimpl. repeat (split; [done|]). trace_eq.
  - assert (execute_cd ("cd" :: w :: rest) p k =
              (Ret EXIT_SUCCESS
                 (emit (EvChdir (cd_target (p_cwd p) w) 0)
                    (set_cwd (chdir_target p (cd_target (p_cwd p) w)) p)), k))
      as Hcd.
    { rewrite execute_cd_absolute by done. rewrite change_to_eq.
      assert (cd_target (p_cwd p) w = w) as Htarget
        by (unfold cd_target; by rewrite Hrel).
      rewrite Htarget in *. by rewrite Hdir. }
    rewrite (bind_of_Ret _ _ _ _ _ _ _ Hcd).
    split; [reflexivity|]. psimpl. repeat (split; [done|]). trace_eq.
Qed.

Lemma a_top_level_cd_is_one_chdir_by_the_shell_witness :
  exists p1,
    chdir "/home/src"
      (emit (EvGetcwd (MAX_DIRNAME - 2) (Some "/home")) shell0) kernel0
      = (Ret 0 p1, kernel0)
    /\ execute_simple_command (cd_command ["cd"; "src"]) shell0 kernel0
       = (Ret 0 p1, kernel0)
    /\ new_events shell0 p1 =
         [EvGetcwd (MAX_DIRNAME - 2) (Some "/home"); EvChdir "/home/src" 0].
Proof.
  eexists.
  assert (chdir "/home/src"
            (emit (EvGetcwd (MAX_DIRNAME - 2) (Some "/home")) shell0) kernel0
          = (Ret 0
               (emit (EvChdir "/home/src" 0)
                  (set_cwd "/home/src"
                     (emit (EvGetcwd (MAX_DIRNAME - 2) (Some "/home"))
                        shell0))), kernel0)) as Hchdir by reflexivity.
  split; [exact Hchdir|].
  destruct (a_top_level_cd_is_one_chdir_by_the_shell
              (cd_command ["cd"; "src"]) "src" [] shell0 kernel0 _
              eq_refl eq_refl
              ltac:(intros _; vm_compute; discriminate) Hchdir)
    as (Hrun & _ & _ & _ & Hev).
  split; [exact Hrun|exact Hev].
Defined.

(** X8.  Only a top-level cd changes the current directory of the
    shell.  When a command returns to the loop and is not a leaf with
    the builtin cd, the shell is in the directory it was in: an external
    command and every stage of a pipeline, a cd among them, run in
    processes of their own.  When the directory has changed, the command
    was a top-level cd, the new directory is one the process may change
    to, and the kernel is as before. *)
Theorem only_a_top_level_cd_changes_the_directory :
  forall cmd p k v p' k',
    execute cmd p k = (Ret v p', k') ->
    ((forall s, cmd = Leaf s -> builtin s <> BUILTIN_CD) ->
     p_cwd p' = p_cwd p)
    /\ (p_cwd p' <> p_cwd p ->
        exists s,
          cmd = Leaf s /\ builtin s = BUILTIN_CD
          /\ v = 0 /\ k' = k /\ p_cwd p' ∈ k_dirs k).
Proof.
  intros cmd p k v p' k' Hrun.
  destruct (execute_frame _ _ _ _ _ _ Hrun) as (_ & _ & Hcwd).
  split; [exact Hcwd|]. intros Hne.
  destruct cmd as [s|oper c1 c2].
  2:{ destruct Hne. by apply Hcwd. }
  assert (builtin s = BUILTIN_CD) as Hb.
  { destruct (builtin s) eqn:Hb; [|done|];
      destruct Hne; apply Hcwd; intros s' [= <-]; by rewrite Hb. }
  exists s. split; [done|]. split; [done|].
  cbn [execute] in Hrun. unfold execute_simple_command in Hrun.
  rewrite Hb in Hrun.
  destruct (execute_cd_spec (tokens s) p k)
    as (r & p1 & evs & Heq & _ & _ & _ & _ & _ & Hres).
  rewrite (bind_of_Ret _ _ _ _ _ _ _ Heq) in Hrun.
  destruct Hres as [[-> Hsame]|[-> Hdir]].
  - change (EXIT_FAILURE =? EXIT_FAILURE) with true in Hrun. cbv iota in Hrun.
    destruct (tokens s !! 1%nat); injection Hrun as <- <- <-;
      psimpl; by destruct Hne.
  - change (EXIT_SUCCESS =? EXIT_FAILURE) with false in Hrun.
    cbv iota in Hrun. by injection Hrun as <- <- <-.
Qed.

Lemma only_a_top_level_cd_changes_the_directory_witness :
  let r := execute cat_wc shell0 kernel0 in
  r.1 = Ret 0 (final_proc r.1)
  /\ ((forall s, cat_wc = Leaf s -> builtin s <> BUILTIN_CD) ->
      p_cwd (final_proc r.1) = p_cwd shell0).
Proof.
  assert ((execute cat_wc shell0 kernel0).1
          = Ret 0 (final_proc (execute cat_wc shell0 kernel0).1)) as Hret
    by (vm_compute; reflexivity).
  split; [exact Hret|].
  destruct (execute cat_wc shell0 kernel0) as [r k'] eqn:Hrun.
  cbn [fst] in *. rewrite Hret in Hrun.
  exact (proj1 (only_a_top_level_cd_changes_the_directory _ _ _ _ _ _ Hrun)).
Defined.

(** X9.  No failure inside a simple command ends the shell.  Whatever
    call fails, fork and wait included, execute_simple_command returns
    to the loop, with -1 for the builtin exit and 0 otherwise, and with
    the descriptor table of the shell as it was: the exits of
    execute_nonbuiltin and execute_command are those of the child. *)
Theorem a_simple_command_never_ends_the_shell :
  forall s p k,
    exists v p' k',
      execute_simple_command s p k = (Ret v p', k')
      /\ (v = -1 <-> builtin s = BUILTIN_EXIT)
      /\ (v = 0 <-> builtin s <> BUILTIN_EXIT)
      /\ p_fds p' = p_fds p /\ p_pid p' = p_pid p.
Proof.
  intros s p k. destruct (builtin s) eqn:Hb.
  - destruct (execute_simple_command_external s p k Hb)
      as (p' & k' & -> & Hfds & _ & Hpid & _).
    exists 0, p', k'. by repeat split.
  - destruct (execute_simple_command_cd s p k Hb)
      as (p' & evs & Hrun & Hfds & _).
    destruct (execute_frame (Leaf s) _ _ _ _ _ Hrun) as (_ & Hpid & _).
    exists 0, p', k. by repeat split.
  - unfold execute_simple_command. rewrite Hb.
    exists (-1), p, k. by repeat split.
Qed.

(** ** Redirections that cannot be set up *)

(** open on a NULL path fails. *)
Lemma open_null flags mode p k :
  open None flags mode p k =
    (Ret (-1) (emit (EvOpen None flags mode (-1)) (tick p)), k).
Proof. unfold open. by destruct (faulty p k). Qed.

(** X10.  An input file that does not exist.  When the command names an
    input file that is absent, the child prints the name through
    perror and exits with status 1 right after the failed open: the
    program is not started, and the kernel is as before, so that the
    output file of the command is neither created nor emptied. *)
Theorem a_missing_input_file_stops_the_command :
  forall s f p k,
    s_in s = Some f -> k_files k !! f = None ->
    execute_nonbuiltin s p k =
      (Halt (Exited 1)
         (emit (EvExit 1)
            (emit (EvPerror (Some f))
               (emit (EvOpen (Some f) O_RDONLY None (-1)) (tick p)))), k).
Proof.
  intros s f p k Hin Hf. unfold execute_nonbuiltin. rewrite Hin.
  assert (open (Some f) O_RDONLY None p k =
            (Ret (-1) (emit (EvOpen (Some f) O_RDONLY None (-1)) (tick p)), k))
    as Hopen.
  { unfold open, files_after_open. rewrite Hf.
    by destruct (faulty p k). }
  rewrite bind_assoc. rewrite (bind_of_Ret _ _ _ _ _ _ _ Hopen).
  reflexivity.
Qed.

Lemma a_missing_input_file_stops_the_command_witness :
  execute_nonbuiltin
    (SimpleCommand (Some "missing") (Some "in.txt") None ["sort"] BUILTIN_NONE)
    shell0 kernel0 =
    (Halt (Exited 1)
       (emit (EvExit 1)
          (emit (EvPerror (Some "missing"))
             (emit (EvOpen (Some "missing") O_RDONLY None (-1))
                (tick shell0)))), kernel0).
Proof.
  apply a_missing_input_file_stops_the_command; reflexivity.
Defined.

(** X11.  A redirection of the standard error stream without one of the
    standard input.  The third block of execute_nonbuiltin opens the path
    held in [in] (line 240), which is NULL here.  A redirection of the
    standard output is carried out first, in full; then the open on NULL
    fails, the child hands the name of the error file to perror and
    exits with status 1.  The program is never started, and open is
    called for the output path and for NULL only; without an output
    redirection the kernel is as before.  When the output redirection
    itself fails, the process exits there. *)
Theorem an_error_redirection_alone_stops_the_command :
  forall s e p k,
    s_in s = None -> s_err s = Some e ->
    exists p' k',
      execute_nonbuiltin s p k = (Halt (Exited 1) p', k')
      /\ existsb is_execvp (new_events p p') = false
      /\ ((exists p1 fs,
             went_through (s_out s) (s_out s) rw_create_trunc
               (Some mode_0664) STDOUT_FILENO p (k_files k) p1 fs
             /\ k' = set_files fs k
             /\ new_events p p' =
                  triplet_when (s_out s) (s_out s) rw_create_trunc
                    (Some mode_0664) STDOUT_FILENO (alloc_fd (p_fds p))
                  ++ [EvOpen None rw_create_trunc (Some mode_0664) (-1);
                      EvPerror (Some e); EvExit 1])
          \/ (is_Some (s_out s)
              /\ new_events p p'
                 ∈ failed_redirection (s_out s) rw_create_trunc
                     (Some mode_0664) STDOUT_FILENO (s_out s)
                     (alloc_fd (p_fds p))))
      /\ (s_out s = None ->
          k' = k
          /\ new_events p p' =
               [EvOpen None rw_create_trunc (Some mode_0664) (-1);
                EvPerror (Some e); EvExit 1]).
Proof.
  intros s e p k Hin Herr. rewrite execute_nonbuiltin_blocks, Hin, Herr.
  cbn [redirect_when]. unfold bind at 1. cbn [ret].
  assert (forall p1 fs,
            (redirect None rw_create_trunc (Some mode_0664) STDERR_FILENO
               (Some e) ;; execute_command (tokens s)) p1 (set_files fs k)
            = (Halt (Exited 1)
                 (emit (EvExit 1)
                    (emit (EvPerror (Some e))
                       (emit (EvOpen None rw_create_trunc (Some mode_0664)
                                (-1)) (tick p1)))), set_files fs k))
    as Hnull.
  { intros p1 fs. unfold redirect. rewrite bind_assoc.
    by rewrite (bind_of_Ret _ _ _ _ _ _ _ (open_null _ _ _ _)). }
  destruct (s_out s) as [g|] eqn:Hout; cbn [redirect_when].
  2:{ unfold bind at 1. cbn [ret].
      pose proof (Hnull p (k_files k)) as Hrun.
      rewrite set_files_id in Hrun. rewrite Hrun.
      eexists _, _. split; [reflexivity|].
      assert (new_events p
                (emit (EvExit 1)
                   (emit (EvPerror (Some e))
                      (emit (EvOpen None rw_create_trunc (Some mode_0664)
                               (-1)) (tick p))))
              = [EvOpen None rw_create_trunc (Some mode_0664) (-1);
                 EvPerror (Some e); EvExit 1]) as Hev by trace_eq.
      rewrite Hev. split; [done|]. split; [|done]. left.
      exists p, (k_files k). rewrite set_files_id. done. }
  destruct (redirect_outcomes (Some g) rw_create_trunc (Some mode_0664)
              STDOUT_FILENO (Some g) p k)
    as [(f & fs & Hf & Hfs & Hrun)
       |[(p' & Hrun & Htrace & Hfds)
        |(f & fs & p' & evs & Hf & Hfs & Hrun & Htrace & Hevs & Hfds)]];
    [done| | |].
  - injection Hf as <-. rewrite (bind_of_Ret _ _ _ _ _ _ _ Hrun), Hnull.
    eexists _, _. split; [reflexivity|].
    assert (new_events p
              (emit (EvExit 1)
                 (emit (EvPerror (Some e))
                    (emit (EvOpen None rw_create_trunc (Some mode_0664) (-1))
                       (tick (redirected (Some g) g rw_create_trunc
                                (Some mode_0664) STDOUT_FILENO p)))))
            = triplet (Some g) rw_create_trunc (Some mode_0664)
                STDOUT_FILENO (alloc_fd (p_fds p))
              ++ [EvOpen None rw_create_trunc (Some mode_0664) (-1);
                  EvPerror (Some e); EvExit 1]) as Hev.
    { apply new_events_app. unfold redirected. psimpl.
      rewrite <- !List.app_assoc. reflexivity. }
    rewrite Hev. split; [done|]. split; [|done]. left.
    eexists _, fs. split; [by exists g|]. done.
  - rewrite (bind_of_Halt _ _ _ _ _ _ _ Hrun).
    exists p', k. split; [reflexivity|].
    rewrite (new_events_app _ _ _ Htrace). split; [done|]. split; [|done].
    right. split; [by eexists|]. apply list_elem_of_here.
  - rewrite (bind_of_Halt _ _ _ _ _ _ _ Hrun).
    eexists p', _. split; [reflexivity|].
    rewrite (new_events_app _ _ _ Htrace). split.
    { by destruct Hevs as [-> | ->]. }
    split; [|done]. right. split; [by eexists|]. unfold failed_redirection.
    destruct Hevs as [-> | ->].
    + apply list_elem_of_further, list_elem_of_here.
    + apply list_elem_of_further, list_elem_of_further, list_elem_of_here.
Qed.

Lemma an_error_redirection_alone_stops_the_command_witness :
  exists p' k',
    execute_nonbuiltin
      (SimpleCommand None None (Some "err.txt") ["ls"] BUILTIN_NONE)
      shell0 kernel0 = (Halt (Exited 1) p', k')
    /\ k' = kernel0
    /\ new_events shell0 p' =
         [EvOpen None rw_create_trunc (Some mode_0664) (-1);
          EvPerror (Some "err.txt"); EvExit 1].
Proof.
  destruct (an_error_redirection_alone_stops_the_command
              (SimpleCommand None None (Some "err.txt") ["ls"] BUILTIN_NONE)
              "err.txt" shell0 kernel0 eq_refl eq_refl)
    as (p' & k' & Hrun & _ & _ & Hnone).
  exists p', k'. split; [exact Hrun|]. by apply Hnone.
Defined.

(** A redirection goes through when the file can be opened and none of
    its three calls fails for lack of resources. *)
Lemma redirect_goes_through f flags mode target name p k fs :
  0 <= target ->
  files_after_open f flags mode (p_umask p) (k_files k) = Some fs ->
  k_fault k (p_pid p) (p_clock p) = false ->
  k_fault k (p_pid p) (S (p_clock p)) = false ->
  k_fault k (p_pid p) (S (S (p_clock p))) = false ->
  redirect (Some f) flags mode target name p k =
    (Ret tt (redirected (Some f) f flags mode target p), set_files fs k).
Proof.
  intros Htarget Hfs H0 H1 H2.
  destruct (redirect_outcomes (Some f) flags mode target name p k Htarget)
    as [(f' & fs' & Hf & Hfs' & Hrun)|Hfail].
  { injection Hf as <-. rewrite Hfs in Hfs'. by injection Hfs' as <-. }
  exfalso. revert Hfail. unfold redirect.
  assert (open (Some f) flags mode p k =
            (Ret (alloc_fd (p_fds p))
               (emit (EvOpen (Some f) flags mode (alloc_fd (p_fds p)))
                  (set_fds (<[alloc_fd (p_fds p) := OFile f flags]> (p_fds p))
                     (tick p))), set_files fs k)) as Hopen.
  { unfold open, faulty. by rewrite H0, Hfs. }
  rewrite (bind_of_Ret _ _ _ _ _ _ _ Hopen).
  rewrite alloc_fd_not_minus_one. cbv iota.
  set (fd := alloc_fd (p_fds p)). set (p1 := emit _ (set_fds _ (tick p))).
  assert (p_fds p1 !! fd = Some (OFile f flags)) as Hfd
    by (subst p1; psimpl; apply lookup_insert_eq).
  rewrite (bind_of_Ret _ _ _ _ _ _ _
             (dup2_open_ok fd target _ p1 (set_files fs k) H1 Hfd)).
  assert ((target =? -1) = false) as -> by lia. cbv iota.
  set (p2 := emit _ (set_fds _ (tick p1))).
  assert (is_Some (p_fds p2 !! fd)) as Hfd2.
  { subst p2. psimpl. destruct (decide (target = fd)) as [->|Hne].
    - rewrite lookup_insert_eq. by eexists.
    - rewrite lookup_insert_ne by done. by eexists. }
  rewrite (bind_of_Ret _ _ _ _ _ _ _
             (close_open_ok fd p2 (set_files fs k) H2 Hfd2)).
  change (0 =? -1) with false. cbv iota.
  intros [(p' & Hrun & _)|(f' & fs' & p' & evs & _ & _ & Hrun & _)];
    discriminate Hrun.
Qed.

(** The output block, the error block and execute_command end the
    process and leave descriptor 0 as it is when it is open. *)
Lemma after_input_redirection s p k :
  exists o p' k' evs,
    (redirect_when (s_out s) (s_out s) rw_create_trunc (Some mode_0664)
       STDOUT_FILENO (s_out s) ;;
     redirect_when (s_err s) (s_in s) rw_create_trunc (Some mode_0664)
       STDERR_FILENO (s_err s) ;;
     execute_command (tokens s)) p k = (Halt o p', k')
    /\ p_trace p' = p_trace p ++ evs
    /\ (is_Some (p_fds p !! STDIN_FILENO) ->
        p_fds p' !! STDIN_FILENO = p_fds p !! STDIN_FILENO).
Proof.
  assert (forall p2 k2,
            exists o p' k' evs,
              (redirect_when (s_err s) (s_in s) rw_create_trunc
                 (Some mode_0664) STDERR_FILENO (s_err s) ;;
               execute_command (tokens s)) p2 k2 = (Halt o p', k')
              /\ p_trace p' = p_trace p2 ++ evs
              /\ (is_Some (p_fds p2 !! STDIN_FILENO) ->
                  p_fds p' !! STDIN_FILENO = p_fds p2 !! STDIN_FILENO))
    as Hrest.
  { intros p2 k2.
    destruct (redirection_then_command (s_err s) (s_in s) rw_create_trunc
                (Some mode_0664) STDERR_FILENO (s_err s) (tokens s) p2 k2)
      as (o & p' & k' & evs & Hrun & Htrace & Hfds & _); [done|].
    exists o, p', k', evs. split; [done|]. split; [done|].
    intros Hopen. by apply Hfds. }
  destruct (s_out s) as [g|]; cbn [redirect_when].
  2:{ unfold bind at 1. cbn [ret]. apply Hrest. }
  destruct (redirect_outcomes (Some g) rw_create_trunc (Some mode_0664)
              STDOUT_FILENO (Some g) p k)
    as [(f & fs & Hf & Hfs & Hrun)
       |[(p' & Hrun & Htrace & Hfds)
        |(f & fs & p' & evs & Hf & Hfs & Hrun & Htrace & Hevs & Hfds)]];
    [done| | |].
  - rewrite (bind_of_Ret _ _ _ _ _ _ _ Hrun).
    destruct (Hrest (redirected (Some g) f rw_create_trunc (Some mode_0664)
                       STDOUT_FILENO p) (set_files fs k))
      as (o & p' & k' & evs & -> & Htrace & Hfds).
    eexists o, p', k', _. split; [reflexivity|]. split.
    { rewrite Htrace. unfold redirected. psimpl.
      rewrite <- List.app_assoc. reflexivity. }
    intros Hopen.
    assert (p_fds (redirected (Some g) f rw_create_trunc (Some mode_0664)
                     STDOUT_FILENO p) !! STDIN_FILENO
            = p_fds p !! STDIN_FILENO) as Hsame.
    { unfold redirected. psimpl. by apply rewired_lookup_other. }
    rewrite Hfds, Hsame; [done|]. by rewrite Hsame.
  - rewrite (bind_of_Halt _ _ _ _ _ _ _ Hrun).
    eexists _, p', k, _. split; [reflexivity|]. split; [exact Htrace|].
    by rewrite Hfds.
  - rewrite (bind_of_Halt _ _ _ _ _ _ _ Hrun).
    eexists _, p', _, _. split; [reflexivity|]. split; [exact Htrace|].
    intros Hopen. by apply Hfds.
Qed.

(** X13.  The redirection of the standard input.  When the input file
    exists and the three calls of the first block do not fail for lack of
    resources, the process opens the file read-only, without O_CREAT or
    O_TRUNC, makes it its standard input and closes the new descriptor.
    Descriptor 0 then refers to the file, provided it was open when the
    process started, whatever the rest of execute_nonbuiltin comes to.
    For a command with no other redirection the rest is the call of
    execvp, and the kernel, its files included, is as before when the
    program starts or the process exits. *)
Theorem input_redirection_reads_the_file :
  forall s f file p k,
    s_in s = Some f -> k_files k !! f = Some file ->
    k_fault k (p_pid p) (p_clock p) = false ->
    k_fault k (p_pid p) (S (p_clock p)) = false ->
    k_fault k (p_pid p) (S (S (p_clock p))) = false ->
    (Z.land O_RDONLY O_ACCMODE = O_RDONLY
     /\ creates O_RDONLY = false /\ truncates O_RDONLY = false)
    /\ exists o p' k' post,
         execute_nonbuiltin s p k = (Halt o p', k')
         /\ new_events p p' =
              triplet (Some f) O_RDONLY None STDIN_FILENO (alloc_fd (p_fds p))
              ++ post
         /\ (is_Some (p_fds p !! STDIN_FILENO) ->
             p_fds p' !! STDIN_FILENO = Some (OFile f O_RDONLY))
         /\ (s_out s = None -> s_err s = None ->
             k' = k /\ exists ok, post = exec_events (tokens s) ok).
Proof.
  intros s f file p k Hin Hfile H0 H1 H2. split; [by vm_compute|].
  assert (files_after_open f O_RDONLY None (p_umask p) (k_files k)
          = Some (k_files k)) as Hfs.
  { unfold files_after_open. rewrite Hfile. done. }
  pose proof (redirect_goes_through f O_RDONLY None STDIN_FILENO (Some f)
                p k (k_files k) ltac:(done) Hfs H0 H1 H2) as Hrun.
  rewrite set_files_id in Hrun.
  set (p1 := redirected (Some f) f O_RDONLY None STDIN_FILENO p) in *.
  assert (redirect_when (s_in s) (s_in s) O_RDONLY None STDIN_FILENO (s_in s)
            p k = (Ret tt p1, k)) as Hblock by (by rewrite Hin).
  rewrite execute_nonbuiltin_blocks.
  rewrite (bind_of_Ret _ _ _ _ _ _ _ Hblock).
  assert (p_trace p1 =
            p_trace p
            ++ triplet (Some f) O_RDONLY None STDIN_FILENO
                 (alloc_fd (p_fds p))) as T1 by reflexivity.
  assert (is_Some (p_fds p !! STDIN_FILENO) ->
          p_fds p1 !! STDIN_FILENO = Some (OFile f O_RDONLY)) as Hfd.
  { intros Hopen. subst p1. unfold redirected. psimpl.
    by apply rewired_lookup_target. }
  destruct (after_input_redirection s p1 k)
    as (o & p' & k' & evs & Hrest & Htrace & Hfds).
  rewrite Hrest.
  exists o, p', k', evs. split; [reflexivity|]. split.
  { apply new_events_app. by rewrite Htrace, T1, <- List.app_assoc. }
  split.
  { intros Hopen. rewrite Hfds; [by apply Hfd|]. rewrite Hfd by done.
    by eexists. }
  intros Hout Herr. rewrite Hout, Herr in Hrest. cbn [redirect_when] in Hrest.
  unfold bind at 1 2 in Hrest. cbn [ret] in Hrest.
  destruct (execute_command_cases (tokens s) p1 k) as [(g & Hg & Heq)|Heq];
    rewrite Heq in Hrest; injection Hrest as <- <- <-; (split; [done|]).
  - exists true. unfold exec_events. rewrite Hg.
    psimpl. rewrite T1, <- !List.app_assoc in Htrace.
    do 2 apply app_inv_head in Htrace. by rewrite <- Htrace.
  - exists false. unfold exec_events.
    psimpl. rewrite T1, <- !List.app_assoc in Htrace.
    do 2 apply app_inv_head in Htrace. by rewrite <- Htrace.
Qed.

Lemma input_redirection_reads_the_file_witness :
  let s := SimpleCommand (Some "in.txt") None None ["cat"] BUILTIN_NONE in
  k_files kernel0 !! "in.txt" = Some (File 420 "hello")
  /\ is_Some (p_fds shell0 !! STDIN_FILENO)
  /\ exists o p' k' post,
       execute_nonbuiltin s shell0 kernel0 = (Halt o p', k')
       /\ new_events shell0 p' =
            triplet (Some "in.txt") O_RDONLY None STDIN_FILENO
              (alloc_fd (p_fds shell0)) ++ post
       /\ p_fds p' !! STDIN_FILENO = Some (OFile "in.txt" O_RDONLY)
       /\ k' = kernel0.
Proof.
  intros s.
  assert (k_files kernel0 !! "in.txt" = Some (File 420 "hello")) as Hfile
    by (vm_compute; reflexivity).
  assert (is_Some (p_fds shell0 !! STDIN_FILENO)) as Hopen
    by (vm_compute; eexists; reflexivity).
  split; [exact Hfile|]. split; [exact Hopen|].
  destruct (proj2 (input_redirection_reads_the_file s "in.txt" _ shell0
                     kernel0 eq_refl Hfile eq_refl eq_refl eq_refl))
    as (o & p' & k' & post & Hrun & Hev & Hfd & Hnone).
  exists o, p', k', post. split; [exact Hrun|]. split; [exact Hev|].
  split; [by apply Hfd|]. by apply Hnone.
Defined.

(** ** Programs that are not found *)

(** X14.  execute_command (lines 141-161) never returns.  For a token
    list with a first token: when execvp finds the program and the call
    does not fail, the process goes on as that program, with the whole
    token list as its argument vector; when the program is not found, or
    the call fails for another reason, the first token is handed to
    perror and the process exits with status 1.  For a top-level command
    without redirections whose program is not found, in a run without
    failing calls: the child ends that way, the shell has waited for it
    and goes on with its loop, and no file has changed. *)
Theorem an_unknown_program_is_reported_by_the_child :
  forall s prog args p k,
    tokens s = prog :: args ->
    (exists o p',
       execute_command (tokens s) p k = (Halt o p', k)
       /\ ((prog ∈ k_progs k /\ faulty p k = false
            /\ o = Execed prog (tokens s)
            /\ new_events p p' = [EvExecvp (Some prog) (tokens s) true])
           \/ ((prog ∉ k_progs k \/ faulty p k = true)
               /\ o = Exited 1
               /\ new_events p p' =
                    [EvExecvp (Some prog) (tokens s) false;
                     EvPerror (Some prog); EvExit 1])))
    /\ (prog ∉ k_progs k ->
        builtin s = BUILTIN_NONE ->
        s_in s = None -> s_out s = None -> s_err s = None ->
        no_faults k -> tidy_records k ->
        exists p' k' i,
          dispatch (Leaf s) p k = (Ret CONTINUE p', k')
          /\ k_procs k' !! k_next_pid k = Some i
          /\ pi_end i = Exited 1 /\ pi_reaped i = true
          /\ p_trace (pi_final i) =
               [EvExecvp (Some prog) (tokens s) false;
                EvPerror (Some prog); EvExit 1]
          /\ k_files k' = k_files k).
Proof.
  intros s prog args p k Htok.
  assert (tokens s !! 0%nat = Some prog) as Hfirst by (by rewrite Htok).
  assert (forall q kq,
            prog ∉ k_progs kq \/ faulty q kq = true ->
            execute_command (tokens s) q kq =
              (Halt (Exited 1)
                 (emit (EvExit 1)
                    (emit (EvPerror (Some prog))
                       (emit (EvExecvp (Some prog) (tokens s) false)
                          (tick q)))), kq)) as Hmissing.
  { intros q kq Hno. unfold execute_command, bind, execvp. rewrite Hfirst.
    destruct (faulty q kq); [done|]. destruct Hno as [Hno|?]; [|done].
    by rewrite bool_decide_eq_false_2. }
  split.
  - destruct (faulty p k) eqn:Hfault.
    { rewrite Hmissing by (by right). eexists _, _. split; [reflexivity|].
      right. split; [by right|]. split; [done|]. trace_eq. }
    destruct (decide (prog ∈ k_progs k)) as [Hprog|Hprog].
    + unfold execute_command, bind, execvp.
      rewrite Hfault, Hfirst, bool_decide_eq_true_2 by done.
      eexists _, _. split; [reflexivity|]. left.
      repeat (split; [done|]). trace_eq.
    + rewrite Hmissing by (by left). eexists _, _. split; [reflexivity|].
      right. split; [by left|]. split; [done|]. trace_eq.
  - intros Hno Hb Hin Hout Herr Hk Htidy.
    destruct (simple_command_waits s p k Hb Hk Htidy)
      as (p' & o & cp' & k1 & Hnb & Hrun & _).
    rewrite execute_nonbuiltin_blocks, Hin, Hout, Herr in Hnb.
    cbn [redirect_when] in Hnb. unfold bind at 1 2 3 in Hnb.
    cbn [ret] in Hnb. rewrite Hmissing in Hnb by (by left).
    injection Hnb as <- <- <-.
    unfold dispatch. cbn [execute].
    rewrite (bind_of_Ret _ _ _ _ _ _ _ Hrun).
    eexists _, _, _. split; [reflexivity|]. psimpl.
    split; [apply lookup_insert_eq|]. done.
Qed.

Lemma an_unknown_program_is_reported_by_the_child_witness :
  tokens badcmd = ["badcmd"]
  /\ ("badcmd" ∉ k_progs kernel0)
  /\ exists p' k' i,
       dispatch (Leaf badcmd) shell0 kernel0 = (Ret CONTINUE p', k')
       /\ k_procs k' !! k_next_pid kernel0 = Some i
       /\ pi_end i = Exited 1 /\ pi_reaped i = true
       /\ p_trace (pi_final i) =
            [EvExecvp (Some "badcmd") ["badcmd"] false;
             EvPerror (Some "badcmd"); EvExit 1]
       /\ k_files k' = k_files kernel0.
Proof.
  assert ("badcmd" ∉ k_progs kernel0) as Hno by (vm_compute; discriminate).
  split; [reflexivity|]. split; [exact Hno|].
  apply (proj2 (an_unknown_program_is_reported_by_the_child
                  badcmd "badcmd" [] shell0 kernel0 eq_refl) Hno);
    try reflexivity.
  - exact no_faults_kernel0.
  - intros q i Hq. done.
Defined.

(** ** What a command changes in the kernel *)

Section Frame.

(** [R] relates a kernel to the kernels that may come after it.  It is
    not concerned with the counters, with a child being waited for, nor
    with the record of a new child that ended by exit(0), exit(1) or
    exec. *)
Variable R : kernel -> kernel -> Prop.
Hypothesis R_refl : forall k, R k k.
Hypothesis R_trans : forall k1 k2 k3, R k1 k2 -> R k2 k3 -> R k1 k3.
Hypothesis R_pid : forall k, R k (bump_pid k).
Hypothesis R_pipe : forall k, R k (bump_pipe k).
Hypothesis R_reap : forall k q i,
  k_procs k !! q = Some i ->
  R k (set_procs (<[q := reap i]> (k_procs k)) k).
Hypothesis R_child : forall k q parent o cp,
  exit_or_exec o ->
  R k (set_procs (<[q := PInfo parent o cp false]> (k_procs k)) k).

Lemma respects_ret {A : Type} (a : A) : respects R (ret a).
Proof. intros p k. apply R_refl. Qed.

Lemma respects_bind {A B : Type} (m : M A) (f : A -> M B) :
  respects R m -> (forall a, respects R (f a)) -> respects R (bind m f).
Proof.
  intros Hm Hf p k. unfold bind. specialize (Hm p k).
  destruct (m p k) as [[a p1|o p1] k1]; cbn [snd] in *; [|done].
  apply (R_trans _ k1); [done|apply Hf].
Qed.

Lemma respects_same {A : Type} (m : M A) :
  (forall p k, (m p k).2 = k) -> respects R m.
Proof. intros H p k. rewrite H. apply R_refl. Qed.

Lemma respects_perror s : respects R (perror s).
Proof. by apply respects_same. Qed.

Lemma respects_fprintf_stderr s : respects R (fprintf_stderr s).
Proof. by apply respects_same. Qed.

Lemma respects_exit {A : Type} status : respects R (exit status : M A).
Proof. by apply respects_same. Qed.

Lemma respects_dup2 oldfd newfd : respects R (dup2 oldfd newfd).
Proof.
  apply respects_same. intros p k. unfold dup2.
  destruct (faulty p k); [done|]. by destruct (p_fds p !! oldfd).
Qed.

Lemma respects_close fd : respects R (close fd).
Proof.
  apply respects_same. intros p k. unfold close.
  destruct (faulty p k); [done|]. by destruct (p_fds p !! fd).
Qed.

Lemma respects_getcwd size : respects R (getcwd size).
Proof. by apply respects_same. Qed.

Lemma respects_chdir path : respects R (chdir path).
Proof.
  apply respects_same. intros p k. unfold chdir. by destruct (bool_decide _).
Qed.

Lemma respects_execvp path argv : respects R (execvp path argv).
Proof.
  apply respects_same. intros p k. unfold execvp.
  destruct (faulty p k); [done|]. destruct path; [|done].
  by destruct (bool_decide _).
Qed.

Lemma respects_pipe : respects R pipe.
Proof.
  intros p k. unfold pipe. destruct (faulty p k); [apply R_refl|apply R_pipe].
Qed.

Lemma respects_wait : respects R wait.
Proof.
  intros p k. unfold wait. destruct (faulty p k); [apply R_refl|].
  destruct (List.find _ _) as [[q i]|] eqn:Hfind; [|apply R_refl].
  apply List.find_some in Hfind as [Hin _].
  apply list_elem_of_In, elem_of_map_to_list in Hin. by apply R_reap.
Qed.

Lemma respects_waitpid pid : respects R (waitpid pid).
Proof.
  intros p k. unfold waitpid. destruct (faulty p k); [apply R_refl|].
  destruct pid as [|q|q]; try apply R_refl.
  destruct (k_procs k !! q) as [i|] eqn:Hq; [|apply R_refl].
  destruct (waitable _ _); [by apply R_reap|apply R_refl].
Qed.

Lemma respects_open path flags mode :
  opens_within R path flags mode -> respects R (open path flags mode).
Proof.
  intros Hopen p k. unfold open. destruct (faulty p k); [apply R_refl|].
  destruct path as [f|]; [|apply R_refl].
  destruct (files_after_open _ _ _ _ _) as [fs|] eqn:Hfs; [|apply R_refl].
  by apply (Hopen f fs k (p_umask p)).
Qed.

Lemma respects_fork child :
  respects R child -> ensures child (fun _ => False) exit_or_exec ->
  respects R (fork child).
Proof.
  intros Hchild Hends p k. unfold fork.
  destruct (faulty p k); [apply R_refl|].
  specialize (Hchild (child_of (k_next_pid k) p) (bump_pid k)).
  specialize (Hends (child_of (k_next_pid k) p) (bump_pid k)).
  destruct (child _ _) as [[v cp|o cp] k2]; cbn [fst snd] in *; [done|].
  apply (R_trans _ (bump_pid k)); [apply R_pid|].
  apply (R_trans _ k2); [done|by apply R_child].
Qed.

Lemma piped_child_exit_or_exec unused used target c :
  ensures (piped_child unused used target (execute_complex_command c))
    (fun _ => False) exit_or_exec.
Proof.
  eapply ensures_weaken; [apply piped_child_ends|done|].
  intros o [->|[->|(f & argv & ->)]]; [by left|by right; left|].
  right. right. eauto.
Qed.

Lemma forked_leaf_exit_or_exec s :
  ensures (execute_nonbuiltin s ;; ret 0) (fun _ => False) exit_or_exec.
Proof.
  eapply ensures_weaken; [apply forked_leaf_halts|done|].
  intros o [->|(f & _ & ->)]; [by right; left|]. right. right. eauto.
Qed.

Ltac respects_step :=
  match goal with
  | |- respects _ (ret _) => apply respects_ret
  | |- respects _ (exit _) => apply respects_exit
  | |- respects _ (perror _) => apply respects_perror
  | |- respects _ (fprintf_stderr _) => apply respects_fprintf_stderr
  | |- respects _ (dup2 _ _) => apply respects_dup2
  | |- respects _ (close _) => apply respects_close
  | |- respects _ (getcwd _) => apply respects_getcwd
  | |- respects _ (chdir _) => apply respects_chdir
  | |- respects _ (execvp _ _) => apply respects_execvp
  | |- respects _ pipe => apply respects_pipe
  | |- respects _ wait => apply respects_wait
  | |- respects _ (waitpid _) => apply respects_waitpid
  | |- respects _ (bind _ _) => apply respects_bind; [|intros ?]
  | |- respects _ (if ?b then _ else _) => destruct b
  | |- respects _ (match ?o with Some _ => _ | None => _ end) => destruct o
  | |- respects _ (let '(_, _) := ?x in _) => destruct x
  end.

Lemma respects_execute_cd words : respects R (execute_cd words).
Proof.
  unfold execute_cd. repeat respects_step. by apply respects_same.
  by apply respects_same.
Qed.

Lemma respects_execute_command toks : respects R (execute_command toks).
Proof. unfold execute_command. repeat respects_step. Qed.

Lemma respects_redirect_when guard path flags mode target name :
  (is_Some guard -> opens_within R path flags mode) ->
  respects R (redirect_when guard path flags mode target name).
Proof.
  intros Hopen. destruct guard as [g|]; cbn [redirect_when];
    [|apply respects_ret].
  unfold redirect. apply respects_bind.
  - apply respects_open. apply Hopen. by eexists.
  - intros fd. repeat respects_step.
Qed.

Lemma respects_execute_nonbuiltin s :
  redirects_within R s -> respects R (execute_nonbuiltin s).
Proof.
  intros (Hin & Hout & Herr). rewrite execute_nonbuiltin_blocks.
  repeat (apply respects_bind;
          [by apply respects_redirect_when|intros _]).
  apply respects_execute_command.
Qed.

Lemma respects_piped_child unused used target m :
  respects R m -> respects R (piped_child unused used target m).
Proof. intros Hm. unfold piped_child. repeat respects_step; done. Qed.

Lemma respects_execute_complex_command c :
  Forall (redirects_within R) (commands c) ->
  respects R (execute_complex_command c).
Proof.
  induction c as [s|oper c1 IH1 c2 IH2]; intros Hall.
  - cbn [execute_complex_command]. apply respects_bind.
    + apply respects_execute_nonbuiltin. cbn [commands] in Hall.
      by apply List.Forall_inv in Hall.
    + intros _. apply respects_ret.
  - cbn [commands] in Hall. apply Forall_app in Hall as [Hall1 Hall2].
    rewrite execute_complex_command_node.
    destruct (strcmp oper "|" =? 0); [|apply respects_ret].
    apply respects_bind; [apply respects_pipe|]. intros [r [pfd0 pfd1]].
    destruct (r =? -1); [repeat respects_step|].
    apply respects_bind.
    { apply respects_fork; [|apply piped_child_exit_or_exec].
      apply respects_piped_child. by apply IH1. }
    intros pid1. destruct (pid1 =? -1); [repeat respects_step|].
    apply respects_bind.
    { apply respects_fork; [|apply piped_child_exit_or_exec].
      apply respects_piped_child. by apply IH2. }
    intros pid2. repeat respects_step.
Qed.

Lemma respects_execute_simple_command s :
  redirects_within R s -> respects R (execute_simple_command s).
Proof.
  intros Hs. unfold execute_simple_command. destruct (builtin s).
  - apply respects_bind.
    + apply respects_fork; [|apply forked_leaf_exit_or_exec].
      apply respects_bind.
      * by apply respects_execute_nonbuiltin.
      * intros _. apply respects_ret.
    + intros pid. repeat respects_step.
  - apply respects_bind; [apply respects_execute_cd|].
    intros r. repeat respects_step.
  - apply respects_ret.
Qed.

Lemma respects_execute cmd :
  Forall (redirects_within R) (commands cmd) -> respects R (execute cmd).
Proof.
  intros Hall. destruct cmd as [s|oper c1 c2].
  - apply respects_execute_simple_command. cbn [commands] in Hall.
    by apply List.Forall_inv in Hall.
  - by apply respects_execute_complex_command.
Qed.

End Frame.

(** The oracle of failures is the same throughout. *)
Lemma execute_complex_command_oracle c p k :
  k_fault (execute_complex_command c p k).2 = k_fault k.
Proof.
  apply (respects_execute_complex_command
           (fun k k' => k_fault k' = k_fault k)); try done.
  - intros k1 k2 k3 H12 H23. by rewrite H23.
  - apply Forall_forall. intros s _. by repeat split.
Qed.

(** X16.  A second fork that fails.  When the pipe and the first fork of
    execute_complex_command went through and the second fork fails, the
    process reports the failure and exits with status 1 at once: it
    closes no end of the pipe and waits for no one, and the first child
    is left on record as not waited for. *)
Theorem a_failed_second_fork_leaves_the_first_child_unwaited :
  forall oper c1 c2 p k,
    (strcmp oper "|" =? 0) = true ->
    k_fault k (p_pid p) (p_clock p) = false ->
    k_fault k (p_pid p) (S (p_clock p)) = false ->
    k_fault k (p_pid p) (S (S (p_clock p))) = true ->
    exists p' k' i rd wr,
      execute_complex_command (Node oper c1 c2) p k
        = (Halt (Exited 1) p', k')
      /\ new_events p p' =
           [EvPipe 0 rd wr; EvFork (Z.pos (k_next_pid k)); EvFork (-1);
            EvPerror (Some "fork"); EvExit 1]
      /\ k_procs k' !! k_next_pid k = Some i
      /\ pi_parent i = p_pid p /\ pi_reaped i = false
      /\ is_Some (p_fds p' !! rd) /\ is_Some (p_fds p' !! wr).
Proof.
  intros oper c1 c2 p k Hop H0 H1 H2.
  rewrite execute_complex_command_node, Hop.
  destruct (pipe_cases p k) as [(_ & Hpipe)|(Hf & _)];
    [|unfold faulty in Hf; congruence].
  rewrite (bind_of_Ret _ _ _ _ _ _ _ Hpipe). cbv beta iota.
  change (0 =? -1) with false. cbv iota.
  set (rd := alloc_fd (p_fds p)) in *.
  set (wr := alloc_fd (<[rd := OPipeRead (k_next_pipe k)]> (p_fds p))) in *.
  set (p1 := emit (EvPipe 0 rd wr) _).
  set (child := piped_child rd wr STDOUT_FILENO (execute_complex_command c1)).
  destruct (fork_cases child p1 (bump_pipe k))
    as [(_ & r & k2 & Hchild & Hfork)|(Hf & _)];
    [|unfold faulty in Hf; subst p1; psimpl; congruence].
  rewrite (bind_of_Ret _ _ _ _ _ _ _ Hfork). cbn [Z.eqb]. cbv iota.
  set (p2 := emit (EvFork _) _).
  set (k3 := set_procs _ k2).
  assert (respects (fun k k' => k_fault k' = k_fault k) child) as Hresp.
  { subst child. apply respects_piped_child; try done.
    - intros k1' k2' k3' H12 H23. by rewrite H23.
    - intros q kk. apply execute_complex_command_oracle. }
  assert (k_fault k3 = k_fault k) as Horacle.
  { subst k3. psimpl.
    assert (k2 = (child (child_of (k_next_pid k) p1)
                    (bump_pid (bump_pipe k))).2) as ->
      by (by rewrite Hchild).
    apply (Hresp (child_of (k_next_pid k) p1) (bump_pid (bump_pipe k))). }
  assert (faulty p2 k3 = true) as Hfault.
  { unfold faulty. rewrite Horacle. subst p2 p1. psimpl. done. }
  destruct (fork_cases (piped_child wr rd STDIN_FILENO
                          (execute_complex_command c2)) p2 k3)
    as [(Hf & _)|(_ & Hfork2)]; [congruence|].
  rewrite (bind_of_Ret _ _ _ _ _ _ _ Hfork2).
  change (-1 =? -1) with true. cbv iota.
  eexists _, k3, (child_info (p_pid p1) r), rd, wr.
  split; [reflexivity|]. split.
  { subst p2 p1. trace_eq. }
  subst k3 p2 p1. psimpl.
  split; [apply lookup_insert_eq|].
  split; [apply child_info_parent|]. split; [apply child_info_reaped|].
  pose proof (alloc_fd_fresh (<[rd := OPipeRead (k_next_pipe k)]> (p_fds p)))
    as Hwr. fold wr in Hwr. apply lookup_insert_None in Hwr as [_ Hne].
  split.
  - rewrite lookup_insert_ne by done. rewrite lookup_insert_eq. by eexists.
  - rewrite lookup_insert_eq. by eexists.
Qed.

Lemma a_failed_second_fork_leaves_the_first_child_unwaited_witness :
  exists p' k' i rd wr,
    execute_complex_command cat_wc shell0 kernel_second_fork_fails
      = (Halt (Exited 1) p', k')
    /\ new_events shell0 p' =
         [EvPipe 0 rd wr; EvFork (Z.pos (k_next_pid kernel_second_fork_fails));
          EvFork (-1); EvPerror (Some "fork"); EvExit 1]
    /\ k_procs k' !! k_next_pid kernel_second_fork_fails = Some i
    /\ pi_parent i = p_pid shell0 /\ pi_reaped i = false
    /\ is_Some (p_fds p' !! rd) /\ is_Some (p_fds p' !! wr).
Proof.
  apply (a_failed_second_fork_leaves_the_first_child_unwaited
           "|" (Leaf (external ["cat"; "f"])) (Leaf (external ["wc"; "-l"]))
           shell0 kernel_second_fork_fails); reflexivity.
Defined.

(** ** The files a command opens *)

Section Events.

Variable P : event -> Prop.
Variable k0 : kernel.

Lemma new_records_known k k' :
  new_records P k0 k ->
  (forall q i, k_procs k' !! q = Some i -> known_in k q i) ->
  new_records P k0 k'.
Proof.
  intros Hk Hknown q i Hq.
  destruct (Hknown q i Hq) as (i1 & Hq1 & Hfinal & Hend).
  destruct (Hk q i1 Hq1) as [(i0 & Hq0 & Hfinal0 & Hend0)|Hall].
  - left. exists i0. split; [done|]. split; congruence.
  - right. by rewrite <- Hfinal.
Qed.

Lemma known_in_same k q i : k_procs k !! q = Some i -> known_in k q i.
Proof. intros Hq. by exists i. Qed.

Lemma known_in_reap k q i q' i' :
  k_procs k !! q = Some i ->
  <[q := reap i]> (k_procs k) !! q' = Some i' -> known_in k q' i'.
Proof.
  intros Hq Hq'. destruct (decide (q' = q)) as [->|Hne].
  - rewrite lookup_insert_eq in Hq'. injection Hq' as <-. by exists i.
  - rewrite lookup_insert_ne in Hq' by done. by exists i'.
Qed.

Lemma events_within_ret {A : Type} (a : A) : events_within P k0 (ret a).
Proof. intros p k old cur Ht Hc Hk. by exists cur. Qed.

Lemma events_within_undefined {A : Type} :
  events_within P k0 (undefined : M A).
Proof. intros p k old cur Ht Hc Hk. by exists cur. Qed.

Lemma events_within_bind {A B : Type} (m : M A) (f : A -> M B) :
  events_within P k0 m -> (forall a, events_within P k0 (f a)) ->
  events_within P k0 (bind m f).
Proof.
  intros Hm Hf p k old cur Ht Hc Hk.
  destruct (Hm p k old cur Ht Hc Hk) as (cur1 & T1 & C1 & K1).
  unfold bind. destruct (m p k) as [[a p1|o p1] k1]; cbn [fst snd] in *.
  - by apply (Hf a p1 k1 old cur1).
  - by exists cur1.
Qed.

(** A call that adds one event and forks nothing. *)
Lemma events_within_call {A : Type} (m : M A) :
  (forall p k,
     exists e,
       p_trace (final_proc (m p k).1) = p_trace p ++ [e] /\ P e
       /\ forall q i, k_procs (m p k).2 !! q = Some i -> known_in k q i) ->
  events_within P k0 m.
Proof.
  intros Hm p k old cur Ht Hc Hk.
  destruct (Hm p k) as (e & T & He & Hknown).
  exists (cur ++ [e]). split; [by rewrite T, Ht, <- List.app_assoc|].
  split; [apply Forall_app; split; [done|by apply Forall_singleton]|].
  by apply (new_records_known k).
Qed.

Lemma events_within_perror s :
  P (EvPerror s) -> events_within P k0 (perror s).
Proof.
  intros He. apply events_within_call. intros p k. exists (EvPerror s).
  split; [done|]. split; [done|]. apply known_in_same.
Qed.

Lemma events_within_fprintf_stderr s :
  P (EvStderr s) -> events_within P k0 (fprintf_stderr s).
Proof.
  intros He. apply events_within_call. intros p k. exists (EvStderr s).
  split; [done|]. split; [done|]. apply known_in_same.
Qed.

Lemma events_within_exit {A : Type} status :
  P (EvExit status) -> events_within P k0 (exit status : M A).
Proof.
  intros He. apply events_within_call. intros p k. exists (EvExit status).
  split; [done|]. split; [done|]. apply known_in_same.
Qed.

Lemma events_within_open path flags mode :
  (forall r, P (EvOpen path flags mode r)) ->
  events_within P k0 (open path flags mode).
Proof.
  intros He. apply events_within_call. intros p k.
  destruct (open_cases path flags mode p k)
    as [(_ & f & fs & _ & _ & ->)| ->];
    eexists; (split; [reflexivity|]); (split; [apply He|]);
    apply known_in_same.
Qed.

Lemma events_within_dup2 oldfd newfd :
  (forall r, P (EvDup2 oldfd newfd r)) ->
  events_within P k0 (dup2 oldfd newfd).
Proof.
  intros He. apply events_within_call. intros p k.
  destruct (dup2_cases oldfd newfd p k) as [(_ & o & _ & ->)| ->];
    eexists; (split; [reflexivity|]); (split; [apply He|]);
    apply known_in_same.
Qed.

Lemma events_within_close fd :
  (forall r, P (EvClose fd r)) -> events_within P k0 (close fd).
Proof.
  intros He. apply events_within_call. intros p k.
  destruct (close_cases fd p k) as [(_ & _ & ->)| ->];
    eexists; (split; [reflexivity|]); (split; [apply He|]);
    apply known_in_same.
Qed.

Lemma events_within_pipe :
  (forall r a b, P (EvPipe r a b)) -> events_within P k0 pipe.
Proof.
  intros He. apply events_within_call. intros p k.
  destruct (pipe_cases p k) as [(_ & ->)|(_ & ->)];
    eexists; (split; [reflexivity|]); (split; [apply He|]);
    apply known_in_same.
Qed.

Lemma events_within_wait :
  (forall r, P (EvWait r)) -> events_within P k0 wait.
Proof.
  intros He. apply events_within_call. intros p k.
  destruct (wait_cases p k) as [(_ & q & i & Hq & _ & ->)| ->];
    eexists; (split; [reflexivity|]); (split; [apply He|]).
  - intros q' i'. psimpl. by apply known_in_reap.
  - apply known_in_same.
Qed.

Lemma events_within_waitpid pid :
  (forall r, P (EvWaitpid pid r)) -> events_within P k0 (waitpid pid).
Proof.
  intros He. apply events_within_call. intros p k.
  destruct (waitpid_cases pid p k) as [(_ & q & i & _ & Hq & _ & ->)| ->];
    eexists; (split; [reflexivity|]); (split; [apply He|]).
  - intros q' i'. psimpl. by apply known_in_reap.
  - apply known_in_same.
Qed.

Lemma events_within_getcwd size :
  (forall r, P (EvGetcwd size r)) -> events_within P k0 (getcwd size).
Proof.
  intros He. apply events_within_call. intros p k. eexists.
  split; [reflexivity|]. split; [apply He|]. apply known_in_same.
Qed.

Lemma events_within_chdir path :
  (forall r, P (EvChdir path r)) -> events_within P k0 (chdir path).
Proof.
  intros He. apply events_within_call. intros p k. rewrite chdir_eq.
  destruct (bool_decide _); eexists;
    (split; [reflexivity|]); (split; [apply He|]); apply known_in_same.
Qed.

Lemma events_within_execvp path argv :
  (forall ok, P (EvExecvp path argv ok)) ->
  events_within P k0 (execvp path argv).
Proof.
  intros He. apply events_within_call. intros p k. unfold execvp.
  destruct (faulty p k);
    [|destruct path as [f|]; [destruct (bool_decide _)|]];
    eexists; (split; [reflexivity|]); (split; [apply He|]);
    apply known_in_same.
Qed.

(** The child starts with no events of its own; its record holds those
    it has made. *)
Lemma events_within_fork child :
  (forall r, P (EvFork r)) ->
  events_within P k0 child -> events_within P k0 (fork child).
Proof.
  intros He Hchild p k old cur Ht Hc Hk. unfold fork.
  destruct (faulty p k).
  { exists (cur ++ [EvFork (-1)]). psimpl.
    split; [by rewrite Ht, <- List.app_assoc|].
    split; [|done]. apply Forall_app. split; [done|].
    by apply Forall_singleton. }
  destruct (Hchild (child_of (k_next_pid k) p) (bump_pid k) [] [])
    as (cur' & T & C & K); [done|done|done|].
  destruct (child _ _) as [r k2]. cbn [fst snd] in *.
  exists (cur ++ [EvFork (Z.pos (k_next_pid k))]). psimpl.
  split; [by rewrite Ht, <- List.app_assoc|].
  split; [apply Forall_app; split; [done|by apply Forall_singleton]|].
  intros q i. psimpl. destruct (decide (q = k_next_pid k)) as [->|Hne].
  - rewrite lookup_insert_eq. intros [= <-]. right.
    assert (pi_final (child_info (p_pid p) r) = final_proc r) as ->
      by (by destruct r).
    by rewrite T.
  - rewrite lookup_insert_ne by done. apply K.
Qed.

End Events.

Section Opens.

Variable allowed : list (option string * Z * option Z).
Variable k0 : kernel.

Ltac events_step :=
  match goal with
  | |- events_within _ _ (ret _) => apply events_within_ret
  | |- events_within _ _ undefined => apply events_within_undefined
  | |- events_within _ _ (exit _) => by apply events_within_exit
  | |- events_within _ _ (perror _) => by apply events_within_perror
  | |- events_within _ _ (fprintf_stderr _) =>
      by apply events_within_fprintf_stderr
  | |- events_within _ _ (dup2 _ _) => by apply events_within_dup2
  | |- events_within _ _ (close _) => by apply events_within_close
  | |- events_within _ _ (getcwd _) => by apply events_within_getcwd
  | |- events_within _ _ (chdir _) => by apply events_within_chdir
  | |- events_within _ _ (execvp _ _) => by apply events_within_execvp
  | |- events_within _ _ pipe => by apply events_within_pipe
  | |- events_within _ _ wait => by apply events_within_wait
  | |- events_within _ _ (waitpid _) => by apply events_within_waitpid
  | |- events_within _ _ (bind _ _) => apply events_within_bind; [|intros ?]
  | |- events_within _ _ (if ?b then _ else _) => destruct b
  | |- events_within _ _ (match ?o with Some _ => _ | None => _ end) =>
      destruct o
  | |- events_within _ _ (let '(_, _) := ?x in _) => destruct x
  end.

Lemma opens_execute_cd words :
  events_within (opens_among allowed) k0 (execute_cd words).
Proof. unfold execute_cd. repeat events_step. Qed.

Lemma opens_execute_command toks :
  events_within (opens_among allowed) k0 (execute_command toks).
Proof. unfold execute_command. repeat events_step. Qed.

Lemma opens_redirect_when guard path flags mode target name :
  (is_Some guard -> (path, flags, mode) ∈ allowed) ->
  events_within (opens_among allowed) k0
    (redirect_when guard path flags mode target name).
Proof.
  intros Hopen. destruct guard as [g|]; cbn [redirect_when];
    [|apply events_within_ret].
  unfold redirect. apply events_within_bind.
  - apply events_within_open. intros r. apply Hopen. by eexists.
  - intros fd. repeat events_step.
Qed.

Lemma opens_execute_nonbuiltin s :
  (forall x, x ∈ redirection_opens s -> x ∈ allowed) ->
  events_within (opens_among allowed) k0 (execute_nonbuiltin s).
Proof.
  intros Hs. rewrite execute_nonbuiltin_blocks.
  repeat (apply events_within_bind; [|intros _]);
    [apply opens_redirect_when..|apply opens_execute_command];
    intros [g Hg]; apply Hs; unfold redirection_opens; rewrite Hg.
  - apply elem_of_app. left. apply list_elem_of_here.
  - apply elem_of_app. right. apply elem_of_app. left.
    apply list_elem_of_here.
  - apply elem_of_app. right. apply elem_of_app. right.
    apply list_elem_of_here.
Qed.

Lemma opens_piped_child unused used target m :
  events_within (opens_among allowed) k0 m ->
  events_within (opens_among allowed) k0 (piped_child unused used target m).
Proof. intros Hm. unfold piped_child. repeat events_step; done. Qed.

Lemma opens_of_node oper c1 c2 :
  opens_of (Node oper c1 c2) = opens_of c1 ++ opens_of c2.
Proof. unfold opens_of. cbn [commands]. by rewrite map_app, concat_app. Qed.

Lemma opens_execute_complex_command c :
  (forall x, x ∈ opens_of c -> x ∈ allowed) ->
  events_within (opens_among allowed) k0 (execute_complex_command c).
Proof.
  induction c as [s|oper c1 IH1 c2 IH2]; intros Hall.
  - cbn [execute_complex_command]. apply events_within_bind.
    + apply opens_execute_nonbuiltin. intros x Hx. apply Hall.
      unfold opens_of. cbn. by rewrite List.app_nil_r.
    + intros _. apply events_within_ret.
  - rewrite opens_of_node in Hall.
    rewrite execute_complex_command_node.
    destruct (strcmp oper "|" =? 0); [|apply events_within_ret].
    apply events_within_bind; [by apply events_within_pipe|].
    intros [r [pfd0 pfd1]].
    destruct (r =? -1); [repeat events_step|].
    apply events_within_bind.
    { apply events_within_fork; [done|]. apply opens_piped_child.
      apply IH1. intros x Hx. apply Hall. apply elem_of_app. by left. }
    intros pid1. destruct (pid1 =? -1); [repeat events_step|].
    apply events_within_bind.
    { apply events_within_fork; [done|]. apply opens_piped_child.
      apply IH2. intros x Hx. apply Hall. apply elem_of_app. by right. }
    intros pid2. repeat events_step.
Qed.

Lemma opens_execute_simple_command s :
  (forall x, x ∈ redirection_opens s -> x ∈ allowed) ->
  events_within (opens_among allowed) k0 (execute_simple_command s).
Proof.
  intros Hs. unfold execute_simple_command. destruct (builtin s).
  - apply events_within_bind.
    + apply events_within_fork; [done|]. apply events_within_bind.
      * by apply opens_execute_nonbuiltin.
      * intros _. apply events_within_ret.
    + intros pid. repeat events_step.
  - apply events_within_bind; [apply opens_execute_cd|].
    intros r. repeat events_step.
  - apply events_within_ret.
Qed.

Lemma opens_execute cmd :
  (forall x, x ∈ opens_of cmd -> x ∈ allowed) ->
  events_within (opens_among allowed) k0 (execute cmd).
Proof.
  intros Hall. destruct cmd as [s|oper c1 c2].
  - apply opens_execute_simple_command. intros x Hx. apply Hall.
    unfold opens_of. cbn. by rewrite List.app_nil_r.
  - by apply opens_execute_complex_command.
Qed.

End Opens.

Lemma new_records_impl (P Q : event -> Prop) k0 k :
  (forall e, P e -> Q e) -> new_records P k0 k -> new_records Q k0 k.
Proof.
  intros HPQ Hk q i Hq. destruct (Hk q i Hq) as [?|Hall]; [by left|].
  right. by apply (Forall_impl _ _ _ Hall).
Qed.

(** X15.  A command opens no other file than those its redirections
    name.  Whatever calls fail and however the processes end, every call
    of open that the shell or a process forked for the command makes,
    up to the start of the programs, is that of a redirection of one of
    the leaves of the command: its input path read-only, its output path
    with O_CREAT | O_RDWR | O_TRUNC and mode 0664, or, for an error
    redirection, the path held in [in] with the latter flags (line 240).
    In particular, when no leaf of the command redirects the standard
    output or the standard error, no call of open creates a file or
    empties one. *)
Theorem a_command_opens_only_the_files_it_redirects :
  forall cmd p k,
    Forall (opens_among (opens_of cmd))
      (new_events p (final_proc (execute cmd p k).1))
    /\ new_records (opens_among (opens_of cmd)) k (execute cmd p k).2
    /\ ((forall s, s ∈ commands cmd -> s_out s = None /\ s_err s = None) ->
        Forall opens_to_read (new_events p (final_proc (execute cmd p k).1))
        /\ new_records opens_to_read k (execute cmd p k).2).
Proof.
  intros cmd p k.
  destruct (opens_execute (opens_of cmd) k cmd ltac:(done) p k (p_trace p) [])
    as (evs & Htrace & Hevs & Hrec).
  { by rewrite List.app_nil_r. }
  { done. }
  { intros q i Hq. left. by exists i. }
  rewrite (new_events_app _ _ _ Htrace).
  split; [done|]. split; [done|]. intros Hnone.
  assert (forall e, opens_among (opens_of cmd) e -> opens_to_read e) as Hread.
  { intros [path flags mode r| | | | | | | | | | | |]; try done.
    cbn [opens_among opens_to_read]. unfold opens_of.
    intros Hin. apply list_elem_of_In, in_concat in Hin as (l & Hl & Hin).
    apply in_map_iff in Hl as (s & <- & Hs).
    apply list_elem_of_In in Hs, Hin.
    destruct (Hnone s Hs) as [Hout Herr].
    unfold redirection_opens in Hin. rewrite Hout, Herr in Hin.
    destruct (s_in s); cbn in Hin; [|by apply elem_of_nil in Hin].
    apply list_elem_of_singleton in Hin. by injection Hin as -> -> ->. }
  split.
  - by apply (Forall_impl _ _ _ Hevs).
  - by apply (new_records_impl _ _ _ _ Hread).
Qed.

Lemma a_command_opens_only_the_files_it_redirects_witness :
  (forall s, s ∈ commands sort_in_wc -> s_out s = None /\ s_err s = None)
  /\ Forall opens_to_read
       (new_events shell0 (final_proc (execute sort_in_wc shell0 kernel0).1))
  /\ new_records opens_to_read kernel0 (execute sort_in_wc shell0 kernel0).2.
Proof.
  assert (forall s, s ∈ commands sort_in_wc ->
                    s_out s = None /\ s_err s = None) as Hnone.
  { intros s Hs. cbn in Hs.
    apply list_elem_of_In in Hs. simpl in Hs.
    destruct Hs as [<-|[<-|[]]]; done. }
  split; [exact Hnone|].
  exact (proj2 (proj2 (a_command_opens_only_the_files_it_redirects
                         sort_in_wc shell0 kernel0)) Hnone).
Defined.

(** ** The lines [main] reads *)

Lemma read_bytes_app n input :
  input = (read_bytes n input).1 +:+ (read_bytes n input).2
  /\ (String.length (read_bytes n input).1 <= n)%nat.
Proof.
  revert input. induction n as [|n IH]; intros input.
  - destruct input; simpl; (split; [done|lia]).
  - destruct input as [|c input]; simpl; [split; [done|lia]|].
    destruct (Ascii.eqb c LF); simpl; [split; [done|lia]|].
    destruct (IH input) as [Happ Hlen].
    destruct (read_bytes n input) as [l r]. simpl in *.
    split; [by rewrite append_cons, <- Happ|lia].
Qed.

Lemma read_bytes_nonempty n input :
  (0 < n)%nat -> input <> "" -> (read_bytes n input).1 <> "".
Proof.
  intros Hn Hne. destruct n as [|n]; [lia|].
  destruct input as [|c input]; [done|]. simpl.
  destruct (Ascii.eqb c LF); [done|].
  by destruct (read_bytes n input).
Qed.

Lemma newline_last_cons c s :
  newline_last (String c s) <->
  s = "" \/ (Ascii.eqb c LF = false /\ newline_last s).
Proof.
  unfold newline_last. destruct s as [|c' s]; [simpl; tauto|].
  cbn [String.length]. replace (S (S (String.length s)) - 1)%nat
    with (S (String.length s)) by lia.
  replace (S (String.length s) - 1)%nat with (String.length s) by lia.
  cbn [string_take occurs]. rewrite orb_false_iff.
  split; [by right|]. by intros [?|?].
Qed.

Lemma read_bytes_newline_last n input :
  newline_last (read_bytes n input).1.
Proof.
  revert input. induction n as [|n IH]; intros input.
  - by destruct input.
  - destruct input as [|c input]; [done|]. simpl.
    destruct (Ascii.eqb c LF) eqn:Hc; [done|].
    specialize (IH input). destruct (read_bytes n input) as [l r].
    simpl in *. apply newline_last_cons. by right.
Qed.

Lemma c_string_newline_last s : newline_last s -> newline_last (c_string s).
Proof.
  induction s as [|c s IH]; [done|]. simpl.
  destruct (Ascii.eqb c NUL); [done|].
  rewrite !newline_last_cons. intros [->|[Hc Hs]]; [by left|].
  right. auto.
Qed.

Lemma c_string_length s : (String.length (c_string s) <= String.length s)%nat.
Proof.
  induction s as [|c s IH]; [done|]. simpl.
  destruct (Ascii.eqb c NUL); simpl; lia.
Qed.

Lemma c_string_no_null s : occurs NUL (c_string s) = false.
Proof.
  induction s as [|c s IH]; [done|]. simpl.
  destruct (Ascii.eqb c NUL) eqn:Hc; [done|]. simpl. by rewrite Hc.
Qed.

Lemma c_string_id s : occurs NUL s = false -> c_string s = s.
Proof.
  induction s as [|c s IH]; [done|]. simpl.
  intros H. apply orb_false_iff in H as [-> H]. by rewrite IH.
Qed.

Lemma occurs_take c n s :
  occurs c s = false -> occurs c (string_take n s) = false.
Proof.
  revert s. induction n as [|n IH]; intros s; [by destruct s|].
  destruct s as [|c' s]; [done|]. simpl.
  intros H. apply orb_false_iff in H as [-> H]. by apply IH.
Qed.

(** The last character of a string that is not empty. *)
Lemma occurs_last c s :
  s <> "" ->
  exists c0,
    String.get (String.length s - 1) s = Some c0
    /\ occurs c s
       = occurs c (string_take (String.length s - 1) s) || Ascii.eqb c0 c.
Proof.
  induction s as [|c1 s IH]; [done|]. intros _.
  destruct s as [|c2 s].
  - exists c1. simpl. by rewrite orb_false_r.
  - destruct IH as (c0 & Hget & Hocc); [done|]. exists c0.
    cbn [String.length] in *.
    replace (S (S (String.length s)) - 1)%nat
      with (S (String.length s)) by lia.
    replace (S (String.length s) - 1)%nat with (String.length s) in * by lia.
    split; [exact Hget|].
    change (occurs c (String c1 (String c2 s)))
      with (Ascii.eqb c1 c || occurs c (String c2 s)).
    rewrite Hocc. cbn [string_take occurs]. by rewrite orb_assoc.
Qed.

(** strip_newline on a string that fits the array: the string without
    its last character when this is a newline. *)
Lemma strip_newline_spec l :
  l <> "" -> strlen l <= MAX_COMMAND - 1 -> newline_last l ->
  exists l',
    strip_newline l = Some l'
    /\ occurs LF l' = false
    /\ (String.length l' <= String.length l)%nat
    /\ (occurs NUL l = false -> occurs NUL l' = false).
Proof.
  intros Hne Hlen Hlast. unfold strip_newline, strlen in *.
  assert (0 < String.length l)%nat as Hpos by (destruct l; simpl; [done|lia]).
  unfold SIZE_MAX1, MAX_COMMAND in *.
  change (2 ^ 64) with 18446744073709551616.
  rewrite Z.mod_small by lia.
  destruct (Z.leb_spec 1024 (Z.of_nat (String.length l) - 1)) as [?|_]; [lia|].
  replace (Z.to_nat (Z.of_nat (String.length l) - 1))
    with (String.length l - 1)%nat by lia.
  destruct (occurs_last LF l Hne) as (c0 & -> & Hocc).
  eexists. split; [reflexivity|].
  destruct (Ascii.eqb c0 LF) eqn:Hc0.
  - split; [exact Hlast|]. split.
    + rewrite length_string_take. lia.
    + intros H. by apply occurs_take.
  - split; [|done]. rewrite Hocc, Hlast. done.
Qed.

Lemma strip_newline_empty : strip_newline "" = None.
Proof. reflexivity. Qed.

Lemma read_bytes_no_newline a rest :
  occurs LF a = false -> read_bytes (String.length a) (a +:+ rest) = (a, rest).
Proof.
  induction a as [|c a IH]; intros H.
  - simpl. by destruct rest.
  - simpl in H. apply orb_false_iff in H as [Hc H].
    rewrite append_cons. cbn [String.length read_bytes].
    rewrite Hc, IH by done. done.
Qed.

Lemma read_bytes_line a rest n :
  occurs LF a = false -> (String.length a < n)%nat ->
  read_bytes n (a +:+ newline +:+ rest) = (a +:+ newline, rest).
Proof.
  revert n. induction a as [|c a IH]; intros n H Hn.
  - destruct n as [|n]; [lia|]. reflexivity.
  - simpl in H. apply orb_false_iff in H as [Hc H].
    destruct n as [|n]; [simpl in Hn; lia|].
    rewrite !append_cons. cbn [read_bytes].
    rewrite Hc, IH by (simpl in Hn; done || lia). done.
Qed.

Lemma occurs_append c a b : occurs c (a +:+ b) = occurs c a || occurs c b.
Proof.
  induction a as [|c' a IH]; [done|].
  rewrite append_cons. simpl. by rewrite IH, orb_assoc.
Qed.

Lemma string_take_length_append a b :
  string_take (String.length a) (a +:+ b) = a.
Proof.
  induction a as [|c a IH]; [by destruct b|].
  rewrite append_cons. simpl. by rewrite IH.
Qed.

Lemma get_length_append a c b :
  String.get (String.length a) (a +:+ String c b) = Some c.
Proof.
  induction a as [|c' a IH]; [done|]. rewrite append_cons. exact IH.
Qed.

(** ** The read loop of [main] *)

(** What the dispatch of lines 63-75 tells the loop: it stops exactly for
    a top-level exit, which leaves the process and the kernel as they
    were. *)
Lemma dispatch_returns cmd p k s p' k' :
  dispatch cmd p k = (Ret s p', k') ->
  (s = STOP <-> top_level_exit cmd) /\ (s = STOP -> p' = p /\ k' = k).
Proof.
  unfold dispatch, bind. intros H.
  destruct cmd as [sc|oper c1 c2]; cbn [execute top_level_exit] in *.
  - pose proof (execute_simple_command_returns sc p k) as Hret.
    destruct (execute_simple_command sc p k) as [[v p1|o p1] k1] eqn:Hrun;
      simpl in *; [|done].
    unfold ret in H. injection H as <- <- <-.
    rewrite signal_of_stop.
    destruct Hret as [[He ->]|[Hne ->]].
    + split; [done|]. intros _.
      unfold execute_simple_command in Hrun. rewrite He in Hrun.
      unfold ret in Hrun. by injection Hrun as <- <-.
    + split; [split; [lia|done]|lia].
  - remember (Node oper c1 c2) as c eqn:Hc. clear Hc.
    pose proof (execute_complex_command_returns c p k) as Hret.
    destruct (execute_complex_command c p k) as [[v p1|o p1] k1];
      simpl in *; [|done].
    unfold ret in H. injection H as <- <- <-. rewrite signal_of_stop.
    subst v. split; [split; [lia|done]|lia].
Qed.

Lemma dispatch_top_level_exit cmd p k :
  top_level_exit cmd -> dispatch cmd p k = (Ret STOP p, k).
Proof.
  destruct cmd as [s|oper c1 c2]; simpl; [|done]. intros He.
  unfold dispatch, bind, execute, execute_simple_command. by rewrite He.
Qed.

Section Loop.

Variable parse_line : string -> list string * string.
Variable construct_command : list string -> command.

(** The body of the loop by cases: the prompt is printed from the
    current directory and the line of [next_line] is run, or the
    iteration reads what was never stored. *)
Lemma body_cases ms p k :
  (strlen (p_cwd p) + 1 <= MAX_DIRNAME - 1 /\
   exists l rest,
     next_line ms = Some (l, rest)
     /\ body parse_line construct_command ms p k =
          run_line parse_line construct_command l rest
            (printed ms ++ [p_cwd p +:+ "> "])
            (emit (EvGetcwd (MAX_DIRNAME - 1) (Some (p_cwd p))) p) k)
  \/ ((MAX_DIRNAME - 1 < strlen (p_cwd p) + 1 \/ next_line ms = None) /\
      exists p', body parse_line construct_command ms p k
                 = (Halt Undefined p', k)).
Proof.
  unfold body, bind, getcwd, next_line, strip_newline, run_line, strlen.
  cbn [fst snd].
  destruct (Z.leb_spec (Z.of_nat (String.length (p_cwd p)) + 1)
              (MAX_DIRNAME - 1)) as [Hfit|Hlong].
  2:{ right. split; [left; lia|]. by eexists. }
  destruct (match fgets MAX_COMMAND (standard_input ms) with
            | Some (bytes, rest) => (Some (c_string bytes), rest)
            | None => (command_line ms, standard_input ms)
            end) as [[l|] rest].
  2:{ right. split; [by right|]. by eexists. }
  destruct (MAX_COMMAND <=? _).
  { right. split; [by right|]. by eexists. }
  left. split; [done|]. eexists _, rest. split; [reflexivity|].
  destruct (parse_line _) as [toks kept]. done.
Qed.


Lemma run_line_returns l rest out p k s ms' p' k' :
  run_line parse_line construct_command l rest out p k
    = (Ret (s, ms') p', k') ->
  ms' = MainState (Some (parse_line l).2) rest out
  /\ (s = STOP <->
      (parse_line l).1 <> []
      /\ top_level_exit (construct_command (parse_line l).1))
  /\ (s = STOP -> p' = p /\ k' = k).
Proof.
  unfold run_line. destruct (parse_line l) as [toks kept]. cbn [fst snd].
  destruct toks as [|t toks].
  - unfold ret. intros H. injection H as <- <- <- <-.
    split; [done|]. split; [split; [done|by intros [? _]]|done].
  - unfold bind.
    destruct (dispatch (construct_command (t :: toks)) p k)
      as [[s1 p1|o p1] k1] eqn:Hd; [|done].
    unfold ret. intros H. injection H as <- <- <- <-.
    destruct (dispatch_returns _ _ _ _ _ _ Hd) as [Hiff Hsame].
    split; [done|]. split; [|done].
    rewrite Hiff. split; [by intros ?|by intros [_ ?]].
Qed.

Lemma run_line_exit l rest out p k :
  (parse_line l).1 <> [] ->
  top_level_exit (construct_command (parse_line l).1) ->
  run_line parse_line construct_command l rest out p k =
    (Ret (STOP, MainState (Some (parse_line l).2) rest out) p, k).
Proof.
  unfold run_line. destruct (parse_line l) as [toks kept]. cbn [fst snd].
  intros Hne He. destruct toks as [|t toks]; [done|].
  unfold bind. by rewrite (dispatch_top_level_exit _ p k He).
Qed.

(** X1.  [main] returns only through its [break]s, with status 0, and
    these are taken only for a line whose tokens make a top-level exit: at
    the start of the last iteration the loop was in a state from which
    such a line is read, and this iteration changed nothing in the kernel
    and added the call of getcwd to the events of the shell.  Conversely,
    when the current directory fits the array [cwd], an iteration that
    reads such a line returns from [main] with what is left of the input
    unread. *)
Theorem main_returns_only_after_a_top_level_exit :
  forall fuel ms p k,
    (forall status ms' p' k',
       main_loop parse_line construct_command fuel ms p k
         = Finished status ms' p' k' ->
       status = 0
       /\ exists n ms1 p1 l,
            (n < fuel)%nat
            /\ main_loop parse_line construct_command n ms p k
               = Running ms1 p1 k'
            /\ next_line ms1 = Some (l, standard_input ms')
            /\ (parse_line l).1 <> []
            /\ top_level_exit (construct_command (parse_line l).1)
            /\ command_line ms' = Some (parse_line l).2
            /\ p' = emit (EvGetcwd (MAX_DIRNAME - 1) (Some (p_cwd p1))) p1)
    /\ (forall l rest,
          strlen (p_cwd p) + 1 <= MAX_DIRNAME - 1 ->
          next_line ms = Some (l, rest) ->
          (parse_line l).1 <> [] ->
          top_level_exit (construct_command (parse_line l).1) ->
          main_loop parse_line construct_command (S fuel) ms p k =
            Finished 0
              (MainState (Some (parse_line l).2) rest
                 (printed ms ++ [p_cwd p +:+ "> "]))
              (emit (EvGetcwd (MAX_DIRNAME - 1) (Some (p_cwd p))) p) k).
Proof.
  intros fuel ms p k. split.
  - revert ms p k. induction fuel as [|fuel IH]; intros ms p k; [done|].
    intros status ms' p' k'. cbn [main_loop].
    destruct (body_cases ms p k)
      as [(Hfit & l & rest & Hline & Hbody)|(_ & pu & Hbody)];
      rewrite Hbody; [|done].
    destruct (run_line _ _ l rest _ _ k) as [[[s ms1] p1|o p1] k1] eqn:Hrun;
      [|done].
    destruct (run_line_returns _ _ _ _ _ _ _ _ _ Hrun) as (Hms & Hiff & Hsame).
    destruct s.
    + intros Hfin. destruct (IH _ _ _ _ _ _ _ Hfin)
        as (Hst & n & ms2 & p2 & l2 & Hn & Hloop & Hrest).
      split; [done|]. exists (S n), ms2, p2, l2. split; [lia|].
      split; [|done]. cbn [main_loop]. by rewrite Hbody.
    + intros Hfin. injection Hfin as <- <- <- <-.
      destruct Hsame as [-> ->]; [done|]. apply proj1 in Hiff.
      destruct Hiff as [Hne He]; [done|].
      split; [done|]. exists 0%nat, ms, p, l. subst ms1.
      split; [lia|]. done.
  - intros l rest Hfit Hline Hne He. cbn [main_loop].
    destruct (body_cases ms p k)
      as [(_ & l' & rest' & Hline' & Hbody)|([Hlong|Hnone] & _)];
      [|lia|congruence].
    rewrite Hline in Hline'. injection Hline' as <- <-.
    rewrite Hbody, (run_line_exit _ _ _ _ _ Hne He). done.
Qed.

(** The loop at the end of the input, on a line the tokenizer leaves as
    it is and that makes an external command: every iteration forks one
    process more. *)
Lemma end_of_input_forks l s fuel :
  strip_newline l = Some l -> (parse_line l).2 = l ->
  (parse_line l).1 <> [] ->
  construct_command (parse_line l).1 = Leaf s -> builtin s = BUILTIN_NONE ->
  forall out p k,
    no_faults k -> tidy_records k ->
    strlen (p_cwd p) + 1 <= MAX_DIRNAME - 1 ->
    exists ms' p' k',
      main_loop parse_line construct_command fuel
        (MainState (Some l) "" out) p k = Running ms' p' k'
      /\ Pos.to_nat (k_next_pid k') = (Pos.to_nat (k_next_pid k) + fuel)%nat.
Proof.
  intros Hstrip Hkept Htoks Hcmd Hb.
  induction fuel as [|fuel IH]; intros out p k Hk Htidy Hfit.
  { eexists _, _, _. split; [reflexivity|]. lia. }
  cbn [main_loop].
  destruct (body_cases (MainState (Some l) "" out) p k)
    as [(_ & l' & rest & Hline & ->)|([Hlong|Hnone] & _)]; [|lia|].
  2:{ unfold next_line in Hnone. cbn in Hnone. by rewrite Hstrip in Hnone. }
  unfold next_line in Hline. cbn in Hline. rewrite Hstrip in Hline.
  injection Hline as <- <-.
  unfold run_line. destruct (parse_line l) as [toks kept].
  cbn [fst snd] in *. subst kept.
  destruct toks as [|t toks]; [done|]. rewrite Hcmd.
  set (p1 := emit _ p).
  destruct (simple_command_forks_one s p1 k Hb Hk Htidy)
    as (p' & k' & Hrun & Hk' & Htidy' & Hnext & Hcwd & _).
  unfold dispatch. rewrite bind_assoc. cbn [execute].
  rewrite (bind_of_Ret _ _ _ _ _ _ _ Hrun). cbn.
  destruct (IH (out ++ [p_cwd p +:+ "> "]) p' k' Hk' Htidy')
    as (ms' & p'' & k'' & -> & Hpid).
  { by rewrite Hcwd. }
  eexists _, _, _. split; [reflexivity|]. lia.
Qed.

(** X2.  The result of fgets is not tested.  At the end of the input
    nothing is stored in [command_line]: started on an empty input, [main]
    reads the array before anything was stored in it.  Later the array
    holds what the last iteration left there, and this is run again:
    when it is a line that the tokenizer leaves as it is and that does
    not make a top-level exit, [main] never returns, however many
    iterations it is given.  When the line makes an external command and
    no call fails for lack of resources, the loop does not stop either:
    every iteration forks a process for the command once more. *)
Theorem end_of_input_does_not_end_the_loop :
  forall fuel out p k,
    (exists p',
       main parse_line construct_command (S fuel) "" p k
         = Ended Undefined p' k)
    /\ (forall l,
          strip_newline l = Some l ->
          (parse_line l).2 = l ->
          ((parse_line l).1 = []
           \/ ~ top_level_exit (construct_command (parse_line l).1)) ->
          next_line (MainState (Some l) "" out) = Some (l, "")
          /\ goes_on (main_loop parse_line construct_command fuel
                        (MainState (Some l) "" out) p k))
    /\ (forall l s,
          strip_newline l = Some l ->
          (parse_line l).2 = l ->
          (parse_line l).1 <> [] ->
          construct_command (parse_line l).1 = Leaf s ->
          builtin s = BUILTIN_NONE ->
          no_faults k -> tidy_records k ->
          strlen (p_cwd p) + 1 <= MAX_DIRNAME - 1 ->
          exists ms' p' k',
            main_loop parse_line construct_command fuel
              (MainState (Some l) "" out) p k = Running ms' p' k'
            /\ spawned k k' = fuel).
Proof.
  intros fuel out p k. split; [|split].
  3:{ intros l s Hstrip Hkept Htoks Hcmd Hb Hk Htidy Hfit.
      destruct (end_of_input_forks l s fuel Hstrip Hkept Htoks Hcmd Hb
                  out p k Hk Htidy Hfit) as (ms' & p' & k' & Hrun & Hpid).
      exists ms', p', k'. split; [done|]. unfold spawned. lia. }
  - unfold main. cbn [main_loop].
    destruct (body_cases (MainState None "" []) p k)
      as [(_ & l & rest & Hline & _)|(_ & p' & ->)]; [done|].
    by exists p'.
  - intros l Hstrip Hkept Hnot.
    assert (forall out, next_line (MainState (Some l) "" out) = Some (l, ""))
      as Hnext.
    { intros out'. unfold next_line. cbn. by rewrite Hstrip. }
    split; [done|].
    revert out p k. induction fuel as [|fuel IH]; intros out p k; [done|].
    cbn [main_loop].
    destruct (body_cases (MainState (Some l) "" out) p k)
      as [(_ & l' & rest & Hline & ->)|(_ & p' & ->)]; [|done].
    rewrite Hnext in Hline. injection Hline as <- <-.
    destruct (run_line _ _ l "" _ _ k) as [[[s ms1] p1|o p1] k1] eqn:Hrun;
      [|done].
    destruct (run_line_returns _ _ _ _ _ _ _ _ _ Hrun) as (-> & Hiff & _).
    rewrite Hkept. destruct s; [apply IH|].
    destruct Hiff as [[Hne He] _]; [done|].
    destruct Hnot as [Hnil|Hnot]; [by rewrite Hnil in Hne|done].
Qed.

Lemma fgets_nonempty n input :
  input <> "" -> fgets n input = Some (read_bytes (Z.to_nat (n - 1)) input).
Proof. by destruct input. Qed.

(** X3.  The lines [main] hands to the parser.  An iteration runs the
    line of [next_line].  A line of at most MAX_COMMAND - 2 = 1022 bytes
    is run without its newline, and the input after it is left for the
    next iteration.  A line with more bytes is not refused: its first
    MAX_COMMAND - 1 = 1023 bytes are run as a command line of their own,
    and the rest of the line is left to be read as the next one.
    Whatever is read from an input that has not ended, the line run has
    at most 1023 bytes and holds neither a newline nor a null byte. *)
Theorem command_lines_are_cut_at_the_buffer_size :
  forall ms p k,
    strlen (p_cwd p) + 1 <= MAX_DIRNAME - 1 ->
    (forall l rest,
       next_line ms = Some (l, rest) ->
       body parse_line construct_command ms p k =
         run_line parse_line construct_command l rest
           (printed ms ++ [p_cwd p +:+ "> "])
           (emit (EvGetcwd (MAX_DIRNAME - 1) (Some (p_cwd p))) p) k)
    /\ (forall a rest,
          standard_input ms = a +:+ newline +:+ rest ->
          strlen a <= MAX_COMMAND - 2 ->
          occurs LF a = false -> occurs NUL a = false ->
          next_line ms = Some (a, rest))
    /\ (forall a rest,
          standard_input ms = a +:+ rest ->
          strlen a = MAX_COMMAND - 1 ->
          occurs LF a = false -> occurs NUL a = false ->
          next_line ms = Some (a, rest))
    /\ (forall l rest,
          standard_input ms <> "" -> next_line ms = Some (l, rest) ->
          strlen l <= MAX_COMMAND - 1
          /\ occurs LF l = false /\ occurs NUL l = false
          /\ exists bytes,
               standard_input ms = bytes +:+ rest
               /\ 1 <= strlen bytes <= MAX_COMMAND - 1).
Proof.
  intros ms p k Hfit. split; [|split; [|split]].
  - intros l rest Hline.
    destruct (body_cases ms p k)
      as [(_ & l' & rest' & Hline' & Hbody)|([Hlong|Hnone] & _)];
      [|lia|congruence].
    rewrite Hline in Hline'. by injection Hline' as <- <-.
  - intros a rest Hin Hlen Hlf Hnul. unfold next_line, strlen in *.
    rewrite fgets_nonempty
      by (rewrite Hin; destruct a; [done|by rewrite append_cons]).
    rewrite Hin, read_bytes_line by (done || unfold MAX_COMMAND in *; lia).
    rewrite c_string_id
      by (rewrite occurs_append, Hnul; reflexivity).
    unfold strip_newline, strlen. rewrite length_append.
    change (String.length newline) with 1%nat.
    unfold SIZE_MAX1, MAX_COMMAND in *.
    change (2 ^ 64) with 18446744073709551616.
    rewrite Z.mod_small by lia.
    destruct (Z.leb_spec 1024 (Z.of_nat (String.length a + 1) - 1))
      as [?|_]; [lia|].
    replace (Z.to_nat (Z.of_nat (String.length a + 1) - 1))
      with (String.length a) by lia.
    unfold newline. rewrite get_length_append.
    change (Ascii.eqb (ascii_of_nat 10) LF) with true. cbv iota.
    by rewrite string_take_length_append.
  - intros a rest Hin Hlen Hlf Hnul. unfold next_line, strlen in *.
    assert (String.length a = 1023%nat) as Hlen'
      by (unfold MAX_COMMAND in *; lia).
    assert (a <> "") as Hne by (intros ->; simpl in Hlen'; lia).
    rewrite fgets_nonempty
      by (rewrite Hin; destruct a; [done|by rewrite append_cons]).
    replace (Z.to_nat (MAX_COMMAND - 1)) with (String.length a)
      by (unfold MAX_COMMAND; lia).
    rewrite Hin, read_bytes_no_newline, c_string_id by done.
    destruct (strip_newline_spec a Hne) as (l' & Hstrip & _);
      [unfold strlen; lia| |].
    { unfold newline_last. by apply occurs_take. }
    rewrite Hstrip. f_equal. f_equal.
    unfold strip_newline in Hstrip.
    destruct (MAX_COMMAND <=? _); [done|]. injection Hstrip as <-.
    destruct (String.get _ a) as [c|] eqn:Hget; [|done].
    destruct (Ascii.eqb c LF) eqn:Hc; [|done].
    apply Ascii.eqb_eq in Hc as ->.
    destruct (occurs_last LF a Hne) as (c0 & Hget0 & Hocc).
    revert Hget. unfold strlen, SIZE_MAX1.
    change (2 ^ 64) with 18446744073709551616.
    rewrite Z.mod_small by lia.
    replace (Z.to_nat (Z.of_nat (String.length a) - 1))
      with (String.length a - 1)%nat by lia.
    rewrite Hget0. intros [= ->].
    rewrite Hlf in Hocc. symmetry in Hocc.
    apply orb_false_iff in Hocc as [_ Hocc]. done.
  - intros l rest Hne Hline. unfold next_line in Hline.
    rewrite (fgets_nonempty _ _ Hne) in Hline.
    pose proof (read_bytes_app (Z.to_nat (MAX_COMMAND - 1))
                  (standard_input ms)) as [Happ Hlen].
    pose proof (read_bytes_newline_last (Z.to_nat (MAX_COMMAND - 1))
                  (standard_input ms)) as Hlast.
    pose proof (read_bytes_nonempty (Z.to_nat (MAX_COMMAND - 1))
                  (standard_input ms)) as Hsome.
    destruct (read_bytes _ (standard_input ms)) as [bytes rest'].
    cbn [fst snd] in *.
    destruct (strip_newline (c_string bytes)) as [l'|] eqn:Hstrip; [|done].
    injection Hline as <- <-.
    assert (c_string bytes <> "") as Hne'
      by (intros He; by rewrite He in Hstrip).
    pose proof (c_string_length bytes) as Hclen.
    destruct (strip_newline_spec (c_string bytes) Hne')
      as (l2 & Hstrip2 & Hlf & Hlen2 & Hnul).
    { unfold strlen, MAX_COMMAND in *. lia. }
    { by apply c_string_newline_last. }
    rewrite Hstrip in Hstrip2. injection Hstrip2 as <-.
    unfold strlen, MAX_COMMAND in *.
    split; [lia|]. split; [done|].
    split; [apply Hnul, c_string_no_null|].
    exists bytes. split; [done|].
    assert (bytes <> "") as Hb by (apply Hsome; [lia|done]).
    destruct bytes; [done|]. simpl in *. lia.
Qed.

(** X6.  The loop of [main] when no call fails for lack of resources
    and the parser gives trees of pipes.  However many iterations are
    run, the shell has the descriptor table and the process identifier
    it started with, and between two iterations every process on record
    has been waited for.  The shell itself never exits: its process ends
    inside the loop only where the behaviour of [main] is not defined,
    on a prompt printed from an array getcwd did not fill or on a read
    of [command_line] where fgets stored nothing. *)
Theorem the_read_loop_keeps_the_shell_in_order :
  forall fuel ms p k,
    (forall toks, all_pipes (construct_command toks) = true) ->
    no_faults k -> tidy_records k ->
    is_Some (p_fds p !! STDIN_FILENO) -> is_Some (p_fds p !! STDOUT_FILENO) ->
    match main_loop parse_line construct_command fuel ms p k with
    | Finished _ _ p' k' | Running _ p' k' =>
        p_fds p' = p_fds p /\ p_pid p' = p_pid p
        /\ no_faults k' /\ tidy_records k'
    | Ended o _ _ => o = Undefined
    end.
Proof.
  intros fuel ms p k Hparser. revert ms p k.
  induction fuel as [|fuel IH]; intros ms p k Hk Htidy Hin Hout; [done|].
  cbn [main_loop].
  destruct (body_cases ms p k)
    as [(_ & l & rest & _ & ->)|(_ & pu & ->)]; [|done].
  set (p1 := emit _ p).
  assert (exists s ms' p' k',
            run_line parse_line construct_command l rest
              (printed ms ++ [p_cwd p +:+ "> "]) p1 k = (Ret (s, ms') p', k')
            /\ p_fds p' = p_fds p /\ p_pid p' = p_pid p
            /\ no_faults k' /\ tidy_records k')
    as (s & ms' & p' & k' & -> & Hfds & Hpid & Hk' & Htidy').
  { unfold run_line. destruct (parse_line l) as [toks kept].
    destruct toks as [|t toks]; [by eexists _, _, _, _|].
    destruct (execute_tidy _ p1 k (Hparser (t :: toks)) Hk Htidy Hin Hout)
      as (v & p' & k' & Hrun & Hk' & Htidy').
    destruct (execute_frame _ _ _ _ _ _ Hrun) as (Hfds & Hpid & _).
    eexists _, _, p', k'. split; [|done].
    unfold dispatch. rewrite bind_assoc.
    rewrite (bind_of_Ret _ _ _ _ _ _ _ Hrun). reflexivity. }
  destruct s; [|done].
  specialize (IH ms' p' k' Hk' Htidy').
  rewrite Hfds, Hpid in IH. by apply IH.
Qed.

(** X12.  The array [cwd] of [main] has MAX_DIRNAME bytes and the result
    of getcwd(cwd, MAX_DIRNAME - 1) is not tested.  An iteration of the
    loop that begins with the shell in a directory whose name has
    MAX_DIRNAME - 1 = 99 bytes or more, the first one or a later one,
    finds getcwd failing and prints the prompt from an array whose
    contents getcwd has not defined: the behaviour of [main] is undefined
    from there, before a line is read or a command run, whatever the
    input holds. *)
Theorem a_long_directory_leaves_the_prompt_undefined :
  forall fuel ms p k,
    MAX_DIRNAME - 1 <= strlen (p_cwd p) ->
    main_loop parse_line construct_command (S fuel) ms p k =
      Ended Undefined (emit (EvGetcwd (MAX_DIRNAME - 1) None) p) k.
Proof.
  intros fuel ms p k Hlen. cbn [main_loop].
  unfold body, bind, getcwd. psimpl. unfold strlen in Hlen.
  destruct (Z.leb_spec (Z.of_nat (String.length (p_cwd p)) + 1)
              (MAX_DIRNAME - 1)); [lia|done].
Qed.

End Loop.

Lemma end_of_input_does_not_end_the_loop_witness :
  strip_newline "ls" = Some "ls"
  /\ (example_parse_line "ls").2 = "ls"
  /\ (example_parse_line "ls").1 <> []
  /\ example_construct_command (example_parse_line "ls").1
     = Leaf (example_simple_command ["ls"])
  /\ builtin (example_simple_command ["ls"]) = BUILTIN_NONE
  /\ no_faults kernel0 /\ tidy_records kernel0
  /\ strlen (p_cwd shell0) + 1 <= MAX_DIRNAME - 1
  /\ exists ms' p' k',
       main_loop example_parse_line example_construct_command 5
         (MainState (Some "ls") "" []) shell0 kernel0 = Running ms' p' k'
       /\ spawned kernel0 k' = 5%nat.
Proof.
  assert (strip_newline "ls" = Some "ls") as H1 by reflexivity.
  assert ((example_parse_line "ls").2 = "ls") as H2 by reflexivity.
  assert ((example_parse_line "ls").1 <> []) as H3
    by (vm_compute; discriminate).
  assert (example_construct_command (example_parse_line "ls").1
          = Leaf (example_simple_command ["ls"])) as H4 by reflexivity.
  assert (builtin (example_simple_command ["ls"]) = BUILTIN_NONE) as H5
    by reflexivity.
  assert (tidy_records kernel0) as H6 by (intros q i Hq; done).
  assert (strlen (p_cwd shell0) + 1 <= MAX_DIRNAME - 1) as H7
    by (vm_compute; discriminate).
  repeat (split; [assumption || exact no_faults_kernel0|]).
  exact (proj2 (proj2 (end_of_input_does_not_end_the_loop
                         example_parse_line example_construct_command 5 []
                         shell0 kernel0))
           "ls" _ H1 H2 H3 H4 H5 no_faults_kernel0 H6 H7).
Defined.

Lemma main_returns_only_after_a_top_level_exit_witness :
  match example_main 2 ("ls" +:+ newline +:+ "exit" +:+ newline) with
  | Finished status ms' p' k' =>
      status = 0
      /\ exists n ms1 p1 l,
           (n < 2)%nat
           /\ main_loop example_parse_line example_construct_command n
                (MainState None ("ls" +:+ newline +:+ "exit" +:+ newline) [])
                shell0 kernel0 = Running ms1 p1 k'
           /\ next_line ms1 = Some (l, standard_input ms')
           /\ (example_parse_line l).1 <> []
           /\ top_level_exit
                (example_construct_command (example_parse_line l).1)
           /\ command_line ms' = Some (example_parse_line l).2
           /\ p' = emit (EvGetcwd (MAX_DIRNAME - 1) (Some (p_cwd p1))) p1
  | _ => False
  end.
Proof.
  destruct (example_main 2 ("ls" +:+ newline +:+ "exit" +:+ newline))
    as [status ms' p' k'|o p' k'|ms' p' k'] eqn:Hrun.
  - exact (proj1 (main_returns_only_after_a_top_level_exit
                    example_parse_line example_construct_command 2
                    _ shell0 kernel0) status ms' p' k' Hrun).
  - vm_compute in Hrun. discriminate Hrun.
  - vm_compute in Hrun. discriminate Hrun.
Defined.

Lemma command_lines_are_cut_at_the_buffer_size_witness :
  strlen (p_cwd shell0) + 1 <= MAX_DIRNAME - 1
  /\ strlen long_line = MAX_COMMAND - 1
  /\ next_line (MainState None (long_line +:+ "b" +:+ newline) [])
     = Some (long_line, "b" +:+ newline).
Proof.
  assert (strlen (p_cwd shell0) + 1 <= MAX_DIRNAME - 1) as Hfit
    by (vm_compute; discriminate).
  split; [exact Hfit|]. split; [reflexivity|].
  apply (proj1 (proj2 (proj2
           (command_lines_are_cut_at_the_buffer_size
              example_parse_line example_construct_command
              (MainState None (long_line +:+ "b" +:+ newline) [])
              shell0 kernel0 Hfit)))).
  - reflexivity.
  - reflexivity.
  - vm_compute. reflexivity.
  - vm_compute. reflexivity.
Defined.

Lemma example_construct_command_pipes toks :
  all_pipes (example_construct_command toks) = true.
Proof.
  unfold example_construct_command.
  assert (forall seg after,
            (forall c, after = Some c -> all_pipes c = true) ->
            all_pipes (example_join seg after) = true) as Hjoin.
  { intros seg [c|] Hc; [|done]. simpl. by apply Hc. }
  assert (forall c,
            (foldr (fun tok '(seg, after) =>
                      if String.eqb tok "|"
                      then ([], Some (example_join seg after))
                      else (tok :: seg, after))
                   ([], None) toks).2 = Some c -> all_pipes c = true) as Hfold.
  { induction toks as [|t toks IH]; [done|]. cbn [foldr].
    destruct (foldr _ _ toks) as [seg after]. cbn [snd] in *.
    destruct (String.eqb t "|"); cbn [snd]; [|done].
    intros c [= <-]. by apply Hjoin. }
  destruct (foldr _ _ toks) as [seg after]. by apply Hjoin.
Qed.

Lemma the_read_loop_keeps_the_shell_in_order_witness :
  match example_main 3 ("ls | wc" +:+ newline +:+ "cd /tmp" +:+ newline) with
  | Finished _ _ p' k' | Running _ p' k' =>
      p_fds p' = p_fds shell0 /\ p_pid p' = p_pid shell0
      /\ no_faults k' /\ tidy_records k'
  | Ended o _ _ => o = Undefined
  end.
Proof.
  apply (the_read_loop_keeps_the_shell_in_order
           example_parse_line example_construct_command).
  - exact example_construct_command_pipes.
  - exact no_faults_kernel0.
  - intros q i Hq. done.
  - by eexists.
  - by eexists.
Defined.

Lemma a_long_directory_leaves_the_prompt_undefined_witness :
  MAX_DIRNAME - 1 <= strlen (p_cwd (shell_in dir99))
  /\ main_loop example_parse_line example_construct_command 3
       (MainState None ("ls" +:+ newline) []) (shell_in dir99) kernel99
     = Ended Undefined
         (emit (EvGetcwd (MAX_DIRNAME - 1) None) (shell_in dir99)) kernel99.
Proof.
  assert (MAX_DIRNAME - 1 <= strlen (p_cwd (shell_in dir99))) as Hlen
    by (vm_compute; discriminate).
  split; [exact Hlen|].
  exact (a_long_directory_leaves_the_prompt_undefined
           example_parse_line example_construct_command 2
           (MainState None ("ls" +:+ newline) []) (shell_in dir99) kernel99
           Hlen).
Defined.

(** X17.  No child of the shell comes back into the loop of [main].
    Whatever calls fail, every process the shell forks for a command, at
    any depth of a pipeline, ends with exit(0), with exit(1) or by
    becoming another program: none of them returns from the code under
    [pid == 0] and goes on as a second shell.  This holds for a single
    command and, record by record, for the whole run of [main]. *)
Theorem no_child_returns_into_the_loop :
  forall parse_line construct_command cmd fuel ms p k,
    ended_well k ->
    ended_well (execute cmd p k).2
    /\ ended_well
         (kernel_of (main_loop parse_line construct_command fuel ms p k)).
Proof.
  intros parse_line construct_command cmd fuel ms p k Hk.
  assert (forall c, respects (fun k k' => ended_well k -> ended_well k')
                      (execute c)) as Hexec.
  { intros c. apply respects_execute; try done.
    - intros k1 k2 k3 H12 H23 H1. auto.
    - intros k0 q i Hq Hgood q' i'. psimpl.
      destruct (decide (q' = q)) as [->|Hne].
      + rewrite lookup_insert_eq. intros [= <-]. by apply (Hgood q i).
      + rewrite lookup_insert_ne by done. apply Hgood.
    - intros k0 q parent o cp Ho Hgood q' i'. psimpl.
      destruct (decide (q' = q)) as [->|Hne].
      + rewrite lookup_insert_eq. by intros [= <-].
      + rewrite lookup_insert_ne by done. apply Hgood.
    - apply Forall_forall. intros s _.
      split; [|split]; intros _ f fs k0 umask _ _ Hgood; exact Hgood. }
  split; [by apply Hexec|].
  revert ms p k Hk. induction fuel as [|fuel IH]; intros ms p k Hk; [done|].
  cbn [main_loop].
  assert (ended_well (body parse_line construct_command ms p k).2) as Hbody.
  { destruct (body_cases parse_line construct_command ms p k)
      as [(_ & l & rest & _ & ->)|(_ & pu & ->)]; [|done].
    unfold run_line. destruct (parse_line l) as [toks kept].
    destruct toks as [|t toks]; [done|].
    unfold dispatch. rewrite bind_assoc.
    pose proof (Hexec (construct_command (t :: toks))
                  (emit (EvGetcwd (MAX_DIRNAME - 1) (Some (p_cwd p))) p) k Hk)
      as Hrun.
    unfold bind.
    by destruct (execute _ _ _) as [[v p1|o p1] k1]. }
  destruct (body _ _ ms p k) as [[[[|] ms'] p'|o p'] k']; cbn [snd] in *.
  - by apply IH.
  - done.
  - done.
Qed.

Lemma no_child_returns_into_the_loop_witness :
  ended_well kernel0
  /\ ended_well (execute three_stages shell0 kernel0).2
  /\ ended_well
       (kernel_of (example_main 3 ("ls | wc" +:+ newline +:+ "nothing"))).
Proof.
  assert (ended_well kernel0) as Hk by (intros q i Hq; done).
  split; [exact Hk|].
  exact (no_child_returns_into_the_loop example_parse_line
           example_construct_command three_stages 3
           (MainState None ("ls | wc" +:+ newline +:+ "nothing") [])
           shell0 kernel0 Hk).
Defined.

(** ** The scenarios of the specification *)

(** [ls]: one fork; the child execs ls with the descriptors it
    inherited; the parent waits and the loop goes on. *)
Example scenario_ls :
  let r := dispatch (Leaf (external ["ls"])) shell0 kernel0 in
  r.1 = Ret CONTINUE (final_proc r.1)
  /\ p_trace (final_proc r.1) = [EvFork 2; EvWait 2]
  /\ spawned kernel0 r.2 = 1%nat
  /\ (pi_end <$> record_of 2 r) = Some (Execed "ls" ["ls"])
  /\ (p_trace <$> (pi_final <$> record_of 2 r))
     = Some [EvExecvp (Some "ls") ["ls"] true]
  /\ (p_fds <$> (pi_final <$> record_of 2 r)) = Some std_fds.
Proof. vm_compute. repeat split; reflexivity. Qed.

(** [badcmd]: one fork; execvp fails in the child, which reports the
    name and exits with status 1; the wait of the parent succeeds and the
    loop goes on. *)
Example scenario_badcmd :
  let r := dispatch (Leaf badcmd) shell0 kernel0 in
  r.1 = Ret CONTINUE (final_proc r.1)
  /\ p_trace (final_proc r.1) = [EvFork 2; EvWait 2]
  /\ (pi_end <$> record_of 2 r) = Some (Exited 1)
  /\ (p_trace <$> (pi_final <$> record_of 2 r))
     = Some [EvExecvp (Some "badcmd") ["badcmd"] false;
             EvPerror (Some "badcmd"); EvExit 1].
Proof. vm_compute. repeat split; reflexivity. Qed.

(** [cat f | wc -l]: one pipe, two forks; the standard output of the
    first child is the write end of the pipe when it execs, the standard
    input of the second is the read end; the orchestrating process
    closes both ends and waits for both children. *)
Example scenario_cat_wc :
  let r := dispatch cat_wc shell0 kernel0 in
  r.1 = Ret CONTINUE (final_proc r.1)
  /\ p_trace (final_proc r.1) = orchestration 3 4 2 3
  /\ pipes_made kernel0 r.2 = 1%nat /\ spawned kernel0 r.2 = 2%nat
  /\ (pi_end <$> record_of 2 r) = Some (Execed "cat" ["cat"; "f"])
  /\ ((fun i => p_fds (pi_final i) !! STDOUT_FILENO) <$> record_of 2 r)
     = Some (Some (OPipeWrite 0))
  /\ (pi_end <$> record_of 3 r) = Some (Execed "wc" ["wc"; "-l"])
  /\ ((fun i => p_fds (pi_final i) !! STDIN_FILENO) <$> record_of 3 r)
     = Some (Some (OPipeRead 0))
  /\ (pi_reaped <$> record_of 2 r) = Some true
  /\ (pi_reaped <$> record_of 3 r) = Some true.
Proof. vm_compute. repeat split; reflexivity. Qed.

(** [exit]: STOP, and nothing else happens. *)
Example scenario_exit :
  dispatch (Leaf exit_command) shell0 kernel0 = (Ret STOP shell0, kernel0).
Proof. reflexivity. Qed.

(** [exit | wc -l]: the first stage looks up a program named exit. *)
Example scenario_exit_in_pipeline :
  let r := dispatch (pipeline exit_command [external ["wc"; "-l"]])
             shell0 kernel0 in
  r.1 = Ret CONTINUE (final_proc r.1)
  /\ (pi_end <$> record_of 2 r) = Some (Exited 1)
  /\ (p_trace <$> (pi_final <$> record_of 2 r))
     = Some [EvClose 3 0; EvDup2 4 1 1; EvClose 4 0;
             EvExecvp (Some "exit") ["exit"] false;
             EvPerror (Some "exit"); EvExit 1].
Proof. vm_compute. repeat split; reflexivity. Qed.
